(** * Step execution engine: self-healing call executor and execution strategies

    A shallow embedding of
    - [executeApiCall], [isSelfHealingEnabled] and [callResolver]
      (the GraphQL call resolver), and
    - [selectStrategy], [directStrategy] and [loopStrategy]
      (packages/core/workflow/workflow-strategies.ts),
    together with the properties of the retry loop, of the loop strategy and
    of the error paths.

    Conventions of the embedding.
    - JSON-shaped JavaScript values are the inductive type [Json].
    - Thrown values are [Error] objects ([JsError]).
    - Asynchronous code runs sequentially (every call is awaited, or is a
      fire-and-forget call to a sink), so it is modelled in a small monad
      with state, exceptions and a log of the calls made to the external
      collaborators.
    - External collaborators (transport caller, config synthesizer, response
      validator, datastore, transform facade) act on an abstract world [W];
      each call may return or throw.  Sinks (logger, telemetry, webhook
      notifier, run store) only leave an event in the log. *)

From Stdlib Require Import String Ascii List Bool Arith PeanoNat Lia ZArith.
From Stdlib Require Import DecimalString.
Import ListNotations.
Local Open Scope string_scope.
Local Open Scope list_scope.
Local Open Scope nat_scope.

Set Implicit Arguments.

(* ================================================================== *)
(** * JavaScript values *)
(* ================================================================== *)

Module Js.

(** JSON-shaped values.  Numbers are integers: only their truthiness is
    ever observed by the code below. *)
#[warnings="-register-all"]
Inductive Json : Type :=
| JUndefined
| JNull
| JBool (b : bool)
| JNum (n : Z)
| JStr (s : string)
| JArr (items : list Json)
| JObj (fields : list (string * Json)).

(** An [Error] object: [e.name], [e.message], and the text that
    [JSON.stringify(e)] yields (["{}"] for a plain [Error]). *)
Record JsError : Type := mkJsError {
  name : string;
  message : string;
  json : string
}.

(** [new Error(msg)] *)
Definition Error (msg : string) : JsError :=
  {| name := "Error"; message := msg; json := "{}" |}.

(** The [TypeError] raised by reading property [prop] of [undefined]. *)
Definition TypeError_undefined (prop : string) : JsError :=
  {| name := "TypeError";
     message := "Cannot read properties of undefined (reading '" ++ prop ++ "')";
     json := "{}" |}.

(** JavaScript truthiness of a string: [""] is falsy. *)
Definition truthy_string (s : string) : bool :=
  match s with EmptyString => false | String _ _ => true end.

(** JavaScript truthiness of a value. *)
Definition truthy (j : Json) : bool :=
  match j with
  | JUndefined | JNull => false
  | JBool b => b
  | JNum n => negb (Z.eqb n 0)
  | JStr s => truthy_string s
  | JArr _ | JObj _ => true
  end.

(** [j == null]: the value is [null] or [undefined]. *)
Definition nullish (j : Json) : bool :=
  match j with JUndefined | JNull => true | _ => false end.

(** [Array.isArray] *)
Definition isArray (j : Json) : bool :=
  match j with JArr _ => true | _ => false end.

(** [typeof j] *)
Definition typeof (j : Json) : string :=
  match j with
  | JUndefined => "undefined"
  | JNull | JArr _ | JObj _ => "object"
  | JBool _ => "boolean"
  | JNum _ => "number"
  | JStr _ => "string"
  end.

(** [String(n)] for a non-negative integer. *)
Definition string_of_nat (n : nat) : string :=
  NilEmpty.string_of_uint (Nat.to_uint n).

(** [String(e)] for an [Error] object ([Error.prototype.toString]). *)
Definition String_of_error (e : JsError) : string :=
  match name e, message e with
  | EmptyString, m => m
  | n, EmptyString => n
  | n, m => n ++ ": " ++ m
  end.

(** [s.slice(0, n)] *)
Definition slice0 (n : nat) (s : string) : string := substring 0 n s.

(** [s.startsWith(p)] *)
Definition startsWith (p s : string) : bool := prefix p s.

(** [s.includes(v)] *)
Fixpoint includes (v s : string) : bool :=
  prefix v s ||
  match s with
  | EmptyString => false
  | String _ s' => includes v s'
  end.

(** [xs.join(sep)] *)
Fixpoint join (sep : string) (xs : list string) : string :=
  match xs with
  | [] => ""
  | [x] => x
  | x :: rest => x ++ sep ++ join sep rest
  end.

(** Own enumerable properties, as copied by an object spread [{...j}] and
    listed by [Object.keys]: the fields of an object, the indexed elements
    of an array, the indexed characters of a string, nothing for the other
    primitives. *)
Fixpoint indexed (i : nat) (xs : list Json) : list (string * Json) :=
  match xs with
  | [] => []
  | x :: rest => (string_of_nat i, x) :: indexed (S i) rest
  end.

Fixpoint characters (s : string) : list Json :=
  match s with
  | EmptyString => []
  | String c s' => JStr (String c EmptyString) :: characters s'
  end.

Definition spread (j : Json) : list (string * Json) :=
  match j with
  | JObj fields => fields
  | JArr items => indexed 0 items
  | JStr s => indexed 0 (characters s)
  | _ => []
  end.

(** The [TypeError] of [Object.keys(undefined)] and [Object.keys(null)]. *)
Definition TypeError_keys : JsError :=
  {| name := "TypeError";
     message := "Cannot convert undefined or null to object";
     json := "{}" |}.

(** Writing property [k] of an object literal: a later write replaces the
    value of an earlier one and keeps its position. *)
Fixpoint set_field (k : string) (v : Json) (fields : list (string * Json))
  : list (string * Json) :=
  match fields with
  | [] => [(k, v)]
  | (k', v') :: rest =>
      if String.eqb k k' then (k, v) :: rest
      else (k', v') :: set_field k v rest
  end.

(** [{...a, ...b}] on property lists. *)
Definition merge_fields (a b : list (string * Json)) : list (string * Json) :=
  fold_left (fun acc kv => set_field (fst kv) (snd kv) acc) b a.

(** Reading property [k]; [undefined] when absent. *)
Fixpoint get_field (k : string) (fields : list (string * Json)) : Json :=
  match fields with
  | [] => JUndefined
  | (k', v) :: rest => if String.eqb k k' then v else get_field k rest
  end.

(** Optional chaining [j?.k]. *)
Definition opt_get (k : string) (j : Json) : Json :=
  match j with
  | JObj fields => get_field k fields
  | _ => JUndefined
  end.

End Js.
Import Js.

(* ================================================================== *)
(** * A monad for sequential code with exceptions *)
(* ================================================================== *)

Module Effect.

(** How a computation ends.  [OutOfFuel] only arises from a loop whose
    iteration bound was too small; the theorems show it never happens. *)
Inductive Outcome (A : Type) : Type :=
| Returned (a : A)
| Threw (e : JsError)
| OutOfFuel.
Arguments Returned {A} a.
Arguments Threw {A} e.
Arguments OutOfFuel {A}.

(** What a call to an external collaborator yields. *)
Inductive Completion (A : Type) : Type :=
| Ok (a : A)
| Raise (e : JsError).
Arguments Ok {A} a.
Arguments Raise {A} e.

Section Monad.
(** [E]: the events logged; [S]: the mutable state. *)
Variables E S : Type.

Definition M (A : Type) : Type := S -> Outcome A * S * list E.

Definition ret {A} (a : A) : M A := fun s => (Returned a, s, []).

Definition bind {A B} (m : M A) (f : A -> M B) : M B :=
  fun s =>
    match m s with
    | (Returned a, s1, ev1) =>
        match f a s1 with
        | (o, s2, ev2) => (o, s2, ev1 ++ ev2)
        end
    | (Threw e, s1, ev1) => (Threw e, s1, ev1)
    | (OutOfFuel, s1, ev1) => (OutOfFuel, s1, ev1)
    end.

(** [throw e] *)
Definition throw {A} (e : JsError) : M A := fun s => (Threw e, s, []).

(** [try { body } catch (error) { handler error }]: the state changes and
    the events of [body] up to the throw are kept. *)
Definition try_catch {A} (body : M A) (handler : JsError -> M A) : M A :=
  fun s =>
    match body s with
    | (Threw e, s1, ev1) =>
        match handler e s1 with
        | (o, s2, ev2) => (o, s2, ev1 ++ ev2)
        end
    | r => r
    end.

Definition get : M S := fun s => (Returned s, s, []).
Definition put (s : S) : M unit := fun _ => (Returned tt, s, []).
Definition gets {A} (f : S -> A) : M A := fun s => (Returned (f s), s, []).
Definition modify (f : S -> S) : M unit := fun s => (Returned tt, f s, []).

(** A call to a sink. *)
Definition emit (e : E) : M unit := fun s => (Returned tt, s, [e]).

Definition out_of_fuel {A} : M A := fun s => (OutOfFuel, s, []).
End Monad.

Arguments ret {E S A} a.
Arguments bind {E S A B} m f.
Arguments throw {E S A} e.
Arguments try_catch {E S A} body handler.
Arguments get {E S}.
Arguments put {E S} s.
Arguments gets {E S A} f.
Arguments modify {E S} f.
Arguments emit {E S} e.
Arguments out_of_fuel {E S A}.

Declare Scope js_scope.
Delimit Scope js_scope with js.
Notation "x <- m ;; k" := (bind m (fun x => k))
  (at level 61, m at next level, right associativity) : js_scope.
Notation "m ;; k" := (bind m (fun _ => k))
  (at level 61, right associativity) : js_scope.

(** [if (c) { m }] *)
Definition when {E S} (c : bool) (m : M E S unit) : M E S unit :=
  if c then m else ret tt.

End Effect.
Import Effect.
Local Open Scope js_scope.

(* ================================================================== *)
(** * Data model *)
(* ================================================================== *)

Module SelfHealingMode.
Inductive t : Type := ENABLED | DISABLED | REQUEST_ONLY.
End SelfHealingMode.

Module CacheMode.
Inductive t : Type := ENABLED | DISABLED | READONLY | WRITEONLY.
End CacheMode.

(** [ApiConfig]: the fields the engine reads. *)
Record ApiConfig : Type := mkApiConfig {
  id : string;
  urlHost : string;
  urlPath : string;
  instruction : string;
  responseSchema : Json;
  responseMapping : option string
}.

(** [RequestOptions]; every field is optional. *)
Record RequestOptions : Type := mkRequestOptions {
  selfHealing : option SelfHealingMode.t;
  cacheMode : option CacheMode.t;
  retries : option nat;
  webhookUrl : option string;
  testMode : option bool
}.

(** [Record<string, string>], or [undefined] when the caller gave none.
    The order of the entries is the insertion order of the object. *)
Definition Credentials : Type := option (list (string * string)).

Record Metadata : Type := mkMetadata {
  runId : option string;
  orgId : option string
}.

Record Integration : Type := mkIntegration {
  integrationId : string;
  documentation : option string;
  documentationPending : bool
}.

(** One record of the conversation transcript. *)
Record Message : Type := mkMessage {
  role : string;
  content : string
}.

(** Truthiness of an optional string property. *)
Definition truthy_opt (o : option string) : bool :=
  match o with Some s => truthy_string s | None => false end.

Definition nl : string := String (ascii_of_nat 10) EmptyString.

(* ================================================================== *)
(** * The self-healing call executor and the call orchestrator *)
(* ================================================================== *)

Module Executor.

(** [{ config, messages }] as returned by the config synthesizer. *)
Record GeneratedConfig : Type := mkGeneratedConfig {
  config : ApiConfig;
  newMessages : list Message
}.

(** The transport caller's response. *)
Record Response : Type := mkResponse { data : Json }.

(** The response validator's verdict. *)
Record Evaluation : Type := mkEvaluation {
  evalSuccess : bool;
  shortReason : string
}.

(** [{ data, endpoint }] as returned by [executeApiCall]. *)
Record ApiCallResult : Type := mkApiCallResult {
  resultData : Json;
  resultEndpoint : option ApiConfig
}.

(** The part of a config that the post-call transform may refine. *)
Record TransformConfig : Type := mkTransformConfig {
  tcId : string;
  tcInstruction : string;
  tcResponseSchema : Json;
  tcResponseMapping : option string
}.

Record TransformResult : Type := mkTransformResult {
  transformData : Json;
  transformConfig : option TransformConfig
}.

(** The argument object of [executeTransform]. *)
Record TransformArgs : Type := mkTransformArgs {
  fromCache : bool;
  inputEndpoint : option ApiConfig;
  inputData : Json;
  transformMetadata : Metadata;
  transformOptions : option RequestOptions
}.

(** The run record handed to the run store. *)
Record RunResult : Type := mkRunResult {
  runResultId : string;
  runSuccess : bool;
  runError : option string;
  runConfig : option ApiConfig;
  startedAt : nat;
  completedAt : nat
}.

Record ApiInputRequest : Type := mkApiInputRequest {
  inputId : option string;
  endpointInput : option ApiConfig
}.

(** What is observable of a run: the calls made to the collaborators, with
    the attempt index ([retryCount]) at the time of the call, and the
    messages given to the sinks. *)
Inductive Event : Type :=
| EvLog (level msg : string)
| EvGenerateApiConfig (attempt : nat) (endpoint : option ApiConfig)
    (documentationString : string) (messages : list Message)
    (r : Completion GeneratedConfig)
| EvCallEndpoint (attempt : nat) (endpoint : option ApiConfig)
    (r : Completion Response)
| EvEvaluateResponse (attempt : nat) (responseData : Json)
    (r : Completion Evaluation)
| EvCaptureException (msg : string) (org : option string)
    (endpoint : option ApiConfig) (attempts : nat)
| EvGetApiConfig (configId : string) (r : Completion (option ApiConfig))
| EvExecuteTransform (args : TransformArgs) (r : Completion TransformResult)
| EvUpsertApiConfig (configId : string) (cfg : ApiConfig)
| EvNotifyWebhook (url callId : string) (ok : bool) (payload : option Json)
    (error : option string)
| EvCreateRun (run : RunResult).

(** The external collaborators, over a world [W]. *)
Record Collaborators (W : Type) : Type := mkCollaborators {
  generateApiConfig :
    option ApiConfig -> string -> Json -> Credentials -> nat -> list Message ->
    W -> Completion GeneratedConfig * W;
  callEndpoint :
    option ApiConfig -> Json -> Credentials -> option RequestOptions ->
    W -> Completion Response * W;
  evaluateResponse :
    Json -> Json -> string -> W -> Completion Evaluation * W;
  getApiConfig :
    string -> option string -> W -> Completion (option ApiConfig) * W;
  executeTransform : TransformArgs -> W -> Completion TransformResult * W;
  (** [maskCredentials] of utils/tools.js *)
  maskCredentials : string -> Credentials -> string;
  (** [JSON.stringify] *)
  JSON_stringify : Json -> string;
  (** the mapping-language guide of llm/prompts.js *)
  PROMPT_MAPPING : string;
  (** whether a telemetry client is configured *)
  telemetryClient : bool;
  (** [new Date()] and [crypto.randomUUID()] *)
  newDate : W -> nat * W;
  randomUUID : W -> string * W
}.

(** [isSelfHealingEnabled] *)
Definition isSelfHealingEnabled (options : option RequestOptions) : bool :=
  match options with
  | Some o =>
      match selfHealing o with
      | Some m =>
          match m with
          | SelfHealingMode.ENABLED | SelfHealingMode.REQUEST_ONLY => true
          | SelfHealingMode.DISABLED => false
          end
      | None => true
      end
  | None => true
  end.

(** [options?.retries !== undefined ? options.retries : 8] *)
Definition retryBudget (options : option RequestOptions) : nat :=
  match options with
  | Some o => match retries o with Some r => r | None => 8 end
  | None => 8
  end.

(** The local variables of [executeApiCall] that the retry loop assigns. *)
Record Locals : Type := mkLocals {
  endpoint : option ApiConfig;
  messages : list Message;
  response : option Response;
  retryCount : nat;
  lastError : option string;
  success : bool
}.

Definition set_endpoint (v : option ApiConfig) (l : Locals) : Locals :=
  mkLocals v (messages l) (response l) (retryCount l) (lastError l) (success l).
Definition set_messages (v : list Message) (l : Locals) : Locals :=
  mkLocals (endpoint l) v (response l) (retryCount l) (lastError l) (success l).
Definition set_response (v : option Response) (l : Locals) : Locals :=
  mkLocals (endpoint l) (messages l) v (retryCount l) (lastError l) (success l).
Definition set_retryCount (v : nat) (l : Locals) : Locals :=
  mkLocals (endpoint l) (messages l) (response l) v (lastError l) (success l).
Definition set_lastError (v : option string) (l : Locals) : Locals :=
  mkLocals (endpoint l) (messages l) (response l) (retryCount l) v (success l).
Definition set_success (v : bool) (l : Locals) : Locals :=
  mkLocals (endpoint l) (messages l) (response l) (retryCount l) (lastError l) v.

(** [messages.push(m)] *)
Definition push (m : Message) (l : Locals) : Locals :=
  set_messages (messages l ++ [m]) l.

(** A template literal prints [null] for a [lastError] never assigned. *)
Definition show_lastError (o : option string) : string :=
  match o with Some s => s | None => "null" end.

(** [endpoint?.urlHost] inside a template literal. *)
Definition show_urlHost (ep : option ApiConfig) : string :=
  match ep with Some c => urlHost c | None => "undefined" end.

Section WithCollaborators.
Context {W : Type} (C : Collaborators W).

(** Code with local variables [L] runs on the world and the locals. *)
Definition Run (L A : Type) : Type := M Event (W * L) A.

(** An awaited call to a collaborator: the world moves on, the call and its
    completion are logged, and a rejection is thrown. *)
Definition call {L R} (f : W -> Completion R * W)
  (ev : Completion R -> Event) : Run L R :=
  fun s =>
    match f (fst s) with
    | (Ok r, w') => (Returned r, (w', snd s), [ev (Ok r)])
    | (Raise e, w') => (Threw e, (w', snd s), [ev (Raise e)])
    end.

(** Reading a value off the world (clock, random source). *)
Definition ask {L R} (f : W -> R * W) : Run L R :=
  fun s => match f (fst s) with (r, w') => (Returned r, (w', snd s), []) end.

Definition local {L A} (f : L -> A) : Run L A := gets (fun s => f (snd s)).
Definition assign {L} (f : L -> L) : Run L unit :=
  modify (fun s => (fst s, f (snd s))).

(** [logMessage(level, msg, metadata)] *)
Definition logMessage {L} (level msg : string) : Run L unit :=
  emit (EvLog level msg).

(** Running a function body with fresh locals [l0]. *)
Definition with_locals {L A} (l0 : L) (m : Run L A) : M Event W A :=
  fun w => match m (w, l0) with (o, s, evs) => (o, fst s, evs) end.

(** Calling a function from code that has locals of its own. *)
Definition invoke {L A} (m : M Event W A) : Run L A :=
  fun s => match m (fst s) with (o, w', evs) => (o, (w', snd s), evs) end.

Section ExecuteApiCall.
Variables (payload : Json) (credentials : Credentials)
          (options : option RequestOptions) (metadata : Metadata)
          (integration : option Integration).

(** The statements before the loop that compute [documentationString]. *)
Definition documentationFor (isSelfHealing : bool) : Run Locals string :=
  let present := match integration with Some _ => true | None => false end in
  if negb present && isSelfHealing then
    logMessage "debug" "Self-healing enabled but no integration provided; skipping documentation-based healing." ;;
    ret ""
  else if present &&
          match integration with
          | Some i => documentationPending i
          | None => false
          end then
    logMessage "warn"
      ("Documentation for integration " ++
       match integration with Some i => integrationId i | None => "" end ++
       " is still being fetched. Proceeding without documentation.") ;;
    ret ""
  else
    match integration with
    | None => throw (TypeError_undefined "documentation")
    | Some i =>
        match documentation i with
        | Some d => if truthy_string d then ret d else ret ""
        | None => ret ""
        end
    end.

Section Loop.
Variables (isSelfHealing : bool) (documentationString : string).

(** The [try] block of the loop body, up to its [break]. *)
Definition attemptTry : Run Locals unit :=
  rc <- local retryCount ;;
  when ((0 <? rc) && isSelfHealing) (
    ep <- local endpoint ;;
    logMessage "info"
      ("Generating API config for " ++ show_urlHost ep ++
       (if 0 <? rc then " (" ++ string_of_nat rc ++ ")" else "")) ;;
    msgs <- local messages ;;
    computedApiCallConfig <-
      call (generateApiConfig C ep documentationString payload credentials rc msgs)
           (EvGenerateApiConfig rc ep documentationString msgs) ;;
    assign (set_endpoint (Some (config computedApiCallConfig))) ;;
    assign (set_messages (newMessages computedApiCallConfig))) ;;
  ep <- local endpoint ;;
  resp <- call (callEndpoint C ep payload credentials options)
               (EvCallEndpoint rc ep) ;;
  assign (set_response (Some resp)) ;;
  if negb (truthy (data resp)) then
    throw (Error "No data returned from API. This could be due to a configuration error.")
  else if (0 <? rc) && isSelfHealing then
    match ep with
    | None => throw (TypeError_undefined "responseSchema")
    | Some cfg =>
        result <- call (evaluateResponse C (data resp) (responseSchema cfg)
                          (instruction cfg))
                       (EvEvaluateResponse rc (data resp)) ;;
        assign (set_success (evalSuccess result)) ;;
        if negb (evalSuccess result) then
          throw (Error (shortReason result ++ " " ++
                        slice0 1000 (JSON_stringify C (data resp))))
        else ret tt
    end
  else assign (set_success true).

(** [error?.message || JSON.stringify(error || {})] *)
Definition rawErrorStringOf (error : JsError) : string :=
  if truthy_string (message error) then message error else json error.

Definition fixMessage (rawErrorString : string) : Message :=
  {| role := "user";
     content := "There was an error with the configuration, please fix: " ++
                slice0 2000 rawErrorString |}.

Definition guideMessage : Message :=
  {| role := "user";
     content := "Please find the JSONata guide here: " ++ PROMPT_MAPPING C |}.

(** The two log lines of the [catch] block. *)
Definition initialFailureLog (shown : string) : string :=
  "The initial configuration is not valid. Generating a new configuration. If you are creating a new configuration, this is expected." ++ nl ++ shown.

Definition failedCallLog (shown : string) : string :=
  "API call failed. " ++ shown.

(** The [catch] block of the loop body. *)
Definition attemptCatch (error : JsError) : Run Locals unit :=
  let rawErrorString := rawErrorStringOf error in
  assign (set_lastError
            (Some (slice0 1000 (maskCredentials C rawErrorString credentials)))) ;;
  shown <- local (fun l => show_lastError (lastError l)) ;;
  rc <- local retryCount ;;
  if rc =? 0 then
    logMessage "info" (initialFailureLog shown)
  else if 0 <? rc then
    assign (push (fixMessage rawErrorString)) ;;
    msgs <- local messages ;;
    when (startsWith "JSONata" rawErrorString &&
          negb (existsb
                  (fun m => startsWith "Please find the JSONata guide here:"
                              (content m)) msgs))
         (assign (push guideMessage)) ;;
    logMessage "warn" (failedCallLog shown)
  else ret tt.

(** One pass of the loop body; [true] when the pass ended in [break]. *)
Definition attempt : Run Locals bool :=
  try_catch (attemptTry ;; ret true)
            (fun error => attemptCatch error ;; ret false).

(** [do { attempt; retryCount++ } while (retryCount < retries)], with a
    bound [fuel] on the number of passes. *)
Fixpoint doWhile (fuel : nat) : Run Locals unit :=
  match fuel with
  | O => out_of_fuel
  | S fuel' =>
      broke <- attempt ;;
      if broke : bool then ret tt
      else
        assign (fun l => set_retryCount (S (retryCount l)) l) ;;
        rc <- local retryCount ;;
        if rc <? retryBudget options then doWhile fuel' else ret tt
  end.

End Loop.

Definition failureText (attempts : nat) (lastErr : option string) : string :=
  "API call failed after " ++ string_of_nat attempts ++
  " retries. Last error: " ++ show_lastError lastErr.

(** [executeApiCall] *)
Definition executeApiCall (endpoint0 : option ApiConfig)
  : M Event W ApiCallResult :=
  with_locals
    {| endpoint := endpoint0; messages := []; response := None;
       retryCount := 0; lastError := None; success := false |}
    (let isSelfHealing := isSelfHealingEnabled options in
     documentationString <- documentationFor isSelfHealing ;;
     doWhile isSelfHealing documentationString
             (Nat.max 1 (retryBudget options)) ;;
     ok <- local success ;;
     if negb ok then
       rc <- local retryCount ;;
       le <- local lastError ;;
       ep <- local endpoint ;;
       when (telemetryClient C)
            (emit (EvCaptureException (failureText rc le) (orgId metadata)
                     ep rc)) ;;
       throw (Error (failureText rc le))
     else
       resp <- local response ;;
       ep <- local endpoint ;;
       ret {| resultData := match resp with
                            | Some r => data r
                            | None => JUndefined
                            end;
              resultEndpoint := ep |}).

End ExecuteApiCall.

(** ** The call orchestrator *)

Record Context : Type := mkContext { contextOrgId : option string }.

(** What [callResolver] returns: the run record, and on success the
    transformed data next to it. *)
Record CallResult : Type := mkCallResult {
  run : RunResult;
  returnedData : option Json
}.

Definition readCacheOf (options : option RequestOptions) : bool :=
  match options with
  | Some o =>
      match cacheMode o with
      | Some m =>
          match m with
          | CacheMode.ENABLED | CacheMode.READONLY => true
          | _ => false
          end
      | None => true
      end
  | None => true
  end.

Definition writeCacheOf (options : option RequestOptions) : bool :=
  match options with
  | Some o =>
      match cacheMode o with
      | Some m =>
          match m with
          | CacheMode.ENABLED | CacheMode.WRITEONLY => true
          | _ => false
          end
      | None => false
      end
  | None => false
  end.

(** [options?.webhookUrl], when truthy. *)
Definition webhookOf (options : option RequestOptions) : option string :=
  match options with
  | Some o =>
      match webhookUrl o with
      | Some u => if truthy_string u then Some u else None
      | None => None
      end
  | None => None
  end.

(** [(endpoint?.responseSchema)?._def?.typeName === "ZodObject"] *)
Definition isZodSchema (ep : option ApiConfig) : bool :=
  match ep with
  | Some c =>
      match opt_get "typeName" (opt_get "_def" (responseSchema c)) with
      | JStr s => String.eqb s "ZodObject"
      | _ => false
      end
  | None => false
  end.

(** [{ ...endpoint, ...transformResult?.config }] *)
Definition spreadConfig (ep : option ApiConfig) (tc : option TransformConfig)
  : ApiConfig :=
  let base :=
    match ep with
    | Some c => c
    | None => mkApiConfig "" "" "" "" JUndefined None
    end in
  match tc with
  | Some t =>
      mkApiConfig (tcId t) (urlHost base) (urlPath base) (tcInstruction t)
                  (tcResponseSchema t) (tcResponseMapping t)
  | None => base
  end.

Section CallResolver.
Variables (input : ApiInputRequest) (payload : Json)
          (credentials : Credentials) (options : option RequestOptions)
          (context : Context).

(** The [try] block of [callResolver]; its local is [endpoint]. *)
Definition callResolverTry (callId : string) (started : nat)
  : Run (option ApiConfig) CallResult :=
  let metadata := {| runId := Some callId; orgId := contextOrgId context |} in
  (if truthy_opt (inputId input) then
     ep <- call (getApiConfig C
                   (match inputId input with Some i => i | None => "" end)
                   (contextOrgId context))
                (EvGetApiConfig
                   (match inputId input with Some i => i | None => "" end)) ;;
     assign (fun _ => ep)
   else assign (fun _ => endpointInput input)) ;;
  ep <- local (fun l => l) ;;
  if isZodSchema ep then
    throw (Error "zod is not supported for response schema. Please use json schema instead. you can use the zod-to-json-schema package to convert zod to json schema.")
  else
    callResult <- invoke (executeApiCall payload credentials options metadata
                            None ep) ;;
    assign (fun _ => resultEndpoint callResult) ;;
    let data := resultData callResult in
    ep <- local (fun l => l) ;;
    let args := {| fromCache := readCacheOf options; inputEndpoint := ep;
                   inputData := data; transformMetadata := metadata;
                   transformOptions := options |} in
    transformResult <- call (executeTransform C args) (EvExecuteTransform args) ;;
    let config := spreadConfig ep (transformConfig transformResult) in
    when (writeCacheOf options)
         (if truthy_opt (inputId input) then
            emit (EvUpsertApiConfig
                    (match inputId input with Some i => i | None => "" end)
                    config)
          else
            match ep with
            | Some c => emit (EvUpsertApiConfig (id c) config)
            | None => throw (TypeError_undefined "id")
            end) ;;
    match webhookOf options with
    | Some url =>
        emit (EvNotifyWebhook url callId true
                (Some (transformData transformResult)) None)
    | None => ret tt
    end ;;
    completed <- ask (newDate C) ;;
    let result := {| runResultId := callId; runSuccess := true;
                     runError := None; runConfig := Some config;
                     startedAt := started; completedAt := completed |} in
    emit (EvCreateRun result) ;;
    ret {| run := result;
           returnedData := Some (transformData transformResult) |}.

(** The [catch] block of [callResolver]. *)
Definition callResolverCatch (callId : string) (started : nat)
  (error : JsError) : Run (option ApiConfig) CallResult :=
  let maskedError := maskCredentials C (message error) credentials in
  match webhookOf options with
  | Some url =>
      emit (EvNotifyWebhook url callId false None (Some (message error)))
  | None => ret tt
  end ;;
  ep <- local (fun l => l) ;;
  completed <- ask (newDate C) ;;
  let result := {| runResultId := callId; runSuccess := false;
                   runError := Some maskedError; runConfig := ep;
                   startedAt := started; completedAt := completed |} in
  emit (EvCreateRun result) ;;
  ret {| run := result; returnedData := None |}.

(** [callResolver] *)
Definition callResolver : M Event W CallResult :=
  with_locals None
    (started <- ask (newDate C) ;;
     callId <- ask (randomUUID C) ;;
     try_catch (callResolverTry callId started)
               (callResolverCatch callId started)).

End CallResolver.
End WithCollaborators.

(** ** Reading the log of a run *)

Definition isTransportCall (ev : Event) : bool :=
  match ev with EvCallEndpoint _ _ _ => true | _ => false end.

(** The number of calls made to the transport caller. *)
Definition transportCalls (evs : list Event) : nat :=
  length (filter isTransportCall evs).

(** The attempt during which a collaborator of the retry loop was called. *)
Definition attemptOf (ev : Event) : option nat :=
  match ev with
  | EvGenerateApiConfig k _ _ _ _ => Some k
  | EvCallEndpoint k _ _ => Some k
  | EvEvaluateResponse k _ _ => Some k
  | _ => None
  end.

(** The response validator was invoked during attempt [k]. *)
Definition evaluatedAt (k : nat) (evs : list Event) : bool :=
  existsb (fun ev => match ev with
                     | EvEvaluateResponse k' _ _ => k' =? k
                     | _ => false
                     end) evs.

(** The config synthesizer was invoked during attempt [k]. *)
Definition generatedAt (k : nat) (evs : list Event) : bool :=
  existsb (fun ev => match ev with
                     | EvGenerateApiConfig k' _ _ _ _ => k' =? k
                     | _ => false
                     end) evs.

(** The transport call of attempt [k] returned a non-empty response body. *)
Definition transportDataAt (k : nat) (evs : list Event) : bool :=
  existsb (fun ev => match ev with
                     | EvCallEndpoint k' _ (Ok resp) =>
                         (k' =? k) && truthy (data resp)
                     | _ => false
                     end) evs.

(** A transport call was made during attempt [k]. *)
Definition transportAt (k : nat) (evs : list Event) : bool :=
  existsb (fun ev => match ev with
                     | EvCallEndpoint k' _ _ => k' =? k
                     | _ => false
                     end) evs.


(** The documentation strings handed to the config synthesizer. *)
Definition documentationSeen (evs : list Event) : list string :=
  flat_map (fun ev => match ev with
                      | EvGenerateApiConfig _ _ doc _ _ => [doc]
                      | _ => []
                      end) evs.

End Executor.

(* ================================================================== *)
(** * The execution strategies *)
(* ================================================================== *)

Module Strategies.

(** The integration manager is only handed on to the executor. *)
Definition IntegrationManager : Type := string.

(** [ExecutionStep]: an object owned by the caller. *)
Record ExecutionStep : Type := mkExecutionStep {
  stepId : string;
  apiConfig : ApiConfig;
  executionMode : string;
  loopSelector : option string;
  loopMaxIters : option nat;
  stepResponseMapping : option string
}.

Definition set_loopSelector (v : option string) (st : ExecutionStep)
  : ExecutionStep :=
  mkExecutionStep (stepId st) (apiConfig st) (executionMode st) v
                  (loopMaxIters st) (stepResponseMapping st).

Definition set_apiConfig (v : ApiConfig) (st : ExecutionStep)
  : ExecutionStep :=
  mkExecutionStep (stepId st) v (executionMode st) (loopSelector st)
                  (loopMaxIters st) (stepResponseMapping st).

(** Two states of a step that agree on every field but [apiConfig] and
    [loopSelector]. *)
Definition sameOtherFields (a b : ExecutionStep) : Prop :=
  stepId b = stepId a /\ executionMode b = executionMode a /\
  loopMaxIters b = loopMaxIters a /\
  stepResponseMapping b = stepResponseMapping a.

(** What ends up in [result.error]: a text, or (from [error.message ||
    error] when the message is empty) the caught object itself. *)
Inductive ErrorValue : Type :=
| ErrText (text : string)
| ErrObject (e : JsError).

(** [WorkflowStepResult]; [rawData] and [transformedData] are absent until
    assigned. *)
Record WorkflowStepResult : Type := mkWorkflowStepResult {
  resultStepId : string;
  success : bool;
  rawData : option Json;
  transformedData : option Json;
  config : ApiConfig;
  error : option ErrorValue
}.

(** The argument object of the executor. *)
Record ExecuteArgs : Type := mkExecuteArgs {
  argEndpoint : ApiConfig;
  argPayload : Json;
  argCredentials : Credentials;
  argOptions : RequestOptions;
  argMetadata : Metadata;
  argIntegrationManager : option IntegrationManager
}.

(** [{ data, endpoint }] as returned by the executor. *)
Record ApiResponse : Type := mkApiResponse {
  responseData : Json;
  responseEndpoint : ApiConfig
}.

(** [{ success, data }] as returned by [transformAndValidateSchema]. *)
Record SelectorResult : Type := mkSelectorResult {
  selectorSuccess : bool;
  selectorData : Json
}.

Inductive Event : Type :=
| EvLog (level msg : string)
| EvExecuteApiCall (args : ExecuteArgs) (r : Completion ApiResponse)
| EvApplyJsonata (input : Json) (expression : option string)
    (r : Completion Json)
| EvTransformAndValidateSchema (input : Json) (expression : string)
    (r : Completion SelectorResult)
| EvGenerateTransformCode (schema input : Json) (instruction : string)
    (r : Completion (option string)).

(** The collaborators of the strategies, over a world [W].  The executor is
    the [executeApiCall] of utils/api.js, which takes one argument object. *)
Record Collaborators (W : Type) : Type := mkCollaborators {
  executeApiCall : ExecuteArgs -> W -> Completion ApiResponse * W;
  applyJsonata : Json -> option string -> W -> Completion Json * W;
  transformAndValidateSchema :
    Json -> string -> W -> Completion SelectorResult * W;
  (** yields [transformResult?.mappingCode], absent when there is none *)
  generateTransformCode :
    Json -> Json -> string -> Metadata -> W -> Completion (option string) * W;
  flattenObject : Json -> string -> list (string * Json);
  JSON_stringify : Json -> string;
  (** [server_defaults.DEFAULT_LOOP_MAX_ITERS] *)
  DEFAULT_LOOP_MAX_ITERS : nat;
  (** identity of two config objects, [a === b] *)
  sameObject : ApiConfig -> ApiConfig -> bool
}.

(** ** Texts *)

Definition completionLog (stepName : string) (ok : bool) : string :=
  "'" ++ stepName ++ "' " ++ (if ok then "Complete" else "Failed").

Definition directFailureText (stepName : string) (e : JsError) : string :=
  "Error in direct execution for step " ++ stepName ++ ": " ++
  String_of_error e.

Definition iterationLog (i total : nat) : string :=
  "Executing loop iteration " ++ string_of_nat i ++ "/" ++
  string_of_nat total.

Definition updatedLog (i : nat) : string :=
  "Loop iteration " ++ string_of_nat i ++ " updated configuration".

Definition noInputLog (stepName : string) : string :=
  "No input data found for '" ++ stepName ++
  "' - regenerating data selector".

(** The rendering of the failing item: [JSON.stringify(item).slice(0, 50)]. *)
Definition itemRendering (stringify : Json -> string) (item : Json) : string :=
  slice0 50 (stringify item).

Definition itemFailureText (stringify : Json -> string) (i total : nat)
  (item : Json) (callError : JsError) : string :=
  "Error processing item " ++ string_of_nat i ++ "/" ++ string_of_nat total ++
  " '" ++ itemRendering stringify item ++ "...': " ++
  String_of_error callError.

(** One line of the payload summary: [- key: type]. *)
Definition describeKey (kv : string * Json) : string :=
  "- " ++ fst kv ++ ": " ++
  match snd kv with
  | JArr items => "array[" ++ string_of_nat (List.length items) ++ "]"
  | v => typeof v
  end.

Definition selectorInstruction (stepName stepInstruction : string)
  (keys : list (string * Json)) : string :=
  "Create a JavaScript function that extracts the array of items to loop over for step: "
  ++ stepName ++ ". " ++ nl ++
  "          " ++ nl ++
  "Step instruction: " ++ stepInstruction ++ nl ++
  nl ++
  "The function should:" ++ nl ++
  "1. Extract an array of ACTUAL DATA ITEMS (not metadata or property definitions)" ++ nl ++
  "2. Apply any filtering based on the step's instruction" ++ nl ++
  nl ++
  "Available data in sourceData:" ++ nl ++
  join nl (map describeKey keys) ++ nl ++
  nl ++
  "The function should return an array of items that this step will iterate over.".

Definition arraySchema : Json :=
  JObj [("type", JStr "array");
        ("description", JStr "Array of items to iterate over")].

(** [Array.isArray(r.data) ? r.data : []] *)
Definition arrayOrEmpty (j : Json) : list Json :=
  match j with JArr items => items | _ => [] end.

(** The items an extraction yields: those of a successful result that is an
    array, none otherwise. *)
Definition itemsOf (r : SelectorResult) : list Json :=
  if selectorSuccess r then arrayOrEmpty (selectorData r) else [].

(** [error.message || error] *)
Definition messageOrError (e : JsError) : ErrorValue :=
  if truthy_string (message e) then ErrText (message e) else ErrObject e.

(** [{ ...options, testMode: false }] *)
Definition withoutTestMode (o : RequestOptions) : RequestOptions :=
  mkRequestOptions (selfHealing o) (cacheMode o) (retries o) (webhookUrl o)
                   (Some false).

Definition orUndefined (o : option Json) : Json :=
  match o with Some j => j | None => JUndefined end.

(** [{ stepId: step.id, success: false, config: step.apiConfig }] *)
Definition freshResult (step : ExecutionStep) : WorkflowStepResult :=
  {| resultStepId := stepId step; success := false;
     rawData := None; transformedData := None;
     config := apiConfig step; error := None |}.

Section WithCollaborators.
Context {W : Type} (C : Collaborators W).

(** The strategy body runs on the world, the caller's step object and the
    [result] object it builds. *)
Definition Frame : Type := (W * ExecutionStep * WorkflowStepResult)%type.
Definition Run (A : Type) : Type := M Event Frame A.

Definition worldOf (s : Frame) : W := fst (fst s).
Definition stepOf (s : Frame) : ExecutionStep := snd (fst s).
Definition resultOf (s : Frame) : WorkflowStepResult := snd s.

(** An awaited call to a collaborator. *)
Definition call {R} (f : W -> Completion R * W) (ev : Completion R -> Event)
  : Run R :=
  fun s =>
    match f (worldOf s) with
    | (Ok r, w') => (Returned r, (w', stepOf s, resultOf s), [ev (Ok r)])
    | (Raise e, w') => (Threw e, (w', stepOf s, resultOf s), [ev (Raise e)])
    end.

Definition readStep : Run ExecutionStep := gets stepOf.
Definition writeStep (f : ExecutionStep -> ExecutionStep) : Run unit :=
  modify (fun s => (worldOf s, f (stepOf s), resultOf s)).
Definition readResult : Run WorkflowStepResult := gets resultOf.
Definition writeResult (f : WorkflowStepResult -> WorkflowStepResult)
  : Run unit :=
  modify (fun s => (worldOf s, stepOf s, f (resultOf s))).

Definition logMessage (level msg : string) : Run unit := emit (EvLog level msg).

(** Running a strategy on the caller's store, with a fresh [result]. *)
Definition withResult {A} (m : Run A) : M Event (W * ExecutionStep) A :=
  fun s =>
    match m (fst s, snd s, freshResult (snd s)) with
    | (o, s', evs) => (o, (worldOf s', stepOf s'), evs)
    end.

Section Execute.
Variables (payload : Json) (credentials : Credentials)
          (options : RequestOptions) (metadata : Metadata)
          (integrationManager : option IntegrationManager).

(** ** Direct strategy *)

Definition directTry : Run unit :=
  step <- readStep ;;
  apiResponse <-
    call (executeApiCall C
            {| argEndpoint := apiConfig step; argPayload := payload;
               argCredentials := credentials; argOptions := options;
               argMetadata := metadata;
               argIntegrationManager := integrationManager |})
         (EvExecuteApiCall
            {| argEndpoint := apiConfig step; argPayload := payload;
               argCredentials := credentials; argOptions := options;
               argMetadata := metadata;
               argIntegrationManager := integrationManager |}) ;;
  transformed <-
    call (applyJsonata C (responseData apiResponse) (stepResponseMapping step))
         (EvApplyJsonata (responseData apiResponse) (stepResponseMapping step)) ;;
  writeResult (fun r =>
    mkWorkflowStepResult (resultStepId r) true
      (Some (responseData apiResponse)) (Some transformed)
      (responseEndpoint apiResponse) (error r)) ;;
  r <- readResult ;;
  logMessage "info" (completionLog (stepId step) (success r)).

Definition directCatch (e : JsError) : Run unit :=
  step <- readStep ;;
  let errorMessage := directFailureText (stepId step) e in
  writeResult (fun r =>
    mkWorkflowStepResult (resultStepId r) false (rawData r)
      (transformedData r) (config r) (Some (ErrText errorMessage))) ;;
  logMessage "error" errorMessage.

(** [directStrategy.execute] *)
Definition directExecute : M Event (W * ExecutionStep) WorkflowStepResult :=
  withResult (try_catch directTry directCatch ;; readResult).

(** ** Loop strategy *)

(** The payload of one iteration:
    [{ ...payload, ...flattenObject(currentItem, 'currentItem'), currentItem }] *)
Definition loopPayloadOf (currentItem : Json) : Json :=
  JObj (merge_fields
          (merge_fields (spread payload)
                        (flattenObject C currentItem "currentItem"))
          [("currentItem", currentItem)]).

(** [{ currentItem, ...(typeof data === 'object' ? data : { data }) }] *)
Definition rawDataOf (currentItem data : Json) : Json :=
  JObj (merge_fields [("currentItem", currentItem)]
          (if String.eqb (typeof data) "object" then spread data
           else [("data", data)])).

Definition executeArgsOf (ep : ApiConfig) (currentItem : Json) : ExecuteArgs :=
  {| argEndpoint := ep; argPayload := loopPayloadOf currentItem;
     argCredentials := credentials; argOptions := withoutTestMode options;
     argMetadata := metadata; argIntegrationManager := integrationManager |}.

(** [loopItems[i] || ""] *)
Definition currentItemOf (item : Json) : Json :=
  if truthy item then item else JStr "".

(** The inner [try] of one iteration ([i] counts from 0).  The executor's
    result is typed with an [endpoint], so the test
    [if (apiResponse.endpoint)] holds. *)
Definition iterationTry (i : nat) (currentItem : Json)
  (successfulConfig : option ApiConfig) (stepResults : list WorkflowStepResult)
  : Run (option ApiConfig * list WorkflowStepResult) :=
  step <- readStep ;;
  let ep := match successfulConfig with
            | Some c => c
            | None => apiConfig step
            end in
  apiResponse <- call (executeApiCall C (executeArgsOf ep currentItem))
                      (EvExecuteApiCall (executeArgsOf ep currentItem)) ;;
  when (negb (sameObject C (responseEndpoint apiResponse) (apiConfig step)))
       (logMessage "debug" (updatedLog (i + 1))) ;;
  let raw := rawDataOf currentItem (responseData apiResponse) in
  transformed <- call (applyJsonata C raw (stepResponseMapping step))
                      (EvApplyJsonata raw (stepResponseMapping step)) ;;
  writeStep (set_apiConfig (responseEndpoint apiResponse)) ;;
  ret (Some (responseEndpoint apiResponse),
       stepResults ++
       [{| resultStepId := stepId step; success := true;
           rawData := Some raw; transformedData := Some transformed;
           config := responseEndpoint apiResponse; error := None |}]).

(** The inner [catch] of one iteration. *)
Definition iterationCatch {A} (i total : nat) (currentItem : Json)
  (callError : JsError) : Run A :=
  let errorMessage :=
    itemFailureText (JSON_stringify C) (i + 1) total currentItem callError in
  logMessage "error" errorMessage ;;
  throw (Error errorMessage).

(** One pass of the [for] loop body. *)
Definition iteration (i total : nat) (item : Json)
  (successfulConfig : option ApiConfig) (stepResults : list WorkflowStepResult)
  : Run (option ApiConfig * list WorkflowStepResult) :=
  let currentItem := currentItemOf item in
  logMessage "debug" (iterationLog (i + 1) total) ;;
  try_catch (iterationTry i currentItem successfulConfig stepResults)
            (iterationCatch i total currentItem).

(** [for (let i = ...; i < loopItems.length; i++)] over the items from
    index [i] on. *)
Fixpoint iterate (i total : nat) (items : list Json)
  (successfulConfig : option ApiConfig) (stepResults : list WorkflowStepResult)
  : Run (list WorkflowStepResult) :=
  match items with
  | [] => ret stepResults
  | item :: rest =>
      r <- iteration i total item successfulConfig stepResults ;;
      iterate (S i) total rest (fst r) (snd r)
  end.

(** Step 1: the selector, set to ["$"] for an array payload. *)
Definition resolveSelector : Run string :=
  step <- readStep ;;
  when (negb (truthy_opt (loopSelector step)))
       (if isArray payload then writeStep (set_loopSelector (Some "$"))
        else throw (Error "loopSelector is required for LOOP execution mode")) ;;
  step <- readStep ;;
  ret (match loopSelector step with Some sel => sel | None => "" end).

(** [Object.keys(payload)] with the values read back. *)
Definition payloadKeys : Run (list (string * Json)) :=
  if nullish payload then throw TypeError_keys else ret (spread payload).

(** Step 3: regenerate the selector and extract once more. *)
Definition regenerate (loopItems : list Json) : Run (list Json) :=
  step <- readStep ;;
  logMessage "error" (noInputLog (stepId step)) ;;
  keys <- payloadKeys ;;
  let instruction_ :=
    selectorInstruction (stepId step) (instruction (apiConfig step)) keys in
  mappingCode <- call (generateTransformCode C arraySchema payload
                         instruction_ metadata)
                      (EvGenerateTransformCode arraySchema payload instruction_) ;;
  if truthy_opt mappingCode then
    writeStep (set_loopSelector mappingCode) ;;
    let sel := match mappingCode with Some c => c | None => "" end in
    retryResult <- call (transformAndValidateSchema C payload sel)
                        (EvTransformAndValidateSchema payload sel) ;;
    if selectorSuccess retryResult
    then ret (arrayOrEmpty (selectorData retryResult))
    else ret loopItems
  else ret loopItems.

(** Steps 1 to 4: the items to iterate over. *)
Definition extractItems : Run (list Json) :=
  sel <- resolveSelector ;;
  loopSelectorResult <- call (transformAndValidateSchema C payload sel)
                             (EvTransformAndValidateSchema payload sel) ;;
  let loopItems := itemsOf loopSelectorResult in
  loopItems <- (if List.length loopItems =? 0 then regenerate loopItems
                else ret loopItems) ;;
  step <- readStep ;;
  let bound := match loopMaxIters step with
               | Some (S n) => S n
               | _ => DEFAULT_LOOP_MAX_ITERS C
               end in
  ret (firstn bound loopItems).

(** The outer [try] block. *)
Definition loopTry : Run unit :=
  loopItems <- extractItems ;;
  stepResults <- iterate 0 (List.length loopItems) loopItems None [] ;;
  step <- readStep ;;
  writeResult (fun r =>
    mkWorkflowStepResult (resultStepId r)
      (forallb success stepResults)
      (Some (JArr (map (fun r => orUndefined (rawData r)) stepResults)))
      (Some (JArr (map (fun r => orUndefined (transformedData r)) stepResults)))
      (apiConfig step)
      (Some (ErrText
               (join nl
                  (map (fun _ => "[object Object]")
                     (filter (fun s => match error s with
                                       | Some (ErrText t) => truthy_string t
                                       | Some (ErrObject _) => true
                                       | None => false
                                       end) stepResults)))))).

(** The outer [catch] block. *)
Definition loopCatch (e : JsError) : Run unit :=
  step <- readStep ;;
  writeResult (fun r =>
    mkWorkflowStepResult (resultStepId r) false (rawData r)
      (transformedData r) (apiConfig step) (Some (messageOrError e))).

(** [loopStrategy.execute] *)
Definition loopExecute : M Event (W * ExecutionStep) WorkflowStepResult :=
  withResult
    (try_catch loopTry loopCatch ;;
     step <- readStep ;;
     r <- readResult ;;
     logMessage "info" (completionLog (stepId step) (success r)) ;;
     readResult).

End Execute.

(** [ExecutionStrategy] *)
Record ExecutionStrategy : Type := mkExecutionStrategy {
  execute :
    Json -> Credentials -> RequestOptions -> Metadata ->
    option IntegrationManager ->
    M Event (W * ExecutionStep) WorkflowStepResult
}.

Definition directStrategy : ExecutionStrategy :=
  {| execute := directExecute |}.

Definition loopStrategy : ExecutionStrategy :=
  {| execute := loopExecute |}.

(** [selectStrategy] *)
Definition selectStrategy (step : ExecutionStep) : ExecutionStrategy :=
  if String.eqb (executionMode step) "LOOP" then loopStrategy
  else directStrategy.

End WithCollaborators.

(** ** Reading the log of a run *)

Definition isExecutorCall (ev : Event) : bool :=
  match ev with EvExecuteApiCall _ _ => true | _ => false end.

Definition isExecutorFailure (ev : Event) : bool :=
  match ev with EvExecuteApiCall _ (Raise _) => true | _ => false end.

Definition isExtraction (ev : Event) : bool :=
  match ev with EvTransformAndValidateSchema _ _ _ => true | _ => false end.

Definition isRegeneration (ev : Event) : bool :=
  match ev with EvGenerateTransformCode _ _ _ _ => true | _ => false end.

(** Calls made to the executor, to the extraction facade and to the
    selector synthesizer. *)
Definition executorCalls (evs : list Event) : nat :=
  List.length (filter isExecutorCall evs).
Definition extractionCalls (evs : list Event) : nat :=
  List.length (filter isExtraction evs).
Definition regenerationCalls (evs : list Event) : nat :=
  List.length (filter isRegeneration evs).

(** The completions of the extractions, in order. *)
Definition extractions (evs : list Event) : list (Completion SelectorResult) :=
  flat_map (fun ev => match ev with
                      | EvTransformAndValidateSchema _ _ r => [r]
                      | _ => []
                      end) evs.

(** A call to the executor was rejected. *)
Definition executorFailed (evs : list Event) : bool :=
  existsb isExecutorFailure evs.

(** A call to some collaborator was rejected. *)
Definition isRejection (ev : Event) : bool :=
  match ev with
  | EvExecuteApiCall _ (Raise _) => true
  | EvApplyJsonata _ _ (Raise _) => true
  | EvTransformAndValidateSchema _ _ (Raise _) => true
  | EvGenerateTransformCode _ _ _ (Raise _) => true
  | _ => false
  end.

Definition rejected (evs : list Event) : bool := existsb isRejection evs.

(** The completions of the selector regenerations, in order. *)
Definition regenerations (evs : list Event)
  : list (Completion (option string)) :=
  flat_map (fun ev => match ev with
                      | EvGenerateTransformCode _ _ _ r => [r]
                      | _ => []
                      end) evs.

End Strategies.

(* ================================================================== *)
(** * Credential masking and concrete collaborators *)
(* ================================================================== *)

Module SpecModel.

(** [s.replaceAll(v, r)] for a non-empty [v], scanning left to right;
    [skip] counts the characters of a match still to be dropped. *)
Fixpoint replaceFrom (skip : nat) (v r s : string) : string :=
  match s with
  | EmptyString => EmptyString
  | String c s' =>
      match skip with
      | S k => replaceFrom k v r s'
      | O =>
          if prefix v s then r ++ replaceFrom (String.length v - 1) v r s'
          else String c (replaceFrom 0 v r s')
      end
  end.

(** Modelled from the spec: [maskCredentials] of utils/tools.js, which is
    not among the sources.  The glossary defines a masked error as "an error
    string with all known credential values replaced"; here every occurrence
    of every non-empty credential value is replaced by a placeholder that
    names the credential, and a missing credentials object leaves the text
    as it is. *)
Definition maskCredentials (text : string) (credentials : Credentials)
  : string :=
  match credentials with
  | None => text
  | Some entries =>
      fold_left
        (fun masked kv =>
           if truthy_string (snd kv)
           then replaceFrom 0 (snd kv) ("{masked_" ++ fst kv ++ "}") masked
           else masked)
        entries text
  end.

End SpecModel.

(* ================================================================== *)
(** * Facts about the monad and about strings *)
(* ================================================================== *)


Unset Implicit Arguments.

(* ================================================================== *)
(** * What the runs of the executor are measured against *)
(* ================================================================== *)

Module ExecutorSpec.
Import Executor.

Section Spec.
Context {W : Type} (C : Collaborators W).
Variables (credentials : Credentials) (options : option RequestOptions)
          (isSelfHealing : bool).

(** The masked error of a caught [error]: credential values replaced, then
    the first 1000 characters. *)
Definition maskedError (error : JsError) : string :=
  slice0 1000 (maskCredentials C (rawErrorStringOf error) credentials).

(** The condition under which an attempt regenerates and validates. *)
Definition gate (k : nat) : bool := (0 <? k) && isSelfHealing.

(** One pass of the loop body, from locals [l] to [l'], ending in [break]
    when [b] holds, with log [evs]. *)
Record AttemptFacts (documentationString : string) (l l' : Locals)
  (b : bool) (evs : list Event) : Prop := {
  af_retryCount : retryCount l' = retryCount l;
  af_calls : transportCalls evs <= 1;
  af_break : b = true -> success l' = true;
  af_fail : b = false ->
            (success l = false -> success l' = false) /\
            exists error, lastError l' = Some (maskedError error);
  af_index : Forall (fun ev => forall k, attemptOf ev = Some k ->
                                         k = retryCount l) evs;
  af_generate : forall k, generatedAt k evs = true -> gate k = true;
  af_documentation : Forall (fun d => d = documentationString)
                            (documentationSeen evs);
  af_first : retryCount l = 0 ->
             exists r rest, evs = EvCallEndpoint 0 (endpoint l) r :: rest /\
                            transportAt 0 rest = false;
  af_evaluate : forall k, evaluatedAt k evs = gate k && transportDataAt k evs
}.

(** The whole loop, from locals [l] to [l']. *)
Record RetryFacts (documentationString : string) (l l' : Locals)
  (evs : list Event) : Prop := {
  lf_calls : transportCalls evs + retryCount l
             <= Nat.max (retryCount l + 1) (retryBudget options);
  lf_outcome : success l = false ->
               success l' = true \/
               (success l' = false /\
                retryCount l' = Nat.max (retryCount l + 1)
                                        (retryBudget options) /\
                exists error, lastError l' = Some (maskedError error));
  lf_index : Forall (fun ev => forall k, attemptOf ev = Some k ->
                                         retryCount l <= k) evs;
  lf_generate : forall k, generatedAt k evs = true -> gate k = true;
  lf_documentation : Forall (fun d => d = documentationString)
                            (documentationSeen evs);
  lf_first : retryCount l = 0 ->
             exists r rest, evs = EvCallEndpoint 0 (endpoint l) r :: rest /\
                            transportAt 0 rest = false;
  lf_evaluate : forall k, evaluatedAt k evs = gate k && transportDataAt k evs
}.

(** A run of [executeApiCall] that reaches the loop, started on
    [endpoint0]. *)
Record RunFacts (integration : option Integration)
  (endpoint0 : option ApiConfig)
  (o : Outcome ApiCallResult) (evs : list Event) : Prop := {
  rf_calls : transportCalls evs <= Nat.max 1 (retryBudget options);
  rf_outcome :
    (exists res, o = Returned res) \/
    (exists error,
       o = Threw (Error (failureText (Nat.max 1 (retryBudget options))
                           (Some (maskedError error)))));
  rf_generate : forall k, generatedAt k evs = true -> gate k = true;
  rf_documentation : integration = None ->
                     Forall (fun d => d = "") (documentationSeen evs);
  rf_first : exists pre r rest,
      evs = pre ++ EvCallEndpoint 0 endpoint0 r :: rest /\
      transportAt 0 pre = false /\ transportAt 0 rest = false;
  rf_evaluate : forall k, evaluatedAt k evs = gate k && transportDataAt k evs
}.

End Spec.
End ExecutorSpec.


(* ================================================================== *)
(** * What the runs of the strategies are measured against *)
(* ================================================================== *)

Module StrategiesSpec.
Import Strategies.

Section Spec.
Context {W : Type} (C : Collaborators W).
Variables (payload : Json) (metadata : Metadata).

(** What one pass of the loop, or the selection of the items, leaves of the
    frame it started on. *)
Record PassFacts (s s' : Frame (W := W)) (evs : list Event) : Prop := {
  pf_result : snd s' = snd s;
  pf_fields : sameOtherFields (snd (fst s)) (snd (fst s'));
  pf_selector : loopSelector (snd (fst s')) = loopSelector (snd (fst s));
  pf_config :
    apiConfig (snd (fst s')) = apiConfig (snd (fst s)) \/
    exists args resp,
      In (EvExecuteApiCall args (Ok resp)) evs /\
      apiConfig (snd (fst s')) = responseEndpoint resp;
  pf_extractions : extractions evs = [];
  pf_regenerations : regenerations evs = []
}.

(** The three ways one pass of the loop body can go. *)
Inductive IterationRun (i total : nat) (item : Json)
  (sc : option ApiConfig) (results : list WorkflowStepResult)
  (s : Frame (W := W))
  : Outcome (option ApiConfig * list WorkflowStepResult) ->
    Frame (W := W) -> list Event -> Prop :=
| IterationDone args resp w' mid input t r :
    mid = [] \/ mid = [EvLog "debug" (updatedLog (i + 1))] ->
    success r = true -> error r = None ->
    IterationRun i total item sc results s
      (Returned (Some (responseEndpoint resp), results ++ [r]))
      (w', set_apiConfig (responseEndpoint resp) (snd (fst s)), snd s)
      ([EvLog "debug" (iterationLog (i + 1) total);
        EvExecuteApiCall args (Ok resp)] ++ mid ++
       [EvApplyJsonata input (stepResponseMapping (snd (fst s))) (Ok t)])
| IterationExecutorFailed args e w' :
    argPayload args
      = loopPayloadOf C payload (currentItemOf item) ->
    IterationRun i total item sc results s
      (Threw (Error (itemFailureText (JSON_stringify C) (i + 1) total
                       (currentItemOf item) e)))
      (w', snd (fst s), snd s)
      [EvLog "debug" (iterationLog (i + 1) total);
       EvExecuteApiCall args (Raise e);
       EvLog "error" (itemFailureText (JSON_stringify C) (i + 1) total
                        (currentItemOf item) e)]
| IterationMappingFailed args resp w' mid input e :
    mid = [] \/ mid = [EvLog "debug" (updatedLog (i + 1))] ->
    IterationRun i total item sc results s
      (Threw (Error (itemFailureText (JSON_stringify C) (i + 1) total
                       (currentItemOf item) e)))
      (w', snd (fst s), snd s)
      ([EvLog "debug" (iterationLog (i + 1) total);
        EvExecuteApiCall args (Ok resp)] ++ mid ++
       [EvApplyJsonata input (stepResponseMapping (snd (fst s))) (Raise e);
        EvLog "error" (itemFailureText (JSON_stringify C) (i + 1) total
                         (currentItemOf item) e)]).

(** The runs of the [for] loop: every pass is done, or one pass throws and
    the loop is left. *)
Inductive IterateRun (total : nat)
  : nat -> list Json -> option ApiConfig -> list WorkflowStepResult ->
    Frame (W := W) -> Outcome (list WorkflowStepResult) ->
    Frame (W := W) -> list Event -> Prop :=
| IterateEnd i sc results s :
    IterateRun total i [] sc results s (Returned results) s []
| IterateNext i item rest sc results s sc' results' s1 evs1 o s2 evs2 :
    IterationRun i total item sc results s (Returned (sc', results')) s1 evs1 ->
    IterateRun total (S i) rest sc' results' s1 o s2 evs2 ->
    IterateRun total i (item :: rest) sc results s o s2 (evs1 ++ evs2)
| IterateAbort i item rest sc results s e s1 evs1 :
    IterationRun i total item sc results s (Threw e) s1 evs1 ->
    IterateRun total i (item :: rest) sc results s (Threw e) s1 evs1.

(** A per-iteration result as the loop pushes it. *)
Definition okResult (r : WorkflowStepResult) : Prop :=
  success r = true /\ error r = None.


(** What follows an empty first extraction: the selector is regenerated
    once, and the extraction is retried when that yields a mapping. *)
Definition AfterEmpty (more : list (Completion SelectorResult))
  (regens : list (Completion (option string)))
  (o : Outcome (list Json)) : Prop :=
  match regens with
  | [Raise e] => more = [] /\ o = Threw e
  | [Ok code] =>
      if truthy_opt code then
        exists c2, more = [c2] /\
          match c2 with
          | Ok r2 => itemsOf r2 = [] -> o = Returned []
          | Raise e => o = Threw e
          end
      else more = [] /\ o = Returned []
  | _ => False
  end.

(** Steps 1 to 4 of the loop strategy, from frame [s] to [s']. *)
Record ExtractFacts (s s' : Frame (W := W)) (o : Outcome (list Json))
  (evs : list Event) : Prop := {
  ef_outcome : (exists items, o = Returned items) \/ (exists e, o = Threw e);
  ef_result : snd s' = snd s;
  ef_fields : sameOtherFields (snd (fst s)) (snd (fst s'));
  ef_config : apiConfig (snd (fst s')) = apiConfig (snd (fst s));
  ef_selector :
    loopSelector (snd (fst s')) = loopSelector (snd (fst s)) \/
    (truthy_opt (loopSelector (snd (fst s))) = false /\
     isArray payload = true /\
     loopSelector (snd (fst s')) = Some "$") \/
    (exists code, In (Ok (Some code)) (regenerations evs) /\
                  loopSelector (snd (fst s')) = Some code);
  ef_executor : Forall (fun ev => isExecutorCall ev = false) evs;
  ef_clean : forall items, o = Returned items -> rejected evs = false;
  ef_regenerations : List.length (regenerations evs) <= 1;
  ef_extractions : List.length (extractions evs) <= 2;
  ef_empty : forall r1 more,
      extractions evs = Ok r1 :: more -> itemsOf r1 = [] ->
      nullish payload = false ->
      AfterEmpty more (regenerations evs) o;
  ef_nonempty : forall r1 more,
      extractions evs = Ok r1 :: more -> itemsOf r1 <> [] ->
      more = [] /\ regenerations evs = []
}.

(** The three ways the outer [try] block of the loop strategy can go. *)
Inductive TryRun (s : Frame (W := W))
  : Outcome unit -> Frame (W := W) -> list Event -> Prop :=
| TryNoItems e s1 evs1 :
    extractItems C payload metadata s = (Threw e, s1, evs1) ->
    ExtractFacts s s1 (Threw e) evs1 ->
    TryRun s (Threw e) s1 evs1
| TryAborted items s1 evs1 e s2 evs2 :
    extractItems C payload metadata s = (Returned items, s1, evs1) ->
    ExtractFacts s s1 (Returned items) evs1 ->
    IterateRun (List.length items) 0 items None [] s1 (Threw e) s2 evs2 ->
    TryRun s (Threw e) s2 (evs1 ++ evs2)
| TryDone items s1 evs1 rs s2 evs2 :
    extractItems C payload metadata s = (Returned items, s1, evs1) ->
    ExtractFacts s s1 (Returned items) evs1 ->
    IterateRun (List.length items) 0 items None [] s1 (Returned rs) s2 evs2 ->
    TryRun s (Returned tt)
      (fst s2,
       mkWorkflowStepResult (resultStepId (snd s2)) true
         (Some (JArr (map (fun r => orUndefined (rawData r)) rs)))
         (Some (JArr (map (fun r => orUndefined (transformedData r)) rs)))
         (apiConfig (snd (fst s2))) (Some (ErrText "")))
      (evs1 ++ evs2).

(** The result that the outer [catch] block leaves. *)
Definition failedResult (res : WorkflowStepResult) (step' : ExecutionStep)
  (e : JsError) : WorkflowStepResult :=
  mkWorkflowStepResult (resultStepId res) false (rawData res)
    (transformedData res) (apiConfig step') (Some (messageOrError e)).

(** The result of the loop strategy, from the outcome of its [try] block. *)
Definition finalResult (o : Outcome unit) (s' : Frame (W := W))
  : WorkflowStepResult :=
  match o with
  | Threw e => failedResult (snd s') (snd (fst s')) e
  | _ => snd s'
  end.


End Spec.
End StrategiesSpec.


(* ================================================================== *)
(** * The calls that the strategies make to the executor *)
(* ================================================================== *)

Module StrategiesTrace.
Import Strategies.

(** The calls made to the executor, in order: the argument object and how
    the call completed. *)
Definition executorLog (evs : list Event)
  : list (ExecuteArgs * Completion ApiResponse) :=
  flat_map (fun ev => match ev with
                      | EvExecuteApiCall args r => [(args, r)]
                      | _ => []
                      end) evs.

(** The mapping evaluations, in order: the expression and the input. *)
Definition mappingLog (evs : list Event) : list (option string * Json) :=
  flat_map (fun ev => match ev with
                      | EvApplyJsonata input expression _ => [(expression, input)]
                      | _ => []
                      end) evs.

(** Every call is given the config that the call before it returned, the
    first one [ep]; a rejected call is the last one. *)
Fixpoint chained (ep : ApiConfig)
  (calls : list (ExecuteArgs * Completion ApiResponse)) : Prop :=
  match calls with
  | [] => True
  | (args, r) :: rest =>
      argEndpoint args = ep /\
      match r with
      | Ok resp => chained (responseEndpoint resp) rest
      | Raise _ => rest = []
      end
  end.

(** The config returned by the last call, [ep] when there was none. *)
Fixpoint lastEndpoint (ep : ApiConfig)
  (calls : list (ExecuteArgs * Completion ApiResponse)) : ApiConfig :=
  match calls with
  | [] => ep
  | (_, Ok resp) :: rest => lastEndpoint (responseEndpoint resp) rest
  | (_, Raise _) :: rest => lastEndpoint ep rest
  end.


(** The config that a pass of the loop hands to the executor:
    [successfulConfig || step.apiConfig]. *)
Definition configFor {W} (sc : option ApiConfig) (s : @Frame W) : ApiConfig :=
  match sc with Some c => c | None => apiConfig (snd (fst s)) end.

End StrategiesTrace.


(* ================================================================== *)
(** * The calls that the executor and the orchestrator make *)
(* ================================================================== *)

Module ExecutorTrace.
Import Executor.

(** The events of the retry loop: log lines and the calls to the
    synthesizer, the transport caller and the validator. *)
Definition isLoopEvent (ev : Event) : bool :=
  match ev with
  | EvLog _ _ | EvGenerateApiConfig _ _ _ _ _ | EvCallEndpoint _ _ _
  | EvEvaluateResponse _ _ _ => true
  | _ => false
  end.

(** The events of [executeApiCall]: those of the loop, and the exception
    handed to telemetry. *)
Definition isExecutorEvent (ev : Event) : bool :=
  match ev with
  | EvCaptureException _ _ _ _ => true
  | _ => isLoopEvent ev
  end.

(** The texts handed to telemetry. *)
Definition captured (evs : list Event) : list string :=
  flat_map (fun ev => match ev with
                      | EvCaptureException msg _ _ _ => [msg]
                      | _ => []
                      end) evs.

(** The configs written to the store: id and config. *)
Definition upserts (evs : list Event) : list (string * ApiConfig) :=
  flat_map (fun ev => match ev with
                      | EvUpsertApiConfig i cfg => [(i, cfg)]
                      | _ => []
                      end) evs.

(** The run records handed to the run store. *)
Definition runsCreated (evs : list Event) : list RunResult :=
  flat_map (fun ev => match ev with
                      | EvCreateRun r => [r]
                      | _ => []
                      end) evs.

(** The webhook notifications: success flag, data and error. *)
Definition notifications (evs : list Event)
  : list (bool * option Json * option string) :=
  flat_map (fun ev => match ev with
                      | EvNotifyWebhook _ _ ok d e => [(ok, d, e)]
                      | _ => []
                      end) evs.

(** The calls to the post-call transform. *)
Definition transforms (evs : list Event) : list TransformArgs :=
  flat_map (fun ev => match ev with
                      | EvExecuteTransform args _ => [args]
                      | _ => []
                      end) evs.

(** The ids looked up in the config store. *)
Definition lookups (evs : list Event) : list string :=
  flat_map (fun ev => match ev with
                      | EvGetApiConfig i _ => [i]
                      | _ => []
                      end) evs.

End ExecutorTrace.


(* ================================================================== *)
(** * More operations on strings *)
(* ================================================================== *)

Module Text.

(** The white space that [trim] removes, for text in ASCII: tab, line
    feed, vertical tab, form feed, carriage return and space. *)
Definition isWhiteSpace (c : ascii) : bool :=
  let n := nat_of_ascii c in
  (n =? 9) || (n =? 10) || (n =? 11) || (n =? 12) || (n =? 13) || (n =? 32).

Fixpoint trimStart (s : string) : string :=
  match s with
  | EmptyString => EmptyString
  | String c s' => if isWhiteSpace c then trimStart s' else s
  end.

Fixpoint trimEnd (s : string) : string :=
  match s with
  | EmptyString => EmptyString
  | String c s' =>
      match trimEnd s' with
      | EmptyString => if isWhiteSpace c then EmptyString
                       else String c EmptyString
      | t => String c t
      end
  end.

(** [s.trim()] *)
Definition trim (s : string) : string := trimEnd (trimStart s).

(** [s.split(sep)] for a non-empty [sep], scanning left to right: [cur] is
    the segment read so far, [skip] counts the characters of a separator
    still to be dropped. *)
Fixpoint splitFrom (skip : nat) (sep cur s : string) : list string :=
  match s with
  | EmptyString => [cur]
  | String c s' =>
      match skip with
      | S k => splitFrom k sep cur s'
      | O =>
          if prefix sep s
          then cur :: splitFrom (String.length sep - 1) sep EmptyString s'
          else splitFrom 0 sep (cur ++ String c EmptyString) s'
      end
  end.

Definition split (sep s : string) : list string := splitFrom 0 sep "" s.

(** [String(v)], as a template literal prints a value. *)
Fixpoint toString (j : Json) : string :=
  match j with
  | JUndefined => "undefined"
  | JNull => "null"
  | JBool true => "true"
  | JBool false => "false"
  | JNum n => NilEmpty.string_of_int (Z.to_int n)
  | JStr s => s
  | JArr items =>
      join "," (map (fun x => if nullish x then "" else toString x) items)
  | JObj _ => "[object Object]"
  end.

(** A text of white space only. *)
Fixpoint allWhiteSpace (s : string) : bool :=
  match s with
  | EmptyString => true
  | String c s' => isWhiteSpace c && allWhiteSpace s'
  end.

(** A text without white space: what a token looks like. *)
Fixpoint noWhiteSpace (s : string) : bool :=
  match s with
  | EmptyString => true
  | String c s' => negb (isWhiteSpace c) && noWhiteSpace s'
  end.

End Text.


(* ================================================================== *)
(** * Token extraction and the authentication middleware *)
(* ================================================================== *)

Set Implicit Arguments.

Module Auth.
Import Text.

(** The [TypeError] raised by calling [split] on a value that has none. *)
Definition TypeError_split : JsError :=
  {| name := "TypeError"; message := "split is not a function";
     json := "{}" |}.

(** [key in obj] for an object given by its properties. *)
Definition hasKey (k : string) (fields : list (string * Json)) : bool :=
  existsb (fun kv => String.eqb (fst kv) k) fields.

(** ** Extraction of the token *)

(** [v?.split(" ")?.[1]?.trim()] *)
Definition secondWord (v : Json) : Completion Json :=
  match v with
  | JUndefined | JNull => Ok JUndefined
  | JStr s =>
      Ok match nth_error (split " " s) 1 with
         | Some t => JStr (trim t)
         | None => JUndefined
         end
  | _ => Raise TypeError_split
  end.

(** [url?.split(key)?.[1]?.split("&")?.[0]] *)
Definition urlParameter (key : string) (url : Json) : Completion Json :=
  match url with
  | JUndefined | JNull => Ok JUndefined
  | JStr s =>
      Ok match nth_error (split key s) 1 with
         | Some t =>
             match nth_error (split "&" t) 0 with
             | Some u => JStr u
             | None => JUndefined
             end
         | None => JUndefined
         end
  | _ => Raise TypeError_split
  end.

(** [a || b], where [b] is only evaluated when [a] is falsy. *)
Definition orElse (a : Completion Json) (b : Completion Json)
  : Completion Json :=
  match a with
  | Ok v => if truthy v then Ok v else b
  | Raise e => Raise e
  end.

(** [extractTokenFromExpressRequest]; the source is an object, given by
    its properties. *)
Definition extractTokenFromExpressRequest (source : list (string * Json))
  : Completion Json :=
  if hasKey "headers" source then
    orElse (secondWord (opt_get "authorization" (get_field "headers" source)))
           (Ok (opt_get "token" (get_field "query" source)))
  else if hasKey "connectionParams" source then
    let url :=
      opt_get "url" (opt_get "request" (get_field "extra" source)) in
    orElse (secondWord (opt_get "Authorization"
                          (get_field "connectionParams" source)))
           (orElse (urlParameter "token=" url)
                   (urlParameter "superglueApiKey=" url))
  else Ok JUndefined.

(** The [TypeError] raised by reading a property of [undefined]. *)
Definition readOf (k : string) (obj : Json) : Completion Json :=
  match obj with
  | JUndefined | JNull => Raise (TypeError_undefined k)
  | _ => Ok (opt_get k obj)
  end.

(** [extractTokenFromFastifyRequest]; [request.headers] is read without
    optional chaining. *)
Definition extractTokenFromFastifyRequest (request : list (string * Json))
  : Completion Json :=
  match readOf "authorization" (get_field "headers" request) with
  | Raise e => Raise e
  | Ok authHeader =>
      let bearer :=
        if truthy authHeader then
          match authHeader with
          | JStr s => Some (startsWith "Bearer " s, s)
          | _ => None
          end
        else Some (false, "") in
      match bearer with
      | None => Raise {| name := "TypeError";
                         message := "authHeader.startsWith is not a function";
                         json := "{}" |}
      | Some (true, s) =>
          Ok match nth_error (split " " s) 1 with
             | Some t => JStr (trim t)
             | None => JUndefined
             end
      | Some (false, _) =>
          let token := opt_get "token" (get_field "query" request) in
          if truthy token then Ok token else Ok JUndefined
      end
  end.

(** ** Validation of the token *)

(** What a key manager answers. *)
Record AuthResult : Type := mkAuthResult {
  authSuccess : bool;
  authOrgId : option string
}.

(** What [validateToken] returns. *)
Record Validation : Type := mkValidation {
  valid : bool;
  validOrgId : option string;
  validMessage : string
}.

Inductive Event : Type :=
| EvLog (level msg : string)
| EvAuthenticate (token : Json) (r : Completion AuthResult).

(** The key managers are objects of a type [Manager]; which one a fresh
    module creates depends on the environment. *)
Record Collaborators (W Manager : Type) : Type := mkCollaborators {
  authenticate : Manager -> Json -> W -> Completion AuthResult * W;
  (** [process.env.NEXT_PUBLIC_SUPABASE_URL] *)
  supabaseUrl : W -> option string;
  newSupabaseKeyManager : Manager;
  newLocalKeyManager : Manager
}.

Section WithCollaborators.
Context {W Manager : Type} (C : Collaborators W Manager).

(** The code runs on the world and the module variable [_authManager]. *)
Definition Run (A : Type) : Type := M Event (W * option Manager) A.

(** [getAuthManager] *)
Definition getAuthManager : Run Manager :=
  fun s =>
    match snd s with
    | Some m => (Returned m, s, [])
    | None =>
        let m := if truthy_opt (supabaseUrl C (fst s))
                 then newSupabaseKeyManager C
                 else newLocalKeyManager C in
        (Returned m, (fst s, Some m), [])
    end.

(** [_resetAuthManager] *)
Definition _resetAuthManager (manager : option Manager) : Run unit :=
  modify (fun s => (fst s, manager)).

(** [validateToken] *)
Definition validateToken (token : Json) : Run Validation :=
  if negb (truthy token) then
    ret {| valid := false; validOrgId := None;
           validMessage := "No token provided" |}
  else
    manager <- getAuthManager ;;
    authResult <-
      (fun s =>
         match authenticate C manager token (fst s) with
         | (Ok r, w') =>
             (Returned r, (w', snd s), [EvAuthenticate token (Ok r)])
         | (Raise e, w') =>
             (Threw e, (w', snd s), [EvAuthenticate token (Raise e)])
         end) ;;
    ret {| valid := authSuccess authResult;
           validOrgId := authOrgId authResult;
           validMessage := if authSuccess authResult then ""
                           else "Invalid token" |}.

(** ** The middleware *)

(** How the middleware ends: a response is sent, or the request, as the
    middleware leaves it, is passed on to [next]. *)
Inductive Reply : Type :=
| Sent (status : nat) (body : string)
| Passed (req : list (string * Json)).

(** The double quote. *)
Definition dq : string := String (ascii_of_nat 34) EmptyString.

(** The lock sign of the page, U+1F510 in UTF-8. *)
Definition lockSign : string :=
  String (ascii_of_nat 240) (String (ascii_of_nat 159)
    (String (ascii_of_nat 148) (String (ascii_of_nat 144) EmptyString))).

(** [getAuthErrorHTML] *)
Definition getAuthErrorHTML (token : Json) : string :=
  nl ++
  "      <html>" ++ nl ++
  "        <body style=" ++ dq ++ "display: flex; justify-content: center; align-items: center; height: 100vh; font-family: sans-serif;" ++ dq ++ ">" ++ nl ++
  "          <div style=" ++ dq ++ "text-align: center;" ++ dq ++ ">" ++ nl ++
  "            <h1>" ++ lockSign ++ " Authentication " ++
  (if truthy token then "Failed" else "Required") ++ "</h1>" ++ nl ++
  "            <p>Please provide a valid auth token via:</p>" ++ nl ++
  "            <ul style=" ++ dq ++ "list-style: none; padding: 0;" ++ dq ++ ">" ++ nl ++
  "              <li>Authorization header: <code>Authorization: Bearer TOKEN</code></li>" ++ nl ++
  "              <li>Query parameter: <code>?token=TOKEN</code></li>" ++ nl ++
  "              <li>WebSocket connectionParams: <code>{ " ++ dq ++ "Authorization" ++ dq ++ ": " ++ dq ++ "Bearer TOKEN" ++ dq ++ " }</code></li>" ++ nl ++
  "            </ul>" ++ nl ++
  "          </div>" ++ nl ++
  "        </body>" ++ nl ++
  "      </html>" ++ nl ++
  "    ".

(** An optional string as a property value. *)
Definition ofOption (o : option string) : Json :=
  match o with Some s => JStr s | None => JUndefined end.

(** The [TypeError]s of an assignment to a property of [undefined] and of a
    primitive value (the code is a module, so it runs in strict mode). *)
Definition TypeError_set (k : string) : JsError :=
  {| name := "TypeError";
     message := "Cannot set properties of undefined (setting '" ++ k ++ "')";
     json := "{}" |}.

Definition TypeError_create (k : string) : JsError :=
  {| name := "TypeError";
     message := "Cannot create property '" ++ k ++ "' on a primitive value";
     json := "{}" |}.

(** [req.headers[k] = v].  An array takes the property as any object does,
    outside of the elements that [Json] shows. *)
Definition setHeader (k : string) (v : Json) (req : list (string * Json))
  : Completion (list (string * Json)) :=
  match get_field "headers" req with
  | JUndefined | JNull => Raise (TypeError_set k)
  | JObj fields => Ok (set_field "headers" (JObj (set_field k v fields)) req)
  | JArr _ => Ok req
  | _ => Raise (TypeError_create k)
  end.

(** [req.path === '/health'] *)
Definition isHealthCheck (req : list (string * Json)) : bool :=
  match get_field "path" req with
  | JStr p => String.eqb p "/health"
  | _ => false
  end.

(** [authMiddleware]; the health check is answered before anything else. *)
Definition authMiddleware (req : list (string * Json)) : Run Reply :=
  if isHealthCheck req then ret (Sent 200 "OK")
  else
    match extractTokenFromExpressRequest req with
    | Raise e => throw e
    | Ok token =>
        authResult <- validateToken token ;;
        if negb (valid authResult) then
          emit (EvLog "warn"
                  ("Authentication failed for token: " ++ toString token)) ;;
          ret (Sent 401 (getAuthErrorHTML token))
        else
          let orgId := ofOption (validOrgId authResult) in
          let req1 := set_field "orgId" orgId req in
          match setHeader "orgId" orgId req1 with
          | Raise e => throw e
          | Ok req2 =>
              ret (Passed
                     (set_field "authInfo"
                        (JObj [("token", token); ("clientId", orgId)])
                        req2))
          end
    end.

End WithCollaborators.

(** The tokens that the key managers were asked about, in order. *)
Definition authenticated (evs : list Event) : list Json :=
  flat_map (fun ev => match ev with
                      | EvAuthenticate token _ => [token]
                      | _ => []
                      end) evs.

End Auth.

Unset Implicit Arguments.


(* ================================================================== *)
(** * Helpers of the integration testing framework *)
(* ================================================================== *)

Module Framework.
Import Text.

(** The part of a [WorkflowResult] that the helpers read. *)
Record WorkflowResult : Type := mkWorkflowResult {
  success : bool;
  data : Json
}.

Inductive Quality : Type := pass | fail | unknown.

(** [Object.keys(data)] *)
Definition keysOf (data : Json) : list string := map fst (spread data).

(** [extractOutputKeys] *)
Definition extractOutputKeys (data : Json) : list string :=
  if negb (truthy data) || negb (String.eqb (typeof data) "object") then []
  else keysOf data.

(** [keys.includes(key)] *)
Definition includesKey (keys : list string) (key : string) : bool :=
  existsb (String.eqb key) keys.

(** [evaluateDataQuality]; [expectedKeys] is optional. *)
Definition evaluateDataQuality (result : WorkflowResult)
  (expectedKeys : option (list string)) : Quality :=
  if negb (success result) || negb (truthy (data result)) then fail
  else
    match expectedKeys with
    | None | Some [] => pass
    | Some expected =>
        let outputKeys := extractOutputKeys (data result) in
        let foundKeys := filter (includesKey outputKeys) expected in
        if List.length foundKeys =? List.length expected then pass
        else if 0 <? List.length foundKeys then unknown
        else fail
    end.

(** The markers that stand for what was cut. *)
Definition itemsMarker (more : nat) : Json :=
  JObj [("_truncated", JStr (string_of_nat more ++ " more items..."))].

Definition keysMarker (more : nat) : Json :=
  JStr (string_of_nat more ++ " more keys...").

(** [truncateData]: [data.slice(0, maxEntries).map(truncate)] and the loop
    over [keys.slice(0, maxEntries)] are the two inner functions, which
    stop after [maxEntries] entries.  The properties of an object are
    distinct, so that [data[key]] is the value next to [key]. *)
Fixpoint truncateData (maxEntries : nat) (data : Json) {struct data} : Json :=
  match data with
  | JArr items =>
      let truncated :=
        (fix slice_map (k : nat) (xs : list Json) {struct xs} : list Json :=
           match k, xs with
           | S k', x :: rest =>
               truncateData maxEntries x :: slice_map k' rest
           | _, _ => []
           end) maxEntries items in
      JArr (if maxEntries <? List.length items
            then truncated ++ [itemsMarker (List.length items - maxEntries)]
            else truncated)
  | JObj fields =>
      let truncatedObj :=
        (fix slice_each (k : nat) (fs : list (string * Json)) {struct fs}
           : list (string * Json) :=
           match k, fs with
           | S k', (key, v) :: rest =>
               (key, truncateData maxEntries v) :: slice_each k' rest
           | _, _ => []
           end) maxEntries fields in
      JObj (if maxEntries <? List.length fields
            then set_field "_truncated"
                   (keysMarker (List.length fields - maxEntries)) truncatedObj
            else truncatedObj)
  | _ => data
  end.

(** Every array and every object of a value has [n] entries at most. *)
Fixpoint within (n : nat) (j : Json) {struct j} : bool :=
  match j with
  | JArr items =>
      (List.length items <=? n) &&
      (fix all (xs : list Json) : bool :=
         match xs with
         | [] => true
         | x :: rest => within n x && all rest
         end) items
  | JObj fields =>
      (List.length fields <=? n) &&
      (fix all (fs : list (string * Json)) : bool :=
         match fs with
         | [] => true
         | (_, v) :: rest => within n v && all rest
         end) fields
  | _ => true
  end.

(** [generateDataPreview]; [stringify] is [JSON.stringify(data, null, 2)],
    which may throw. *)
Definition generateDataPreview (stringify : Json -> Completion string)
  (data : Json) : string :=
  if nullish data then "null/undefined"
  else
    let stringified :=
      match stringify data with
      | Ok s => s
      | Raise _ => toString data
      end in
    if String.length stringified <=? 1000 then stringified
    else substring 0 1000 stringified ++ "...".

End Framework.


(* ================================================================== *)
(** * The Redis datastore *)
(* ================================================================== *)

Set Implicit Arguments.

Module Datastore.
Import Text.

(** ** Keys *)

Definition RUN_PREFIX : string := "run:".
Definition API_PREFIX : string := "api:".
Definition EXTRACT_PREFIX : string := "extract:".
Definition TRANSFORM_PREFIX : string := "transform:".
Definition WORKFLOW_PREFIX : string := "workflow:".
Definition INTEGRATION_PREFIX : string := "integration:".

(** [orgId ? `${orgId}:` : ''] *)
Definition orgPart (orgId : option string) : string :=
  match orgId with
  | Some o => if truthy_string o then o ++ ":" else ""
  | None => ""
  end.

(** [getKey] *)
Definition getKey (prefix_ id : string) (orgId : option string) : string :=
  orgPart orgId ++ prefix_ ++ id.

(** [getPattern] *)
Definition getPattern (prefix_ : string) (orgId : option string) : string :=
  orgPart orgId ++ prefix_ ++ "*".

(** [getRunsByConfigPattern] *)
Definition getRunsByConfigPattern (prefix_ configId : string)
  (orgId : option string) : string :=
  orgPart orgId ++ prefix_ ++ configId ++ ":*".

(** [getRunByIdPattern] *)
Definition getRunByIdPattern (prefix_ id : string) (orgId : option string)
  : string :=
  orgPart orgId ++ prefix_ ++ "*:" ++ id.

(** [s.slice(n)] *)
Fixpoint dropFirst (n : nat) (s : string) : string :=
  match n, s with
  | S k, String _ s' => dropFirst k s'
  | _, _ => s
  end.

(** [s.replace(p, r)] for a text [p]: the first occurrence is replaced. *)
Fixpoint replaceFirst (p r s : string) : string :=
  if prefix p s then r ++ dropFirst (String.length p) s
  else
    match s with
    | EmptyString => EmptyString
    | String c s' => String c (replaceFirst p r s')
    end.

(** [key.split(':').pop()!.replace(prefix, '')]: the id that the listing
    methods read off a key. *)
Definition idOfKey (prefix_ key : string) : string :=
  replaceFirst prefix_ "" (last (split ":" key) "").

(** A text without the character [c]. *)
Fixpoint without (c : ascii) (s : string) : bool :=
  match s with
  | EmptyString => true
  | String d s' => negb (Ascii.eqb d c) && without c s'
  end.

(** ** Stored values *)

(** The store: the value under each key, as Redis keeps strings. *)
Definition Store : Type := list (string * string).

(** [redis.get(key)] *)
Fixpoint redisGet (key : string) (store : Store) : option string :=
  match store with
  | [] => None
  | (k, v) :: rest => if String.eqb key k then Some v else redisGet key rest
  end.

(** [redis.set(key, value)] *)
Fixpoint redisSet (key value : string) (store : Store) : Store :=
  match store with
  | [] => [(key, value)]
  | (k, v) :: rest =>
      if String.eqb key k then (key, value) :: rest
      else (k, v) :: redisSet key value rest
  end.

(** [redis.del(key)]: the number of keys removed (one key is given, so 0
    or 1), and the store. *)
Definition redisDel (key : string) (store : Store) : nat * Store :=
  (match redisGet key store with Some _ => 1 | None => 0 end,
   filter (fun kv => negb (String.eqb key (fst kv))) store).

(** What the datastore takes from the language and from Redis:
    [JSON.stringify], [JSON.parse] (which throws on a text that is not
    JSON), [new Date(v)], and [redis.keys(pattern)]. *)
Record Collaborators : Type := mkCollaborators {
  JSON_stringify : Json -> string;
  JSON_parse : string -> Completion Json;
  newDate : Json -> Json;
  redisKeys : string -> Store -> list string
}.

(** The [TypeError] raised by reading a property of [null]. *)
Definition TypeError_null (prop : string) : JsError :=
  {| name := "TypeError";
     message := "Cannot read properties of null (reading '" ++ prop ++ "')";
     json := "{}" |}.

Section WithCollaborators.
Variable C : Collaborators.

(** [...(parsed[k] && { [k]: new Date(parsed[k]) })] on the properties
    collected so far. *)
Definition withDate (parsed : Json) (k : string) (fields : list (string * Json))
  : list (string * Json) :=
  if truthy (opt_get k parsed)
  then set_field k (newDate C (opt_get k parsed)) fields
  else fields.

(** The object literal of [parseWithId]. *)
Definition withDatesAndId (parsed id : Json) : list (string * Json) :=
  set_field "id" id
    (withDate parsed "updatedAt"
       (withDate parsed "createdAt"
          (withDate parsed "completedAt"
             (withDate parsed "startedAt" (spread parsed))))).

(** [parseWithId] on a value that is parsed already and is not [null]; the
    recursion is on [parsed.config], which is looked up among the
    properties. *)
Fixpoint parseObject (parsed id : Json) {struct parsed} : Json :=
  let result := withDatesAndId parsed id in
  match parsed with
  | JObj fields =>
      match
        (fix find (fs : list (string * Json)) : option Json :=
           match fs with
           | [] => None
           | (k, v) :: rest =>
               if String.eqb "config" k then
                 if truthy v && truthy (opt_get "id" v)
                 then Some (parseObject v (opt_get "id" v))
                 else None
               else find rest
           end) fields
      with
      | Some parsedConfig => JObj (set_field "config" parsedConfig result)
      | None => JObj result
      end
  | _ => JObj result
  end.

(** [parseWithId] on what [redis.get] yields. *)
Definition parseWithId (data : option string) (id : Json) : Completion Json :=
  match data with
  | None => Ok JNull
  | Some text =>
      if negb (truthy_string text) then Ok JNull
      else
        match JSON_parse C text with
        | Raise e => Raise e
        | Ok parsed =>
            match parsed with
            | JNull | JUndefined => Raise (TypeError_null "startedAt")
            | _ => Ok (parseObject parsed id)
            end
        end
  end.

(** ** The methods for configs; the three kinds of config (API, extract,
    transform) differ in the prefix only. *)

(** [getApiConfig], [getExtractConfig], [getTransformConfig] *)
Definition getConfig (prefix_ id : string) (orgId : option string)
  (store : Store) : Completion Json :=
  if negb (truthy_string id) then Ok JNull
  else parseWithId (redisGet (getKey prefix_ id orgId) store) (JStr id).

(** [upsertApiConfig], [upsertExtractConfig], [upsertTransformConfig]:
    what is returned, and the store. *)
Definition upsertConfig (prefix_ id : string) (config : Json)
  (orgId : option string) (store : Store) : Json * Store :=
  if negb (truthy_string id) || negb (truthy config) then (JNull, store)
  else (config,
        redisSet (getKey prefix_ id orgId) (JSON_stringify C config) store).

(** [deleteApiConfig], [deleteExtractConfig], [deleteTransformConfig] *)
Definition deleteConfig (prefix_ id : string) (orgId : option string)
  (store : Store) : bool * Store :=
  if negb (truthy_string id) then (false, store)
  else let (deleted, store') := redisDel (getKey prefix_ id orgId) store in
       (0 <? deleted, store').

(** [keys.slice(offset, offset + limit)] *)
Definition slice {A} (offset limit : nat) (xs : list A) : list A :=
  firstn limit (skipn offset xs).

(** One entry of a listing: [null] for a key without data. *)
Definition listed (prefix_ : string) (store : Store) (key : string)
  : Completion Json :=
  match redisGet key store with
  | None => Ok JNull
  | Some text =>
      if negb (truthy_string text) then Ok JNull
      else parseWithId (Some text) (JStr (idOfKey prefix_ key))
  end.

(** The entries in order, up to the first one whose parsing throws. *)
Fixpoint listedAll (prefix_ : string) (store : Store) (keys : list string)
  : Completion (list Json) :=
  match keys with
  | [] => Ok []
  | key :: rest =>
      match listed prefix_ store key with
      | Raise e => Raise e
      | Ok item =>
          match listedAll prefix_ store rest with
          | Raise e => Raise e
          | Ok items => Ok (item :: items)
          end
      end
  end.

(** [listApiConfigs], [listExtractConfigs], [listTransformConfigs]: the
    items and the total; [limit] and [offset] are natural numbers and
    default to 10 and 0. *)
Definition listConfigs (prefix_ : string) (limit offset : option nat)
  (orgId : option string) (store : Store) : Completion (list Json * nat) :=
  let limit_ := match limit with Some n => n | None => 10 end in
  let offset_ := match offset with Some n => n | None => 0 end in
  let keys := redisKeys C (getPattern prefix_ orgId) store in
  let slicedKeys := slice offset_ limit_ keys in
  match listedAll prefix_ store slicedKeys with
  | Raise e => Raise e
  | Ok configs =>
      Ok (filter (fun c => match c with JNull => false | _ => true end)
                 configs,
          List.length keys)
  end.

End WithCollaborators.

End Datastore.

Unset Implicit Arguments.


(* ================================================================== *)
(** * Terms for statements about the datastore *)
(* ================================================================== *)

Module DatastoreSpec.
Import Datastore.

(** The text of the organisation in a key: none and the empty text give
    the same keys. *)
Definition orgText (org : option string) : string :=
  match org with Some o => o | None => "" end.

(** An organisation whose text has no colon. *)
Definition orgFree (org : option string) : bool := without ":" (orgText org).

(** [parsed.config && parsed.config.id]: the nested config that is parsed
    with its own id. *)
Definition nestedConfig (parsed : Json) : option Json :=
  let config := opt_get "config" parsed in
  if truthy config && truthy (opt_get "id" config) then Some config else None.

(** The properties that [parseWithId] turns into dates. *)
Definition dates : list string :=
  ["startedAt"; "completedAt"; "createdAt"; "updatedAt"].

End DatastoreSpec.


(* ================================================================== *)
(** * Further concrete values *)
(* ================================================================== *)

Module Examples.

(** An integration whose documentation has been fetched. *)
Definition documented : Integration :=
  {| integrationId := "orders-api";
     documentation := Some "GET /v2/orders lists the open orders.";
     documentationPending := false |}.

(** A key manager that knows one key, of the organisation [acme]; the
    world counts the questions it was asked. *)
Definition keyManager : Auth.Collaborators nat unit :=
  {| Auth.authenticate := fun _ token w =>
       (Ok match token with
           | JStr "sk-123" =>
               {| Auth.authSuccess := true; Auth.authOrgId := Some "acme" |}
           | _ => {| Auth.authSuccess := false; Auth.authOrgId := None |}
           end, S w);
     Auth.supabaseUrl := fun _ => None;
     Auth.newSupabaseKeyManager := tt;
     Auth.newLocalKeyManager := tt |}.

(** A request to the API with a bearer token. *)
Definition bearerRequest (token : string) : list (string * Json) :=
  [("path", JStr "/graphql");
   ("headers", JObj [("authorization", JStr ("Bearer " ++ token))]);
   ("query", JObj [])].

(** A datastore in which every config is written as the empty object, and
    in which a key pattern is a text followed by a star. *)
Definition emptyObjects : Datastore.Collaborators :=
  {| Datastore.JSON_stringify := fun _ => "{}";
     Datastore.JSON_parse := fun text =>
       if String.eqb text "{}" then Ok (JObj [])
       else Raise {| name := "SyntaxError";
                     message := "Unexpected token";
                     json := "{}" |};
     Datastore.newDate := fun v => v;
     Datastore.redisKeys := fun pattern store =>
       filter (prefix (slice0 (String.length pattern - 1) pattern))
              (map fst store) |}.

End Examples.


(* ================================================================== *)
(** * Concrete collaborators, for runs that can be computed *)
(* ================================================================== *)

Module Scenario.

(** The double quote. *)
Definition quote : string := String (ascii_of_nat 34) EmptyString.

(** A rendering of JSON values for the concrete runs (characters that
    [JSON.stringify] would escape do not occur in them). *)
Fixpoint render (j : Json) : string :=
  match j with
  | JUndefined => "undefined"
  | JNull => "null"
  | JBool true => "true"
  | JBool false => "false"
  | JNum n => NilEmpty.string_of_int (Z.to_int n)
  | JStr s => quote ++ s ++ quote
  | JArr items => "[" ++ join "," (map render items) ++ "]"
  | JObj fields =>
      "{" ++ join ","
               (map (fun kv => (quote ++ fst kv ++ quote ++ ":" ++
                                render (snd kv))%string) fields) ++ "}"
  end.

Definition ordersApi (path : string) : ApiConfig :=
  {| id := "orders"; urlHost := "https://api.example.com"; urlPath := path;
     instruction := "List the open orders"; responseSchema := JUndefined;
     responseMapping := None |}.

Definition secrets : Credentials := Some [("apiKey", "s3cr3t")].

Definition optionsWith (mode : option SelfHealingMode.t) (budget : option nat)
  (hook : option string) : option RequestOptions :=
  Some {| selfHealing := mode; cacheMode := None; retries := budget;
          webhookUrl := hook; testMode := None |}.

Definition noMetadata : Metadata := {| runId := None; orgId := None |}.

(** The world is a clock.  The transport caller accepts only the path
    [goodPath] and otherwise rejects with a message that quotes the key;
    the synthesizer proposes [proposal] and keeps the transcript; the
    post-call transform rejects, quoting the key, unless [transformOk]. *)
Definition executorWorld (goodPath proposal : string) (transformOk : bool)
  : Executor.Collaborators nat :=
  {| Executor.generateApiConfig := fun _ _ _ _ _ msgs w =>
       (Ok {| Executor.config := ordersApi proposal;
              Executor.newMessages := msgs |}, S w);
     Executor.callEndpoint := fun ep _ _ _ w =>
       (match ep with
        | Some c =>
            if String.eqb (urlPath c) goodPath
            then Ok {| Executor.data := JObj [("orders", JArr [JNum 7])] |}
            else Raise (Error "401 Unauthorized: key s3cr3t was rejected")
        | None => Raise (Error "no endpoint")
        end, S w);
     Executor.evaluateResponse := fun _ _ _ w =>
       (Ok {| Executor.evalSuccess := true; Executor.shortReason := "" |}, S w);
     Executor.getApiConfig := fun _ _ w => (Ok None, S w);
     Executor.executeTransform := fun args w =>
       (if transformOk
        then Ok {| Executor.transformData := Executor.inputData args;
                   Executor.transformConfig := None |}
        else Raise (Error "Transform failed for key s3cr3t"), S w);
     Executor.maskCredentials := SpecModel.maskCredentials;
     Executor.JSON_stringify := render;
     Executor.PROMPT_MAPPING := "JSONata is a query language for JSON.";
     Executor.telemetryClient := true;
     Executor.newDate := fun w => (w, S w);
     Executor.randomUUID := fun w =>
       (("run-" ++ string_of_nat w)%string, S w) |}.

(** The world counts the calls made to the executor, which rejects the
    call number [failAt]; the selector is a field name or ["$"]; selector
    synthesis yields [regenerated]. *)
Definition strategyWorld (failAt : nat) (regenerated : option string)
  : Strategies.Collaborators nat :=
  {| Strategies.executeApiCall := fun args w =>
       (if S w =? failAt then Raise (Error "HTTP 500")
        else Ok {| Strategies.responseData := JObj [("ok", JBool true)];
                   Strategies.responseEndpoint :=
                     Strategies.argEndpoint args |}, S w);
     Strategies.applyJsonata := fun input _ w => (Ok input, w);
     Strategies.transformAndValidateSchema := fun input sel w =>
       (Ok {| Strategies.selectorSuccess := true;
              Strategies.selectorData :=
                if String.eqb sel "$" then input else opt_get sel input |}, w);
     Strategies.generateTransformCode := fun _ _ _ _ w => (Ok regenerated, w);
     Strategies.flattenObject := fun item prefix_ =>
       map (fun kv => ((prefix_ ++ "_" ++ fst kv)%string, snd kv))
           (spread item);
     Strategies.JSON_stringify := render;
     Strategies.DEFAULT_LOOP_MAX_ITERS := 100;
     Strategies.sameObject := fun _ _ => true |}.

Definition loopStep (selector : option string) : Strategies.ExecutionStep :=
  {| Strategies.stepId := "sync";
     Strategies.apiConfig := ordersApi "/v1/orders";
     Strategies.executionMode := "LOOP";
     Strategies.loopSelector := selector;
     Strategies.loopMaxIters := None;
     Strategies.stepResponseMapping := None |}.

Definition plainOptions : RequestOptions :=
  {| selfHealing := None; cacheMode := None; retries := None;
     webhookUrl := None; testMode := None |}.

(** A world in which the synthesizer never finds the accepted path. *)
Definition failingWorld : Executor.Collaborators nat :=
  executorWorld "/v2/orders" "/v1/orders" true.

(** A world in which the synthesizer proposes the accepted path. *)
Definition healingWorld : Executor.Collaborators nat :=
  executorWorld "/v2/orders" "/v2/orders" true.

(** A world in which the call succeeds and the post-call transform fails. *)
Definition transformFailingWorld : Executor.Collaborators nat :=
  executorWorld "/v1/orders" "/v1/orders" false.




Definition threeItems : Json :=
  JObj [("items", JArr [JObj [("id", JNum 1)]; JObj [("id", JNum 2)];
                        JObj [("id", JNum 3)]])].

Definition noItems : Json := JObj [("items", JArr [])].

End Scenario.

Module Facts.





Lemma prefix_self_app (v t : string) : prefix v (v ++ t) = true.
Proof.
  induction v as [|c v IH]; simpl; [destruct t; reflexivity|].
  destruct (ascii_dec c c); [exact IH | congruence].
Qed.




Lemma append_assoc (a b c : string) :
  ((a ++ b) ++ c = a ++ b ++ c)%string.
Proof. induction a as [|x a IH]; cbn; [reflexivity|now rewrite IH]. Qed.




Lemma slice0_length (n : nat) (s : string) : String.length (slice0 n s) <= n.
Proof.
  unfold slice0. revert n; induction s as [|c s IH]; intros [|n]; simpl; try lia.
  specialize (IH n). lia.
Qed.

End Facts.

(* ================================================================== *)
(** * The retry loop of the executor *)
(* ================================================================== *)

Module ExecutorProofs.
Import Executor ExecutorSpec.

Ltac nsimpl :=
  cbn -[String.append slice0 prefix startsWith includes string_of_nat] in *.

Ltac msimpl :=
  cbn -[String.append slice0 prefix startsWith includes string_of_nat
        Nat.max Nat.ltb Nat.eqb andb attemptCatch retryBudget] in *.

Ltac call_step :=
  match goal with
  | |- context [generateApiConfig ?C' ?a ?b ?c ?d ?e ?f ?w] =>
      destruct (generateApiConfig C' a b c d e f w) as [[?g|?err] ?w] eqn:?
  | |- context [callEndpoint ?C' ?a ?b ?c ?d ?w] =>
      destruct (callEndpoint C' a b c d w) as [[?resp|?err] ?w] eqn:?
  | |- context [evaluateResponse ?C' ?a ?b ?c ?w] =>
      destruct (evaluateResponse C' a b c w) as [[?verdict|?err] ?w] eqn:?
  end.

Ltac munfold :=
  unfold attempt, try_catch, attemptTry, bind, when, call, assign, local,
    modify, gets, logMessage, emit, throw, ret.

Lemma transportCalls_app evs1 evs2 :
  transportCalls (evs1 ++ evs2) = transportCalls evs1 + transportCalls evs2.
Proof. unfold transportCalls. now rewrite filter_app, length_app. Qed.

Lemma generatedAt_app k evs1 evs2 :
  generatedAt k (evs1 ++ evs2) = generatedAt k evs1 || generatedAt k evs2.
Proof. apply existsb_app. Qed.

Lemma evaluatedAt_app k evs1 evs2 :
  evaluatedAt k (evs1 ++ evs2) = evaluatedAt k evs1 || evaluatedAt k evs2.
Proof. apply existsb_app. Qed.

Lemma transportDataAt_app k evs1 evs2 :
  transportDataAt k (evs1 ++ evs2)
  = transportDataAt k evs1 || transportDataAt k evs2.
Proof. apply existsb_app. Qed.

Lemma transportAt_app k evs1 evs2 :
  transportAt k (evs1 ++ evs2) = transportAt k evs1 || transportAt k evs2.
Proof. apply existsb_app. Qed.

Lemma documentationSeen_app evs1 evs2 :
  documentationSeen (evs1 ++ evs2)
  = documentationSeen evs1 ++ documentationSeen evs2.
Proof. apply flat_map_app. Qed.

(** No call of attempt [k] in a log whose calls all belong to later attempts. *)
Lemma transportAt_later k n evs :
  k < n ->
  Forall (fun ev => forall j, attemptOf ev = Some j -> n <= j) evs ->
  transportAt k evs = false.
Proof.
  intros Hk H. induction H as [|ev evs Hev _ IH]; [reflexivity|].
  unfold transportAt in *. cbn [existsb]. rewrite IH, orb_false_r.
  destruct ev; try reflexivity.
  apply Nat.eqb_neq. specialize (Hev _ eq_refl). lia.
Qed.

(** A log without calls of the retry loop. *)
Lemma no_attempt_events evs :
  Forall (fun ev => attemptOf ev = None) evs ->
  transportCalls evs = 0 /\ documentationSeen evs = [] /\
  forall k, generatedAt k evs = false /\ evaluatedAt k evs = false /\
            transportDataAt k evs = false /\ transportAt k evs = false.
Proof.
  induction 1 as [|ev evs Hev _ (IH0 & IHd & IH)]; [easy|].
  split; [|split].
  - unfold transportCalls in *. cbn. destruct ev; try discriminate; exact IH0.
  - unfold documentationSeen in *. cbn [flat_map].
    destruct ev; try discriminate; exact IHd.
  - intros k. destruct (IH k) as (? & ? & ? & ?).
    unfold generatedAt, evaluatedAt, transportDataAt, transportAt in *.
    cbn [existsb]. destruct ev; try discriminate; cbn; auto.
Qed.

Section Proofs.
Context {W : Type} (C : Collaborators W).
Variables (payload : Json) (credentials : Credentials)
          (options : option RequestOptions) (sh : bool) (doc : string).

Local Abbreviation masked := (maskedError C credentials).
Local Abbreviation budget := (retryBudget options).

(** The [catch] block: what it assigns, appends and logs. *)
Lemma attemptCatch_run error w l :
  exists l' evs,
    attemptCatch C credentials error (w, l) = (Returned tt, (w, l'), evs) /\
    endpoint l' = endpoint l /\ response l' = response l /\
    retryCount l' = retryCount l /\ success l' = success l /\
    lastError l' = Some (masked error) /\
    (retryCount l = 0 -> messages l' = messages l) /\
    (0 < retryCount l ->
     exists guide,
       messages l' = messages l ++ fixMessage (rawErrorStringOf error) :: guide
       /\ (guide = [] \/ guide = [guideMessage C])) /\
    evs = [EvLog (if retryCount l =? 0 then "info" else "warn")
                 (if retryCount l =? 0 then initialFailureLog (masked error)
                  else failedCallLog (masked error))].
Proof.
  unfold attemptCatch, maskedError, bind, assign, local, modify, gets,
    logMessage, emit, when, ret. nsimpl.
  destruct (retryCount l) as [|n] eqn:Hrc; nsimpl.
  - eexists _, _. repeat split; eauto; try lia.
  - match goal with |- context [if ?c then _ else _] => destruct c end; nsimpl;
      (eexists _, _; split; [reflexivity|]; repeat split; try reflexivity;
       try assumption; try (intros; discriminate); intros _).
    + exists [guideMessage C]. split; [|now right].
      unfold push, set_messages; cbn. now rewrite <- app_assoc.
    + exists []. split; [|now left]. reflexivity.
Qed.

Lemma attemptCatch_frame error w l :
  exists l',
    attemptCatch C credentials error (w, l) =
      (Returned tt, (w, l'),
       [EvLog (if retryCount l =? 0 then "info" else "warn")
              (if retryCount l =? 0 then initialFailureLog (masked error)
               else failedCallLog (masked error))]) /\
    retryCount l' = retryCount l /\ success l' = success l /\
    lastError l' = Some (masked error).
Proof.
  destruct (attemptCatch_run error w l)
    as (l' & evs & H & _ & _ & ? & ? & ? & _ & _ & ->).
  exists l'. now rewrite H.
Qed.

Ltac catch_step :=
  match goal with
  | |- context [attemptCatch ?C' ?cr ?e (?w, ?l)] =>
      let H := fresh "Hcatch" in
      let l' := fresh "l'" in
      destruct (attemptCatch_frame e w l) as (l' & H & ? & ? & ?);
      rewrite H; clear H
  end.

(** Every path through one pass of the loop body. *)
Ltac attempt_paths l :=
  munfold; msimpl;
  destruct ((0 <? retryCount l) && sh) eqn:?Hgate; msimpl;
  repeat (call_step; msimpl);
  repeat match goal with
         | |- context [truthy (data ?r)] =>
             destruct (truthy (data r)) eqn:?Hdata; msimpl;
             repeat (call_step; msimpl)
         | |- context [evalSuccess ?v] =>
             destruct (evalSuccess v) eqn:?Hverdict; msimpl
         end;
  try catch_step; msimpl.

Lemma attempt_spec w l :
  exists b w' l' evs,
    attempt C payload credentials options sh doc (w, l)
      = (Returned b, (w', l'), evs) /\
    AttemptFacts C credentials sh doc l l' b evs.
Proof.
  attempt_paths l.
  all: eexists _, _, _, _; (split; [reflexivity|]).
  all: split.
  (* retryCount *)
  all: try solve [cbn in *; congruence].
  (* calls *)
  all: try solve [cbn; lia].
  (* break / fail *)
  all: try solve [intros; try discriminate; cbn in *; congruence].
  all: try solve [intros; try discriminate;
                  split; [intros; cbn in *; congruence
                         | eexists; eassumption]].
  (* index, documentation *)
  all: try solve [repeat constructor; cbn; intros; congruence].
  (* generate *)
  all: try solve [intros k; unfold generatedAt, gate; cbn;
                  rewrite ?orb_false_r; intros E; try discriminate;
                  apply Nat.eqb_eq in E; subst k; assumption].
  (* first *)
  all: try solve [intros Hrc; try (rewrite Hrc in *; discriminate);
                  rewrite ?Hrc; eexists _, _; split; reflexivity].
  (* evaluate *)
  all: intros k; unfold evaluatedAt, transportDataAt, gate; cbn -[Nat.ltb];
       destruct (Nat.eqb_spec (retryCount l) k) as [<-|];
       rewrite ?Hgate, ?Hdata; cbn -[Nat.ltb];
       rewrite ?andb_false_r; reflexivity.
Qed.

Lemma doWhile_spec fuel : forall w l,
  budget - retryCount l <= fuel -> 1 <= fuel ->
  exists w' l' evs,
    doWhile C payload credentials options sh doc fuel (w, l)
      = (Returned tt, (w', l'), evs) /\
    RetryFacts C credentials options sh doc l l' evs.
Proof.
  induction fuel as [|fuel IH]; intros w l Hfuel Hpos; [lia|].
  destruct (attempt_spec w l) as (b & w1 & l1 & evs1 & Hatt & F).
  cbn [doWhile]. unfold bind at 1. rewrite Hatt.
  destruct F as [Frc Fcalls Fbreak Ffail Findex Fgen Fdoc Ffirst Feval].
  destruct b.
  - unfold ret. exists w1, l1, (evs1 ++ []). split; [reflexivity|].
    rewrite app_nil_r. split; auto.
    + lia.
    + eapply Forall_impl; [|exact Findex]. intros ev H k Hk.
      rewrite (H k Hk). lia.
  - unfold bind, assign, local, modify, gets, ret. msimpl.
    destruct (Ffail eq_refl) as (Fsucc & error & Ferr).
    destruct (S (retryCount l1) <? budget) eqn:Hlt.
    + apply Nat.ltb_lt in Hlt.
      destruct (IH w1 (set_retryCount (S (retryCount l1)) l1))
        as (w2 & l2 & evs2 & Hloop & L);
        [unfold set_retryCount; cbn [retryCount]; lia | lia |].
      rewrite Hloop. msimpl.
      exists w2, l2, (evs1 ++ evs2). split; [reflexivity|].
      destruct L as [Lcalls Lout Lindex Lgen Ldoc Lfirst Leval].
      unfold set_retryCount in *;
      cbn [retryCount success lastError endpoint] in *.
      split; cbn [retryCount success lastError endpoint].
      * rewrite transportCalls_app. lia.
      * intros Hs. destruct (Lout (Fsucc Hs)) as [?|(? & ? & ?)]; [now left|].
        right. repeat split; auto. lia.
      * apply Forall_app. split.
        -- eapply Forall_impl; [|exact Findex]. intros ev H k Hk.
           rewrite (H k Hk). lia.
        -- eapply Forall_impl; [|exact Lindex]. intros ev H k Hk.
           specialize (H k Hk). lia.
      * intros k. rewrite generatedAt_app. intros H.
        apply orb_true_iff in H. destruct H; auto.
      * rewrite documentationSeen_app. apply Forall_app. now split.
      * intros Hrc. destruct (Ffirst Hrc) as (r & rest & -> & Hrest).
        exists r, (rest ++ evs2). split; [reflexivity|].
        rewrite transportAt_app, Hrest.
        apply transportAt_later with (n := S (retryCount l1));
          [lia|exact Lindex].
      * intros k. rewrite evaluatedAt_app, transportDataAt_app, Feval, Leval.
        now rewrite andb_orb_distrib_r.
    + apply Nat.ltb_ge in Hlt. msimpl.
      exists w1, (set_retryCount (S (retryCount l1)) l1), (evs1 ++ []).
      split; [reflexivity|]. rewrite app_nil_r.
      split; unfold set_retryCount;
        cbn [retryCount success lastError endpoint]; auto.
      * lia.
      * intros Hs. right. repeat split; auto; [lia | eauto].
      * eapply Forall_impl; [|exact Findex]. intros ev H k Hk.
        rewrite (H k Hk). lia.
Qed.

Variables (metadata : Metadata) (integration : option Integration).

(** With an integration, or with self-healing enabled, the statements
    before the loop end normally. *)
Lemma documentationFor_ok (s : W * Locals) :
  integration <> None \/ sh = true ->
  exists d evs,
    documentationFor integration sh s = (Returned d, s, evs) /\
    Forall (fun ev => attemptOf ev = None) evs /\
    (integration = None -> d = "").
Proof.
  intros H. unfold documentationFor, bind, logMessage, emit, ret, throw.
  destruct integration as [i|]; nsimpl.
  - destruct (documentationPending i); nsimpl.
    + eexists _, _. split; [reflexivity|]. split; [repeat constructor|easy].
    + destruct (documentation i) as [d|]; [destruct (truthy_string d)|];
        eexists _, _; (split; [reflexivity|]); split; (constructor || easy).
  - destruct H as [H| ->]; [congruence|]. nsimpl.
    eexists _, _. split; [reflexivity|]. split; [repeat constructor|easy].
Qed.

End Proofs.

Section Run.
Context {W : Type} (C : Collaborators W).
Variables (payload : Json) (credentials : Credentials)
          (options : option RequestOptions) (metadata : Metadata)
          (integration : option Integration) (endpoint0 : option ApiConfig).

Local Abbreviation budget := (retryBudget options).
Local Abbreviation sh := (isSelfHealingEnabled options).
Local Abbreviation masked := (maskedError C credentials).

(** Every run of [executeApiCall] that reaches the loop. *)
Lemma executeApiCall_spec w :
  integration <> None \/ sh = true ->
  exists o w' evs,
    executeApiCall C payload credentials options metadata integration
                   endpoint0 w = (o, w', evs) /\
    RunFacts C credentials options sh integration endpoint0 o evs.
Proof.
  intros Hreach.
  unfold executeApiCall, with_locals.
  set (l0 := {| endpoint := endpoint0; messages := []; response := None;
                retryCount := 0; lastError := None; success := false |}).
  unfold bind at 1.
  destruct (documentationFor_ok sh integration (w, l0) Hreach)
    as (d & evs0 & -> & Hpre & Hdoc).
  unfold bind at 1.
  destruct (doWhile_spec C payload credentials options sh d
              (Nat.max 1 budget) w l0) as (w1 & l1 & evs1 & -> & L);
    [subst l0; cbn [retryCount]; lia | lia |].
  destruct L as [Lcalls Lout Lindex Lgen Ldoc Lfirst Leval].
  subst l0. cbn [retryCount endpoint success Nat.add] in *.
  destruct (no_attempt_events evs0 Hpre) as (Hc0 & Hd0 & Hno).
  destruct (Lfirst eq_refl) as (r & rest & -> & Hrest).
  assert (Hcommon : forall o tail,
            Forall (fun ev => attemptOf ev = None) tail ->
            ((exists res, o = Returned res) \/
             (exists error,
                o = Threw (Error (failureText (Nat.max 1 budget)
                                    (Some (masked error)))))) ->
            RunFacts C credentials options sh integration endpoint0 o
              (evs0 ++ (EvCallEndpoint 0 endpoint0 r :: rest) ++ tail)).
  { intros o tail Htail Ho.
    destruct (no_attempt_events tail Htail) as (Hct & Hdt & Hnt).
    split.
    - rewrite !transportCalls_app, Hc0, Hct. lia.
    - exact Ho.
    - intros k. rewrite !generatedAt_app.
      destruct (Hno k) as (-> & _), (Hnt k) as (-> & _).
      rewrite orb_false_r. cbn [orb]. apply Lgen.
    - intros Hnone. rewrite !documentationSeen_app, Hd0, Hdt, app_nil_r.
      cbn [app]. now rewrite <- (Hdoc Hnone).
    - exists evs0, r, (rest ++ tail). split; [reflexivity|].
      destruct (Hno 0) as (_ & _ & _ & ->), (Hnt 0) as (_ & _ & _ & Ht).
      split; [reflexivity|]. now rewrite transportAt_app, Hrest, Ht.
    - intros k. rewrite !evaluatedAt_app, !transportDataAt_app.
      destruct (Hno k) as (_ & -> & -> & _), (Hnt k) as (_ & -> & -> & _).
      rewrite !orb_false_r. cbn [orb]. apply Leval. }
  unfold bind, local, gets, when, emit, throw, ret. msimpl.
  destruct (Lout eq_refl) as [Hs | (Hs & Hrc & error & Herr)];
    rewrite Hs; msimpl.
  - eexists _, _, _. split; [reflexivity|].
    apply (Hcommon _ []); [constructor|]. left. eauto.
  - rewrite Hrc, Herr.
    destruct (telemetryClient C); msimpl;
      eexists _, _, _; (split; [reflexivity|]).
    + apply (Hcommon _ [_]); [repeat constructor|]. right. eauto.
    + apply (Hcommon _ []); [constructor|]. right. eauto.
Qed.

End Run.
End ExecutorProofs.

(* ================================================================== *)
(** * The runs of the strategies *)
(* ================================================================== *)

Module StrategiesProofs.
Import Strategies StrategiesSpec.

Ltac ssimpl :=
  cbn -[String.append slice0 prefix startsWith includes string_of_nat
        itemFailureText iterationLog updatedLog
        completionLog directFailureText noInputLog selectorInstruction
        loopPayloadOf rawDataOf executeArgsOf currentItemOf firstn
        messageOrError arraySchema] in *.

Ltac sunfold :=
  unfold bind, try_catch, when, call, readStep, writeStep, readResult,
    writeResult, logMessage, modify, gets, emit, throw, ret,
    worldOf, stepOf, resultOf in *.

Ltac scall_step :=
  match goal with
  | |- context [executeApiCall ?C' ?a ?w] =>
      destruct (executeApiCall C' a w) as [[?resp|?err] ?w] eqn:?Hexec
  | |- context [applyJsonata ?C' ?a ?b ?w] =>
      destruct (applyJsonata C' a b w) as [[?out|?err] ?w] eqn:?Hmap
  | |- context [transformAndValidateSchema ?C' ?a ?b ?w] =>
      destruct (transformAndValidateSchema C' a b w)
        as [[?sel|?err] ?w] eqn:?Hsel
  | |- context [generateTransformCode ?C' ?a ?b ?c ?d ?w] =>
      destruct (generateTransformCode C' a b c d w)
        as [[?code|?err] ?w] eqn:?Hgen
  end.

Section Proofs.
Context {W : Type} (C : Collaborators W).
Variables (payload : Json) (credentials : Credentials)
          (options : RequestOptions) (metadata : Metadata)
          (integrationManager : option IntegrationManager).

Local Abbreviation iteration_ :=
  (iteration C payload credentials options metadata integrationManager).

Lemma iteration_spec i total item sc results s :
  exists o s' evs,
    iteration_ i total item sc results s = (o, s', evs) /\
    IterationRun C payload i total item sc results s o s' evs.
Proof.
  destruct s as [[w step] res].
  unfold iteration, iterationTry, iterationCatch. sunfold. ssimpl.
  scall_step; ssimpl.
  - destruct (sameObject C (responseEndpoint resp) (apiConfig step)); ssimpl;
      scall_step; ssimpl; eexists _, _, _; (split; [reflexivity|]).
    + apply (IterationDone C payload _ _ _ _ _ (w, step, res) _ _ _ []); auto.
    + apply (IterationMappingFailed C payload _ _ _ _ _ (w, step, res) _ _ _ []); auto.
    + apply (IterationDone C payload _ _ _ _ _ (w, step, res) _ _ _
               [EvLog "debug" (updatedLog (i + 1))]); auto.
    + apply (IterationMappingFailed C payload _ _ _ _ _ (w, step, res) _ _ _
               [EvLog "debug" (updatedLog (i + 1))]); auto.
  - eexists _, _, _. split; [reflexivity|].
    apply (IterationExecutorFailed C payload _ _ _ _ _ (w, step, res)). reflexivity.
Qed.

Local Abbreviation iterate_ :=
  (iterate C payload credentials options metadata integrationManager).

Lemma iterate_spec total items : forall i sc results s,
  exists o s' evs,
    iterate_ i total items sc results s = (o, s', evs) /\
    IterateRun C payload total i items sc results s o s' evs.
Proof.
  induction items as [|item rest IH]; intros i sc results s.
  - eexists _, _, _. split; [reflexivity|]. constructor.
  - destruct (iteration_spec i total item sc results s)
      as (o1 & s1 & evs1 & Hone & R1).
    cbn [iterate]. unfold bind at 1. rewrite Hone.
    inversion R1; subst.
    + cbn [fst snd].
      match goal with
      | |- context [iterate_ ?i' _ _ ?sc' ?rs' ?s'] =>
          destruct (IH i' sc' rs' s') as (o2 & s2 & evs2 & Hrest & R2)
      end.
      rewrite Hrest.
      eexists _, _, _. split; [reflexivity|].
      eapply IterateNext; eauto.
    + eexists _, _, _. split; [reflexivity|]. now apply IterateAbort.
    + eexists _, _, _. split; [reflexivity|]. now apply IterateAbort.
Qed.

Lemma executorCalls_app evs1 evs2 :
  executorCalls (evs1 ++ evs2) = executorCalls evs1 + executorCalls evs2.
Proof. unfold executorCalls. now rewrite filter_app, length_app. Qed.

Lemma extractionCalls_app evs1 evs2 :
  extractionCalls (evs1 ++ evs2) = extractionCalls evs1 + extractionCalls evs2.
Proof. unfold extractionCalls. now rewrite filter_app, length_app. Qed.

Lemma regenerationCalls_app evs1 evs2 :
  regenerationCalls (evs1 ++ evs2)
  = regenerationCalls evs1 + regenerationCalls evs2.
Proof. unfold regenerationCalls. now rewrite filter_app, length_app. Qed.

Lemma executorFailed_app evs1 evs2 :
  executorFailed (evs1 ++ evs2) = executorFailed evs1 || executorFailed evs2.
Proof. apply existsb_app. Qed.

Lemma rejected_app evs1 evs2 :
  rejected (evs1 ++ evs2) = rejected evs1 || rejected evs2.
Proof. apply existsb_app. Qed.

Lemma extractions_app evs1 evs2 :
  extractions (evs1 ++ evs2) = extractions evs1 ++ extractions evs2.
Proof. apply flat_map_app. Qed.

Lemma regenerations_app evs1 evs2 :
  regenerations (evs1 ++ evs2) = regenerations evs1 ++ regenerations evs2.
Proof. apply flat_map_app. Qed.

Lemma iteration_facts i total item sc results s o s' evs :
  IterationRun C payload i total item sc results s o s' evs ->
  PassFacts s s' evs /\ executorCalls evs = 1.
Proof.
  destruct s as [[w step] res].
  intros R; inversion R; subst; cbn [fst snd];
    repeat match goal with H : _ \/ _ |- _ => destruct H; subst end;
    (split; [split|reflexivity]); cbn [fst snd]; try reflexivity;
    try (repeat split; reflexivity);
    try (left; reflexivity).
  all: right; eexists _, _; split; [|reflexivity]; cbn; auto.
Qed.

Lemma iterate_facts total i items sc results s o s' evs :
  IterateRun C payload total i items sc results s o s' evs ->
  PassFacts s s' evs /\ executorCalls evs <= List.length items.
Proof.
  induction 1 as [i sc results s
                 |i item rest sc results s sc' results' s1 evs1 o s2 evs2 R1 _ IH
                 |i item rest sc results s e s1 evs1 R1].
  - split; [split|]; auto; repeat split.
  - destruct (iteration_facts _ _ _ _ _ _ _ _ _ R1) as ([] & Hc1).
    destruct IH as ([] & Hc2).
    split; [split|].
    + congruence.
    + unfold sameOtherFields in *. intuition congruence.
    + congruence.
    + destruct pf_config1 as [E2|(args & resp & Hin & E2)].
      * destruct pf_config0 as [E1|(args & resp & Hin & E1)].
        -- left. congruence.
        -- right. exists args, resp. split; [apply in_or_app; now left|congruence].
      * right. exists args, resp. split; [apply in_or_app; now right|exact E2].
    + rewrite extractions_app. now rewrite pf_extractions0, pf_extractions1.
    + rewrite regenerations_app.
      now rewrite pf_regenerations0, pf_regenerations1.
    + rewrite executorCalls_app. cbn [List.length]. lia.
  - destruct (iteration_facts _ _ _ _ _ _ _ _ _ R1) as (F & Hc1).
    split; [exact F|]. cbn [List.length]. lia.
Qed.

Lemma iterate_outcome total i items sc results s o s' evs :
  IterateRun C payload total i items sc results s o s' evs ->
  (exists rs, o = Returned rs) \/ (exists e, o = Threw e).
Proof. induction 1; eauto. Qed.

Lemma iterate_done total i items sc results s o s' evs :
  IterateRun C payload total i items sc results s o s' evs ->
  forall rs, o = Returned rs ->
  rejected evs = false /\
  executorFailed evs = false /\
  executorCalls evs = List.length items /\
  List.length rs = List.length results + List.length items /\
  (Forall okResult results -> Forall okResult rs).
Proof.
  induction 1 as [i sc results s
                 |i item rest sc results s sc' results' s1 evs1 o s2 evs2 R1 _ IH
                 |i item rest sc results s e s1 evs1 R1];
    intros rs Hrs; try discriminate.
  - injection Hrs as <-. cbn [List.length]. auto.
  - destruct (IH rs Hrs) as (Hr & Hf & Hc & Hlen & Hok).
    rewrite rejected_app, executorFailed_app, executorCalls_app,
      Hr, Hf, Hc, Hlen.
    inversion R1; subst. rewrite length_app. cbn [List.length].
    repeat match goal with H : _ \/ _ |- _ => destruct H; subst end;
      (split; [reflexivity|]); (split; [reflexivity|]);
      (split; [reflexivity|]); (split; [lia|]);
      intros Hres; apply Hok, Forall_app; (split; [exact Hres|]);
      repeat constructor; assumption.
Qed.


Local Abbreviation extractItems_ := (extractItems C payload metadata).

Lemma extractItems_spec s :
  exists o s' evs,
    extractItems_ s = (o, s', evs) /\ ExtractFacts payload s s' o evs.
Proof.
  destruct s as [[w step] res].
  unfold extractItems, resolveSelector, regenerate, payloadKeys. sunfold. ssimpl.
  destruct (truthy_opt (loopSelector step)) eqn:Hsel0; ssimpl;
    [|destruct (isArray payload) eqn:Harr; ssimpl].
  all: repeat (scall_step; ssimpl).
  all: repeat match goal with
         | |- context [itemsOf ?r] =>
             destruct (itemsOf r) as [|?x ?xs] eqn:?Hitems; ssimpl
         | |- context [nullish payload] =>
             destruct (nullish payload) eqn:?Hnull; ssimpl
         | |- context [truthy_opt ?c] =>
             destruct (truthy_opt c) eqn:?Hcode; ssimpl
         | |- context [selectorSuccess ?r] =>
             destruct (selectorSuccess r) eqn:?Hsucc; ssimpl
         | _ => scall_step; ssimpl
         end.
  all: eexists _, _, _; (split; [reflexivity|]).
  all: split; cbn [fst snd].
  (* outcome, result, fields, config *)
  all: try solve [eauto].
  all: try solve [repeat split; reflexivity].
  (* selector *)
  all: try solve [left; reflexivity].
  all: try solve [right; left; repeat split; auto].
  all: try solve [right; right;
                  match goal with
                  | H : truthy_opt ?c = true |- _ =>
                      destruct c; [|discriminate]
                  end;
                  eexists; split; [cbn; eauto | reflexivity]].
  (* no executor call, no rejection before a normal end *)
  all: try solve [repeat constructor].
  all: try solve [intros ? ?; try discriminate; reflexivity].
  (* at most one regeneration, at most two extractions *)
  all: try solve [cbn; lia].
  (* after a non-empty first extraction *)
  all: try solve [intros r1 more E Hi; cbn in E; try discriminate;
                  injection E as <- <-; try congruence;
                  split; reflexivity].
  (* after an empty first extraction *)
  all: intros r1 more E Hi Hn; cbn in E; try discriminate;
       injection E as <- <-; try congruence;
       unfold AfterEmpty; cbn [regenerations flat_map app];
       rewrite ?firstn_nil;
       repeat match goal with
              | H : truthy_opt ?c = _ |- _ => rewrite H; clear H
              end;
       try solve [split; reflexivity].
  all: eexists; (split; [reflexivity|]); cbn; try reflexivity.
  all: unfold itemsOf;
       repeat match goal with
              | H : selectorSuccess ?c = _ |- _ => rewrite H; clear H
              end;
       try reflexivity.
  all: intros ->; now rewrite firstn_nil.
Qed.

Local Abbreviation loopTry_ :=
  (loopTry C payload credentials options metadata integrationManager).

Lemma okResults_success rs :
  Forall okResult rs -> forallb success rs = true.
Proof.
  induction 1 as [|r rs [Hs _] _ IH]; [reflexivity|].
  cbn. now rewrite Hs, IH.
Qed.

Lemma okResults_no_error rs :
  Forall okResult rs ->
  filter (fun s => match error s with
                   | Some (ErrText t) => truthy_string t
                   | Some (ErrObject _) => true
                   | None => false
                   end) rs = [].
Proof.
  induction 1 as [|r rs [_ He] _ IH]; [reflexivity|].
  cbn. now rewrite He, IH.
Qed.

Lemma loopTry_spec s :
  exists o s' evs, loopTry_ s = (o, s', evs) /\ TryRun C payload metadata s o s' evs.
Proof.
  destruct (extractItems_spec s) as (o1 & s1 & evs1 & H1 & F1).
  unfold loopTry. unfold bind at 1. rewrite H1.
  destruct (ef_outcome _ _ _ _ _ F1) as [(items & ->)|(e & ->)].
  - destruct (iterate_spec (List.length items) items 0 None [] s1)
      as (o2 & s2 & evs2 & H2 & R2).
    unfold bind at 1. rewrite H2.
    destruct (iterate_outcome _ _ _ _ _ _ _ _ _ R2) as [(rs & ->)|(e & ->)].
    + destruct (iterate_done _ _ _ _ _ _ _ _ _ R2 rs eq_refl)
        as (_ & _ & _ & _ & Hok).
      specialize (Hok (Forall_nil _)).
      destruct s2 as [[w2 step2] res2]. sunfold. ssimpl.
      rewrite (okResults_success _ Hok), (okResults_no_error _ Hok).
      rewrite app_nil_r.
      eexists _, _, _. split; [reflexivity|].
      eapply (TryDone C payload metadata s items s1 evs1 rs (w2, step2, res2) evs2);
        eauto.
    + eexists _, _, _. split; [reflexivity|].
      eapply TryAborted; eauto.
  - eexists _, _, _. split; [reflexivity|]. now apply TryNoItems.
Qed.

Local Abbreviation loopExecute_ :=
  (loopExecute C payload credentials options metadata integrationManager).

Lemma loopExecute_spec w step :
  exists o s' evs,
    loopTry_ (w, step, freshResult step) = (o, s', evs) /\
    TryRun C payload metadata (w, step, freshResult step) o s' evs /\
    loopExecute_ (w, step)
    = (Returned (finalResult o s'), fst s',
       evs ++ [EvLog "info" (completionLog (stepId (snd (fst s')))
                               (success (finalResult o s')))]).
Proof.
  destruct (loopTry_spec (w, step, freshResult step))
    as (o & s' & evs & H & R).
  exists o, s', evs. split; [exact H|]. split; [exact R|].
  unfold loopExecute, withResult. cbn [fst snd].
  unfold try_catch, bind at 1 2. rewrite H.
  inversion R; subst;
    repeat match goal with x : Frame |- _ => destruct x as [[? ?] ?] end;
    unfold loopCatch; sunfold; ssimpl; rewrite ?app_nil_r; reflexivity.
Qed.

Local Abbreviation directExecute_ :=
  (directExecute C payload credentials options metadata integrationManager).
Local Abbreviation directTry_ :=
  (directTry C payload credentials options metadata integrationManager).

End Proofs.
End StrategiesProofs.

(* ================================================================== *)
(** * Properties of the executor *)
(* ================================================================== *)

Import Executor ExecutorSpec ExecutorProofs.








(** C3 (as the code has it).  In a run that reaches the retry loop, attempt 0
    makes one transport call, with the supplied config, and the synthesizer
    is invoked only on an attempt of index 1 or more with self-healing
    enabled; the validator is invoked on an attempt exactly when its index
    is 1 or more, self-healing is enabled and the transport call of that
    attempt returned a non-empty response body. *)
Theorem attempt_zero_and_validation_gate {W : Type} (C : Collaborators W)
  payload credentials options metadata integration endpoint0 (w : W) :
  integration <> None \/ isSelfHealingEnabled options = true ->
  exists o w' evs,
    executeApiCall C payload credentials options metadata integration
                   endpoint0 w = (o, w', evs) /\
    (exists pre r rest,
       evs = pre ++ EvCallEndpoint 0 endpoint0 r :: rest /\
       transportAt 0 pre = false /\ transportAt 0 rest = false) /\
    generatedAt 0 evs = false /\
    (forall k, generatedAt k evs = true ->
               0 < k /\ isSelfHealingEnabled options = true) /\
    (forall k, evaluatedAt k evs = true <->
               0 < k /\ isSelfHealingEnabled options = true /\
               transportDataAt k evs = true).
Proof.
  intros Hreach.
  destruct (executeApiCall_spec C payload credentials options metadata
              integration endpoint0 w Hreach) as (o & w' & evs & Hrun & F).
  destruct F as [_ _ Fgen _ Ffirst Feval].
  assert (Hgate : forall k, gate (isSelfHealingEnabled options) k = true <->
                            0 < k /\ isSelfHealingEnabled options = true).
  { intros k. unfold gate. rewrite andb_true_iff, Nat.ltb_lt. tauto. }
  exists o, w', evs. split; [exact Hrun|]. split; [exact Ffirst|].
  split; [|split].
  - destruct (generatedAt 0 evs) eqn:E; [|reflexivity].
    apply Fgen, Hgate in E. lia.
  - intros k H. now apply Hgate, Fgen.
  - intros k. rewrite Feval, andb_true_iff, Hgate. tauto.
Qed.

(** C3, witness: a run healed at attempt 1. *)
Lemma attempt_zero_and_validation_gate_witness :
  exists o w' evs,
    executeApiCall Scenario.healingWorld JNull Scenario.secrets None
      Scenario.noMetadata None (Some (Scenario.ordersApi "/v1/orders")) 0
    = (o, w', evs) /\
    generatedAt 0 evs = false /\ evaluatedAt 1 evs = true.
Proof.
  destruct (attempt_zero_and_validation_gate Scenario.healingWorld JNull
              Scenario.secrets None Scenario.noMetadata None
              (Some (Scenario.ordersApi "/v1/orders")) 0)
    as (o & w' & evs & Hrun & _ & Hgen & _ & Heval); [right; reflexivity|].
  exists o, w', evs. split; [exact Hrun|]. split; [exact Hgen|].
  apply Heval. repeat split; [lia|].
  injection Hrun as _ _ <-. reflexivity.
Defined.

(** C3, against the claim as stated: attempt 1 of a run with self-healing
    enabled takes place, its transport call is rejected, and the validator
    is not invoked on it. *)
Lemma validator_not_invoked_after_rejected_call :
  let options := Scenario.optionsWith None (Some 2) None in
  let evs := snd (executeApiCall Scenario.failingWorld JNull Scenario.secrets
                    options Scenario.noMetadata None
                    (Some (Scenario.ordersApi "/v1/orders")) 0) in
  transportAt 1 evs = true /\
  ~ (evaluatedAt 1 evs = true <->
     0 < 1 /\ isSelfHealingEnabled options = true).
Proof.
  split; [reflexivity|].
  intros [_ H]. specialize (H (conj (le_n 1) eq_refl)). discriminate H.
Qed.

(** C4.  Self-healing is enabled by default: it is disabled exactly when
    the self-healing option is set and is neither [ENABLED] nor
    [REQUEST_ONLY]; with the option unset, or without options, it is
    enabled. *)
Theorem selfHealing_enabled_by_default (options : option RequestOptions) :
  (isSelfHealingEnabled options = false <->
   exists o m, options = Some o /\ selfHealing o = Some m /\
               m <> SelfHealingMode.ENABLED /\
               m <> SelfHealingMode.REQUEST_ONLY) /\
  isSelfHealingEnabled None = true /\
  (forall cm r hook tm,
     isSelfHealingEnabled (Some (mkRequestOptions None cm r hook tm)) = true).
Proof.
  split; [|split; [reflexivity | reflexivity]].
  split.
  - destruct options as [o|]; [|discriminate]. cbn.
    destruct (selfHealing o) as [m|] eqn:E; [|discriminate].
    destruct m; try discriminate. intros _.
    exists o, SelfHealingMode.DISABLED. repeat split; auto; discriminate.
  - intros (o & m & -> & E & H1 & H2). cbn. rewrite E.
    destruct m; congruence.
Qed.

(** C9 (where the code departs from it).  Without an integration and with
    self-healing disabled, [executeApiCall] throws a [TypeError] on reading
    [integration.documentation] before the first attempt: no call is made
    and nothing is logged. *)
Theorem no_integration_and_healing_disabled_throws {W : Type}
  (C : Collaborators W) payload credentials cm r hook tm metadata endpoint0
  (w : W) :
  executeApiCall C payload credentials
    (Some (mkRequestOptions (Some SelfHealingMode.DISABLED) cm r hook tm))
    metadata None endpoint0 w
  = (Threw (TypeError_undefined "documentation"), w, []).
Proof. reflexivity. Qed.

(** C9, the part that holds: with self-healing enabled and no integration
    the loop is reached and every documentation string that the
    synthesizer is given is empty. *)
Lemma no_integration_no_documentation {W : Type} (C : Collaborators W)
  payload credentials options metadata endpoint0 (w : W) :
  isSelfHealingEnabled options = true ->
  exists o w' evs,
    executeApiCall C payload credentials options metadata None endpoint0 w
    = (o, w', evs) /\
    Forall (fun d => d = "") (documentationSeen evs) /\
    exists r, In (EvCallEndpoint 0 endpoint0 r) evs.
Proof.
  intros Hsh.
  destruct (executeApiCall_spec C payload credentials options metadata
              None endpoint0 w (or_intror Hsh)) as (o & w' & evs & Hrun & F).
  destruct F as [_ _ _ Fdoc (pre & r & rest & -> & _) _].
  exists o, w', (pre ++ EvCallEndpoint 0 endpoint0 r :: rest).
  split; [exact Hrun|]. split; [now apply Fdoc|].
  exists r. apply in_or_app. right. now left.
Qed.

(** C10.  When the [try] block of [callResolver] throws and a webhook URL
    is configured, the webhook is notified of the failure with the raw
    [error.message], and the run record that is stored and returned carries
    [maskCredentials(error.message, credentials)]. *)
Theorem failure_notification_carries_raw_error {W : Type}
  (C : Collaborators W) input payload credentials options context
  (w w1 w2 : W) started callId url error s1 ev1 :
  webhookOf options = Some url ->
  newDate C w = (started, w1) ->
  randomUUID C w1 = (callId, w2) ->
  callResolverTry C input payload credentials options context callId started
                  (w2, None) = (Threw error, s1, ev1) ->
  exists completed w3,
    newDate C (fst s1) = (completed, w3) /\
    let record :=
      {| runResultId := callId; runSuccess := false;
         runError := Some (maskCredentials C (message error) credentials);
         runConfig := snd s1; startedAt := started;
         completedAt := completed |} in
    callResolver C input payload credentials options context w
    = (Returned {| run := record; returnedData := None |}, w3,
       ev1 ++ [EvNotifyWebhook url callId false None (Some (message error));
               EvCreateRun record]).
Proof.
  intros Hhook Hdate Hid Htry.
  destruct (newDate C (fst s1)) as [completed w3] eqn:Hdone.
  exists completed, w3. split; [reflexivity|]. cbn zeta.
  unfold callResolver, with_locals, bind, ask, try_catch. cbn [fst snd].
  rewrite Hdate. cbn [fst snd]. rewrite Hid. cbn [fst snd]. rewrite Htry.
  unfold callResolverCatch, bind, local, gets, ask, emit, ret.
  rewrite Hhook. destruct s1 as [w' ep]. cbn [fst snd] in *.
  rewrite Hdone. reflexivity.
Qed.

(** C10, witness: the post-call transform fails with a message that quotes
    the key; the webhook receives the key, the run record does not. *)
Lemma failure_notification_carries_raw_error_witness :
  exists evs record w',
    callResolver Scenario.transformFailingWorld
      {| inputId := None;
         endpointInput := Some (Scenario.ordersApi "/v1/orders") |}
      JNull Scenario.secrets
      (Scenario.optionsWith None None (Some "https://hooks.example.com/run"))
      {| contextOrgId := None |} 0
    = (Returned {| run := record; returnedData := None |}, w',
       evs ++ [EvNotifyWebhook "https://hooks.example.com/run" "run-1" false
                 None (Some "Transform failed for key s3cr3t");
               EvCreateRun record]) /\
    runError record = Some "Transform failed for key {masked_apiKey}".
Proof.
  edestruct (failure_notification_carries_raw_error
               Scenario.transformFailingWorld
               {| inputId := None;
                  endpointInput := Some (Scenario.ordersApi "/v1/orders") |}
               JNull Scenario.secrets
               (Scenario.optionsWith None None
                  (Some "https://hooks.example.com/run"))
               {| contextOrgId := None |} 0)
    as (completed & w3 & Hdone & Hrun);
    [reflexivity | reflexivity | reflexivity | reflexivity |].
  eexists _, _, _. split; [exact Hrun | reflexivity].
Defined.

(* ================================================================== *)
(** * Properties of the strategies *)
(* ================================================================== *)

Import Strategies StrategiesSpec StrategiesProofs.

Section LoopRuns.
Context {W : Type} (C : Collaborators W).
Variables (payload : Json) (metadata : Metadata).


(** The result object is built only at the end of the [try] block. *)
Lemma loop_result_untouched s e s' evs :
  TryRun C payload metadata s (Threw e) s' evs -> snd s' = snd s.
Proof.
  intros R. inversion R; subst.
  - match goal with
    | H : ExtractFacts _ _ _ _ _ |- _ =>
        now destruct H as [_ Eres _ _ _ _ _ _ _ _ _]
    end.
  - match goal with
    | H : ExtractFacts _ _ _ _ _, H' : IterateRun _ _ _ _ _ _ _ _ _ _ _ |- _ =>
        destruct H as [_ Eres _ _ _ _ _ _ _ _ _];
        destruct (iterate_facts C payload _ _ _ _ _ _ _ _ _ H')
          as ([Pres _ _ _ _ _] & _)
    end.
    congruence.
Qed.

Lemma no_executor_call evs :
  Forall (fun ev => isExecutorCall ev = false) evs ->
  executorCalls evs = 0 /\ executorFailed evs = false.
Proof.
  induction 1 as [|ev evs Hev _ [IHc IHf]]; [easy|].
  unfold executorCalls, executorFailed in *. cbn.
  rewrite Hev, IHf. split; [exact IHc|].
  destruct ev; try reflexivity. discriminate Hev.
Qed.

End LoopRuns.


Lemma get_field_set_field k v fields :
  get_field k (set_field k v fields) = v.
Proof.
  induction fields as [|[k' v'] rest IH]; cbn.
  - now rewrite String.eqb_refl.
  - destruct (String.eqb k k') eqn:E; cbn; rewrite ?String.eqb_refl, ?E; auto.
Qed.





(** A loop over no items ends at once. *)
Lemma iterate_nothing {W : Type} (C : Collaborators W) payload
  total i sc results s o s' evs :
  IterateRun C payload total i [] sc results s o s' evs ->
  o = Returned results /\ s' = s /\ evs = [].
Proof. intros R. inversion R; subst. auto. Qed.

(** C7 (as the code has it).  The selector is regenerated at most once and
    the items are extracted at most twice.  When the first extraction
    yields no item (and the payload is an object or an array), the selector
    synthesizer is invoked exactly once; the extraction is retried, once,
    exactly when the synthesizer returns a mapping.  If the retried
    extraction yields no item either, or if the synthesizer returns no
    mapping, the executor is never called and the result has
    [success = true] with empty raw and transformed data; if the
    synthesizer or the retried extraction throws, the result has
    [success = false]. *)
Theorem selector_regenerated_at_most_once {W : Type} (C : Collaborators W)
  payload credentials options metadata integrationManager (w : W) step :
  nullish payload = false ->
  exists r s' evs,
    loopExecute C payload credentials options metadata integrationManager
                (w, step) = (Returned r, s', evs) /\
    List.length (regenerations evs) <= 1 /\
    List.length (extractions evs) <= 2 /\
    forall r1 more,
      extractions evs = Ok r1 :: more -> itemsOf r1 = [] ->
      exists g, regenerations evs = [g] /\
        match g with
        | Raise _ => more = [] /\ success r = false
        | Ok code =>
            if truthy_opt code then
              exists c2, more = [c2] /\
                match c2 with
                | Ok r2 =>
                    itemsOf r2 = [] ->
                    executorCalls evs = 0 /\ success r = true /\
                    rawData r = Some (JArr []) /\
                    transformedData r = Some (JArr [])
                | Raise _ => success r = false
                end
            else
              more = [] /\ executorCalls evs = 0 /\ success r = true /\
              rawData r = Some (JArr []) /\
              transformedData r = Some (JArr [])
        end.
Proof.
  intros Hpayload.
  destruct (loopExecute_spec C payload credentials options metadata
              integrationManager w step) as (o & s1 & evs0 & _ & R & Hspec).
  eexists _, _, _. split; [exact Hspec|].
  rewrite regenerations_app, extractions_app, executorCalls_app.
  cbn [regenerations extractions flat_map executorCalls filter isExecutorCall
       List.length]. rewrite !app_nil_r, Nat.add_0_r.
  inversion R; subst.
  - (* the selection of the items threw *)
    match goal with
    | H : ExtractFacts _ _ _ _ _ |- _ =>
        destruct H as [_ _ _ _ _ _ _ Eregen Eextr Eempty _]
    end.
    split; [exact Eregen|]. split; [exact Eextr|].
    intros r1 more Hfirst Hnone.
    specialize (Eempty r1 more Hfirst Hnone Hpayload).
    unfold AfterEmpty in Eempty.
    destruct (regenerations evs0) as [|[code|e'] [|? ?]]; try contradiction.
    + exists (Ok code). split; [reflexivity|].
      destruct (truthy_opt code).
      * destruct Eempty as (c2 & -> & Hc2). exists c2. split; [reflexivity|].
        destruct c2 as [r2|e2]; [|reflexivity].
        intros Hr2. discriminate (Hc2 Hr2).
      * destruct Eempty as (_ & Habs). discriminate Habs.
    + exists (Raise e'). split; [reflexivity|].
      destruct Eempty as (-> & _). split; reflexivity.
  - (* an iteration threw *)
    match goal with
    | H : ExtractFacts _ _ _ _ _,
      H' : IterateRun _ _ _ _ _ _ _ _ _ _ _ |- _ =>
        destruct H as [_ _ _ _ _ _ _ Eregen Eextr Eempty _];
        rename H' into Hloop
    end.
    destruct (iterate_facts C payload _ _ _ _ _ _ _ _ _ Hloop)
      as ([_ _ _ _ Pextr Pregen] & _).
    rewrite regenerations_app, extractions_app, Pextr, Pregen, !app_nil_r.
    split; [exact Eregen|]. split; [exact Eextr|].
    intros r1 more Hfirst Hnone.
    specialize (Eempty r1 more Hfirst Hnone Hpayload).
    unfold AfterEmpty in Eempty.
    assert (Hnot : Returned items <> Returned (@nil Json)).
    { intros E. injection E as ->.
      destruct (iterate_nothing C payload _ _ _ _ _ _ _ _ Hloop) as (Habs & _).
      discriminate Habs. }
    destruct (regenerations evs1) as [|[code|e'] [|? ?]]; try contradiction.
    + exists (Ok code). split; [reflexivity|].
      destruct (truthy_opt code).
      * destruct Eempty as (c2 & -> & Hc2). exists c2. split; [reflexivity|].
        destruct c2 as [r2|e2]; [|reflexivity].
        intros Hr2. destruct (Hnot (Hc2 Hr2)).
      * destruct Eempty as (_ & Habs). destruct (Hnot Habs).
    + destruct Eempty as (_ & Habs). discriminate Habs.
  - (* every iteration was done *)
    match goal with
    | H : ExtractFacts _ _ _ _ _,
      H' : IterateRun _ _ _ _ _ _ _ _ _ _ _ |- _ =>
        destruct H as [_ _ _ _ _ Eexec _ Eregen Eextr Eempty _];
        rename H' into Hloop
    end.
    destruct (iterate_facts C payload _ _ _ _ _ _ _ _ _ Hloop)
      as ([_ _ _ _ Pextr Pregen] & _).
    destruct (no_executor_call _ Eexec) as (Hcalls & _).
    rewrite regenerations_app, extractions_app, executorCalls_app,
      Pextr, Pregen, Hcalls, !app_nil_r.
    split; [exact Eregen|]. split; [exact Eextr|].
    intros r1 more Hfirst Hnone.
    specialize (Eempty r1 more Hfirst Hnone Hpayload).
    unfold AfterEmpty in Eempty.
    assert (Hempty : Returned items = Returned (@nil Json) ->
                     executorCalls evs2 = 0 /\ rs = []).
    { intros E. injection E as ->.
      destruct (iterate_nothing C payload _ _ _ _ _ _ _ _ Hloop)
        as (Hrs & _ & ->).
      injection Hrs as ->. split; reflexivity. }
    cbn [finalResult success rawData transformedData snd].
    destruct (regenerations evs1) as [|[code|e'] [|? ?]]; try contradiction.
    + exists (Ok code). split; [reflexivity|].
      destruct (truthy_opt code).
      * destruct Eempty as (c2 & -> & Hc2). exists c2. split; [reflexivity|].
        destruct c2 as [r2|e2]; [|discriminate Hc2].
        intros Hr2. destruct (Hempty (Hc2 Hr2)) as (-> & ->).
        repeat split; reflexivity.
      * destruct Eempty as (-> & Hitems).
        destruct (Hempty Hitems) as (-> & ->). repeat split; reflexivity.
    + destruct Eempty as (_ & Habs). discriminate Habs.
Qed.

(** C7, witness: the selector finds no item, the synthesized selector finds
    none either. *)
Lemma selector_regenerated_at_most_once_witness :
  exists r s' evs,
    loopExecute (Scenario.strategyWorld 0 (Some "items")) Scenario.noItems
      Scenario.secrets Scenario.plainOptions Scenario.noMetadata None
      (0, Scenario.loopStep (Some "items")) = (Returned r, s', evs) /\
    List.length (regenerations evs) = 1 /\
    List.length (extractions evs) = 2 /\
    executorCalls evs = 0 /\ success r = true /\ rawData r = Some (JArr []).
Proof.
  destruct (selector_regenerated_at_most_once
              (Scenario.strategyWorld 0 (Some "items")) Scenario.noItems
              Scenario.secrets Scenario.plainOptions Scenario.noMetadata None
              0 (Scenario.loopStep (Some "items")) eq_refl)
    as (r & s' & evs & Hrun & _ & _ & Hempty).
  exists r, s', evs. split; [exact Hrun|].
  vm_compute in Hrun. injection Hrun as <- <- <-.
  split; [reflexivity|]. split; [reflexivity|].
  destruct (Hempty _ _ eq_refl eq_refl) as (g & Hg & Hcase).
  injection Hg as <-. cbn in Hcase.
  destruct Hcase as (c2 & Hc2 & Hdone). injection Hc2 as <-.
  destruct (Hdone eq_refl) as (Hcalls & Hs & Hraw & _).
  split; [exact Hcalls|]. split; [exact Hs | exact Hraw].
Defined.

(** C7, against the claim as stated: the first extraction yields no item
    and the synthesizer returns no mapping; the selector is regenerated
    once and no second extraction follows. *)
Lemma no_second_extraction_without_mapping :
  let evs := snd (loopExecute (Scenario.strategyWorld 0 None) Scenario.noItems
                    Scenario.secrets Scenario.plainOptions Scenario.noMetadata
                    None (0, Scenario.loopStep (Some "items"))) in
  (exists r1, extractions evs = [Ok r1] /\ itemsOf r1 = []) /\
  regenerations evs = [Ok None] /\
  extractionCalls evs = 1.
Proof. vm_compute. split; [eexists; split; reflexivity|]. split; reflexivity. Qed.



(* ================================================================== *)
(** * Inversion of the monad's operations *)
(* ================================================================== *)

Module EffectFacts.


(** A sequence that throws: the first part threw, or it returned and the
    second part threw. *)
Lemma bind_threw {E S A B} (m : M E S A) (f : A -> M E S B) s e s' evs :
  bind m f s = (Threw e, s', evs) ->
  m s = (Threw e, s', evs) \/
  exists a s1 ev1 ev2,
    m s = (Returned a, s1, ev1) /\ f a s1 = (Threw e, s', ev2) /\
    evs = ev1 ++ ev2.
Proof.
  unfold bind. destruct (m s) as [[[a|e0|] s1] ev1]; try discriminate.
  - destruct (f a s1) as [[o s2] ev2] eqn:Hf. intros H. injection H as -> <- <-.
    right. now exists a, s1, ev1, ev2.
  - intros H. injection H as <- <- <-. now left.
Qed.

End EffectFacts.

(* ================================================================== *)
(** * Further properties of the strategies *)
(* ================================================================== *)

Import StrategiesTrace.

Module StrategiesCalls.
Import Strategies StrategiesSpec StrategiesProofs.

Lemma executorLog_app evs1 evs2 :
  executorLog (evs1 ++ evs2) = executorLog evs1 ++ executorLog evs2.
Proof. apply flat_map_app. Qed.

Lemma executorLog_length evs :
  List.length (executorLog evs) = executorCalls evs.
Proof.
  unfold executorLog, executorCalls.
  induction evs as [|ev evs IH]; [reflexivity|].
  destruct ev; cbn; auto.
Qed.

Lemma executorLog_none evs :
  Forall (fun ev => isExecutorCall ev = false) evs -> executorLog evs = [].
Proof.
  induction 1 as [|ev evs Hev _ IH]; [reflexivity|].
  destruct ev; try discriminate; exact IH.
Qed.

Section Calls.
Context {W : Type} (C : Collaborators W).
Variables (payload : Json) (credentials : Credentials)
          (options : RequestOptions) (metadata : Metadata)
          (integrationManager : option IntegrationManager).

Local Abbreviation argsOf :=
  (executeArgsOf C payload credentials options metadata integrationManager).

(** One pass of the loop body makes one call to the executor. *)
Lemma iteration_call i total item sc results s :
  exists o s' evs r,
    iteration C payload credentials options metadata integrationManager
              i total item sc results s = (o, s', evs) /\
    executorLog evs = [(argsOf (configFor sc s) (currentItemOf item), r)] /\
    match o with
    | Returned (sc', results') =>
        exists resp raw t,
          r = Ok resp /\ sc' = Some (responseEndpoint resp) /\
          apiConfig (snd (fst s')) = responseEndpoint resp /\
          results' = results ++
            [mkWorkflowStepResult (stepId (snd (fst s))) true (Some raw)
               (Some t) (responseEndpoint resp) None] /\
          raw = rawDataOf (currentItemOf item) (responseData resp)
    | Threw _ => apiConfig (snd (fst s')) = apiConfig (snd (fst s))
    | OutOfFuel => False
    end.
Proof.
  destruct s as [[w step] res].
  unfold iteration, iterationTry, iterationCatch, configFor. sunfold. ssimpl.
  scall_step; ssimpl.
  - destruct (sameObject C (responseEndpoint resp) (apiConfig step)); ssimpl;
      scall_step; ssimpl; eexists _, _, _, _;
      (split; [reflexivity|]); (split; [reflexivity|]);
      try reflexivity; eexists _, _, _; repeat split; reflexivity.
  - eexists _, _, _, _. split; [reflexivity|]. split; reflexivity.
Qed.

(** What the calls of a loop over [items] look like, from pass [i] on. *)
Lemma iterate_calls total items : forall i sc results s,
  exists o s' evs,
    iterate C payload credentials options metadata integrationManager
            i total items sc results s = (o, s', evs) /\
    chained (configFor sc s) (executorLog evs) /\
    Forall2 (fun call item =>
               fst call = argsOf (argEndpoint (fst call)) (currentItemOf item))
            (executorLog evs) (firstn (executorCalls evs) items) /\
    match o with
    | Returned rs =>
        apiConfig (snd (fst s'))
        = lastEndpoint (apiConfig (snd (fst s))) (executorLog evs) /\
        map rawData rs
        = map rawData results ++
          map (fun c => match c with
                        | (args, Ok resp) =>
                            Some (rawDataOf (opt_get "currentItem"
                                               (argPayload args))
                                            (responseData resp))
                        | (_, Raise _) => None
                        end) (executorLog evs)
    | Threw _ => True
    | OutOfFuel => False
    end.
Proof.
  induction items as [|item rest IH]; intros i sc results s.
  - eexists _, _, _. split; [reflexivity|]. cbn.
    repeat split; auto. now rewrite app_nil_r.
  - destruct (iteration_call i total item sc results s)
      as (o1 & s1 & evs1 & r & Hone & Hlog & Hout).
    cbn [iterate]. unfold bind at 1. rewrite Hone.
    assert (Hc1 : executorCalls evs1 = 1).
    { now rewrite <- executorLog_length, Hlog. }
    destruct o1 as [[sc' results']|e|]; [| |contradiction].
    + destruct Hout as (resp & raw & t & -> & -> & Hcfg & -> & ->).
      cbn [fst snd].
      destruct (IH (S i) (Some (responseEndpoint resp))
                   (results ++
                    [mkWorkflowStepResult (stepId (snd (fst s))) true
                       (Some (rawDataOf (currentItemOf item)
                                        (responseData resp)))
                       (Some t) (responseEndpoint resp) None]) s1)
        as (o2 & s2 & evs2 & Hrest & Hch & Hitems & Hout2).
      rewrite Hrest. eexists _, _, _. split; [reflexivity|].
      rewrite executorLog_app, executorCalls_app, Hlog, Hc1.
      cbn [app Nat.add firstn chained fst snd argEndpoint executeArgsOf].
      split; [split; [reflexivity|exact Hch]|].
      split; [constructor; [reflexivity|exact Hitems]|].
      destruct o2 as [rs|e2|]; [|exact I|contradiction].
      destruct Hout2 as (Hcfg2 & Hraw). cbn [lastEndpoint].
      rewrite Hcfg2, Hcfg. split; [reflexivity|].
      rewrite Hraw, map_app, <- app_assoc. cbn [map app rawData].
      unfold executeArgsOf at 1. cbn [argPayload].
      unfold loopPayloadOf, merge_fields. cbn [fold_left fst snd opt_get].
      now rewrite get_field_set_field.
    + eexists _, _, _. split; [reflexivity|].
      rewrite Hlog, Hc1. cbn [firstn chained fst snd argEndpoint executeArgsOf].
      split; [split; [reflexivity|destruct r; [exact I|reflexivity]]|].
      split; [repeat constructor|exact I].
Qed.


End Calls.
End StrategiesCalls.

Section LoopCalls.
Import Strategies StrategiesSpec StrategiesProofs StrategiesCalls.
Context {W : Type} (C : Collaborators W).
Variables (payload : Json) (credentials : Credentials)
          (options : RequestOptions) (metadata : Metadata)
          (integrationManager : option IntegrationManager).


(** The log of the outer [try] block, whatever its outcome: the selection
    of the items, which calls no executor, then the passes of the loop. *)
Lemma loopTry_calls s :
  exists o s' evs,
    loopTry C payload credentials options metadata integrationManager s
    = (o, s', evs) /\
    match extractItems C payload metadata s with
    | (Returned items, s1, evs1) =>
        exists o2 s2 evs2,
          iterate C payload credentials options metadata integrationManager
                  0 (List.length items) items None [] s1 = (o2, s2, evs2) /\
          executorLog evs = executorLog evs2 /\
          executorCalls evs = executorCalls evs2 /\
          apiConfig (snd (fst s1)) = apiConfig (snd (fst s)) /\
          sameOtherFields (snd (fst s)) (snd (fst s1))
    | _ => executorLog evs = [] /\ executorCalls evs = 0
    end.
Proof.
  destruct (extractItems_spec C payload metadata s)
    as (o1 & s1 & evs1 & H1 & F1).
  pose proof (executorLog_none _ (ef_executor _ _ _ _ _ F1)) as Hlog1.
  assert (Hc1 : executorCalls evs1 = 0).
  { now rewrite <- executorLog_length, Hlog1. }
  unfold loopTry. unfold bind at 1. rewrite H1.
  destruct o1 as [items|e|].
  - destruct (iterate C payload credentials options metadata
                integrationManager 0 (List.length items) items None [] s1)
      as [[o2 s2] evs2] eqn:H2.
    unfold bind at 1. rewrite H2.
    assert (Hshared : executorLog (evs1 ++ evs2) = executorLog evs2 /\
                      executorCalls (evs1 ++ evs2) = executorCalls evs2).
    { now rewrite executorLog_app, executorCalls_app, Hlog1, Hc1. }
    destruct Hshared as (Hl & Hc).
    destruct o2 as [rs|e|].
    + destruct s2 as [[w2 step2] res2].
      unfold bind, readStep, writeResult, modify, gets, ret, worldOf, stepOf,
        resultOf. cbn [fst snd app].
      eexists _, _, _. split; [reflexivity|].
      exists (Returned rs), (w2, step2, res2), evs2.
      rewrite !app_nil_r. repeat split; auto;
        solve [apply (ef_config _ _ _ _ _ F1)
              |apply (ef_fields _ _ _ _ _ F1)].
    + eexists _, _, _. split; [reflexivity|].
      exists (Threw e), s2, evs2. repeat split; auto;
        solve [apply (ef_config _ _ _ _ _ F1)
              |apply (ef_fields _ _ _ _ _ F1)].
    + eexists _, _, _. split; [reflexivity|].
      exists OutOfFuel, s2, evs2. repeat split; auto;
        solve [apply (ef_config _ _ _ _ _ F1)
              |apply (ef_fields _ _ _ _ _ F1)].
  - eexists _, _, _. split; [reflexivity|]. now split.
  - eexists _, _, _. split; [reflexivity|]. now split.
Qed.

(** The log of the loop strategy is that of its [try] block and the final
    line. *)
Lemma loopExecute_log w step :
  exists o s' evs,
    loopTry C payload credentials options metadata integrationManager
            (w, step, freshResult step) = (o, s', evs) /\
    loopExecute C payload credentials options metadata integrationManager
                (w, step)
    = (Returned (finalResult o s'), fst s',
       evs ++ [EvLog "info" (completionLog (stepId (snd (fst s')))
                               (success (finalResult o s')))]) /\
    forall more, executorLog (evs ++ [EvLog "info" more]) = executorLog evs /\
                 executorCalls (evs ++ [EvLog "info" more]) = executorCalls evs.
Proof.
  destruct (loopExecute_spec C payload credentials options metadata
              integrationManager w step) as (o & s' & evs & Htry & _ & Hrun).
  exists o, s', evs. split; [exact Htry|]. split; [exact Hrun|].
  intros more. rewrite executorLog_app, executorCalls_app. cbn.
  now rewrite app_nil_r, Nat.add_0_r.
Qed.

End LoopCalls.


(** X2.  Every call that the loop strategy makes to the executor is given
    the config returned by the call before it, and the first call the
    config of the step: a config learned on one item is used for the items
    after it.  A rejected call is the last one. *)
Theorem loop_calls_chain_configs {W : Type} (C : Strategies.Collaborators W)
  payload credentials options metadata integrationManager (w : W) step :
  exists r s' evs,
    Strategies.loopExecute C payload credentials options metadata
      integrationManager (w, step) = (Returned r, s', evs) /\
    chained (Strategies.apiConfig step) (executorLog evs).
Proof.
  destruct (loopExecute_log C payload credentials options metadata
              integrationManager w step) as (o & s' & evs & Htry & Hrun & Hlast).
  eexists _, _, _. split; [exact Hrun|].
  destruct (Hlast (Strategies.completionLog
                     (Strategies.stepId (snd (fst s')))
                     (Strategies.success (StrategiesSpec.finalResult o s'))))
    as (-> & _).
  destruct (loopTry_calls C payload credentials options metadata
              integrationManager (w, step, Strategies.freshResult step))
    as (o' & s'' & evs' & Htry' & Hcalls).
  rewrite Htry in Htry'. injection Htry' as <- <- <-.
  destruct (Strategies.extractItems C payload metadata
              (w, step, Strategies.freshResult step))
    as [[[items|e|] s1] evs1] eqn:Hext;
    [|destruct Hcalls as (-> & _); exact I..].
  destruct Hcalls as (o2 & s2 & evs2 & Hloop & -> & _ & Hcfg & _).
  destruct (StrategiesCalls.iterate_calls C payload credentials options
              metadata integrationManager (List.length items) items 0 None []
              s1) as (o3 & s3 & evs3 & Hloop' & Hch & _).
  rewrite Hloop in Hloop'. injection Hloop' as <- <- <-.
  unfold configFor in Hch. cbn [fst snd] in Hcfg.
  now rewrite Hcfg in Hch.
Qed.




(** X5.  A loop step without a selector, on a payload that is not an array,
    fails at once with the error "loopSelector is required for LOOP
    execution mode": no collaborator is called, the step is left as it
    was, and only the closing line is logged. *)
Theorem loop_without_selector_fails {W : Type}
  (C : Strategies.Collaborators W)
  payload credentials options metadata integrationManager (w : W) step :
  truthy_opt (Strategies.loopSelector step) = false ->
  isArray payload = false ->
  Strategies.loopExecute C payload credentials options metadata
    integrationManager (w, step)
  = (Returned
       (Strategies.mkWorkflowStepResult (Strategies.stepId step) false
          None None (Strategies.apiConfig step)
          (Some (Strategies.ErrText
                   "loopSelector is required for LOOP execution mode"))),
     (w, step),
     [Strategies.EvLog "info"
        (Strategies.completionLog (Strategies.stepId step) false)]).
Proof.
  intros Hsel Harr.
  unfold Strategies.loopExecute, Strategies.withResult, Strategies.loopTry,
    Strategies.loopCatch, Strategies.extractItems, Strategies.resolveSelector,
    try_catch, bind, when, Strategies.readStep, Strategies.readResult,
    Strategies.writeResult, Strategies.logMessage, gets, modify, emit, throw,
    ret, Strategies.stepOf, Strategies.worldOf, Strategies.resultOf.
  cbn [fst snd]. rewrite Hsel, Harr. reflexivity.
Qed.

(** X5, witness: an object payload and no selector. *)
Lemma loop_without_selector_fails_witness :
  exists r s' evs,
    Strategies.loopExecute (Scenario.strategyWorld 0 None) Scenario.threeItems
      Scenario.secrets Scenario.plainOptions Scenario.noMetadata None
      (0, Scenario.loopStep None) = (Returned r, s', evs) /\
    Strategies.success r = false /\
    Strategies.executorCalls evs = 0.
Proof.
  rewrite (loop_without_selector_fails (Scenario.strategyWorld 0 None)
             Scenario.threeItems Scenario.secrets Scenario.plainOptions
             Scenario.noMetadata None 0 (Scenario.loopStep None) eq_refl
             eq_refl).
  eexists _, _, _. repeat split; reflexivity.
Defined.

(** X6.  A step whose execution mode is not ["LOOP"] is executed directly:
    the executor is called once, with the config of the step and with the
    payload, credentials and options of the caller as they are; the
    response mapping is evaluated, once, only when that call was accepted;
    the step is not changed.  The result of a run that succeeds carries the
    response and the config that the executor returned; when the executor
    or the mapping fails, the result has no data and keeps the config of
    the step. *)
Theorem direct_step_makes_one_call {W : Type}
  (C : Strategies.Collaborators W)
  payload credentials options metadata integrationManager (w : W) step :
  Strategies.executionMode step <> "LOOP" ->
  exists r w' evs c,
    Strategies.execute (Strategies.selectStrategy C step) payload credentials
      options metadata integrationManager (w, step)
    = (Returned r, (w', step), evs) /\
    executorLog evs
    = [({| Strategies.argEndpoint := Strategies.apiConfig step;
           Strategies.argPayload := payload;
           Strategies.argCredentials := credentials;
           Strategies.argOptions := options;
           Strategies.argMetadata := metadata;
           Strategies.argIntegrationManager := integrationManager |}, c)] /\
    match c with
    | Ok resp =>
        mappingLog evs
        = [(Strategies.stepResponseMapping step, Strategies.responseData resp)]
        /\
        (Strategies.success r = true ->
         Strategies.rawData r = Some (Strategies.responseData resp) /\
         Strategies.config r = Strategies.responseEndpoint resp /\
         Strategies.error r = None) /\
        (Strategies.success r = false ->
         Strategies.rawData r = None /\ Strategies.transformedData r = None /\
         Strategies.config r = Strategies.apiConfig step)
    | Raise e =>
        mappingLog evs = [] /\
        r = Strategies.mkWorkflowStepResult (Strategies.stepId step) false
              None None (Strategies.apiConfig step)
              (Some (Strategies.ErrText
                       (Strategies.directFailureText
                          (Strategies.stepId step) e)))
    end.
Proof.
  intros Hmode. unfold Strategies.selectStrategy.
  destruct (String.eqb_spec (Strategies.executionMode step) "LOOP") as [E|_];
    [contradiction|].
  cbn [Strategies.execute Strategies.directStrategy].
  unfold Strategies.directExecute, Strategies.withResult, Strategies.directTry,
    Strategies.directCatch, Strategies.freshResult.
  StrategiesProofs.sunfold. StrategiesProofs.ssimpl.
  repeat (StrategiesProofs.scall_step; StrategiesProofs.ssimpl);
    eexists _, _, _, _; (split; [reflexivity|]); (split; [reflexivity|]);
    cbn; repeat split; try reflexivity; intros; discriminate.
Qed.

(** X6, witness: a step in mode ["DIRECT"]. *)
Lemma direct_step_makes_one_call_witness :
  exists r s' evs,
    Strategies.execute
      (Strategies.selectStrategy (Scenario.strategyWorld 0 None)
         (Strategies.mkExecutionStep "fetch" (Scenario.ordersApi "/v1/orders")
            "DIRECT" None None None))
      JNull Scenario.secrets Scenario.plainOptions Scenario.noMetadata None
      (0, Strategies.mkExecutionStep "fetch" (Scenario.ordersApi "/v1/orders")
            "DIRECT" None None None)
    = (Returned r, s', evs) /\
    Strategies.executorCalls evs = 1.
Proof.
  destruct (direct_step_makes_one_call (Scenario.strategyWorld 0 None)
              JNull Scenario.secrets Scenario.plainOptions Scenario.noMetadata
              None 0
              (Strategies.mkExecutionStep "fetch"
                 (Scenario.ordersApi "/v1/orders") "DIRECT" None None None))
    as (r & w' & evs & c & Hrun & Hlog & _); [discriminate|].
  exists r, (w', Strategies.mkExecutionStep "fetch"
                   (Scenario.ordersApi "/v1/orders") "DIRECT" None None None),
    evs.
  split; [exact Hrun|].
  now rewrite <- StrategiesCalls.executorLog_length, Hlog.
Defined.

(** X7.  The result of the loop strategy always names the step it was run
    for and carries the config of the step as the run leaves it, when the
    loop was done and when it was aborted; a result that failed holds no
    data, so the results of the passes done before a failure are
    dropped. *)
Theorem loop_result_config_and_data {W : Type}
  (C : Strategies.Collaborators W)
  payload credentials options metadata integrationManager (w : W) step :
  exists r w' step' evs,
    Strategies.loopExecute C payload credentials options metadata
      integrationManager (w, step) = (Returned r, (w', step'), evs) /\
    Strategies.resultStepId r = Strategies.stepId step /\
    Strategies.config r = Strategies.apiConfig step' /\
    (Strategies.success r = false ->
     Strategies.rawData r = None /\ Strategies.transformedData r = None /\
     exists v, Strategies.error r = Some v).
Proof.
  destruct (StrategiesProofs.loopExecute_spec C payload credentials options
              metadata integrationManager w step)
    as (o & s' & evs & _ & R & Hrun).
  destruct s' as [[w' step'] res'].
  eexists _, w', step', _. split; [exact Hrun|].
  inversion R as [e s1 evs1 Hext E
                 |items s1 evs1 e s2 evs2 Hext E Hloop
                 |items s1 evs1 rs s2 evs2 Hext E Hloop]; subst;
    cbn [StrategiesSpec.finalResult StrategiesSpec.failedResult fst snd
         Strategies.resultStepId Strategies.config Strategies.success
         Strategies.rawData Strategies.transformedData Strategies.error].
  - pose proof (StrategiesSpec.ef_result _ _ _ _ _ E) as Hres.
    cbn [snd] in Hres. subst res'.
    repeat split; try reflexivity; eauto.
  - pose proof (loop_result_untouched C payload metadata _ _ _ _ R) as Hres.
    cbn [snd] in Hres. subst res'.
    repeat split; try reflexivity; eauto.
  - destruct s2 as [[w2 step2] res2].
    pose proof (StrategiesSpec.ef_result _ _ _ _ _ E) as Hres1.
    destruct (StrategiesProofs.iterate_facts C payload _ _ _ _ _ _ _ _ _ Hloop)
      as ([Hres2 _ _ _ _ _] & _).
    cbn [snd fst] in *. match goal with H : (_, _) = (_, _) |- _ =>
                                 injection H as <- <- end.
    rewrite Hres2, Hres1. cbn.
    repeat split; try reflexivity; intros; discriminate.
Qed.

(* ================================================================== *)
(** * Further properties of the executor *)
(* ================================================================== *)

Import ExecutorTrace.

Module ExecutorCalls.
Import Executor ExecutorSpec ExecutorProofs.

Section Attempt.
Context {W : Type} (C : Collaborators W).
Variables (payload : Json) (credentials : Credentials)
          (options : option RequestOptions) (sh : bool) (doc : string).

Ltac catch_run :=
  match goal with
  | |- context [attemptCatch ?C' ?cr ?e (?w, ?l)] =>
      let H := fresh "Hcatch" in
      let l' := fresh "l'" in
      destruct (attemptCatch_run C' cr e w l)
        as (l' & ? & H & ? & ? & ? & ? & ? & _ & _ & ->);
      rewrite H; clear H
  end.

Ltac paths l :=
  munfold; msimpl;
  destruct ((0 <? retryCount l) && sh) eqn:?Hgate; msimpl;
  repeat (call_step; msimpl);
  repeat match goal with
         | |- context [truthy (data ?r)] =>
             destruct (truthy (data r)) eqn:?Hdata; msimpl;
             repeat (call_step; msimpl)
         | |- context [evalSuccess ?v] =>
             destruct (evalSuccess v) eqn:?Hverdict; msimpl
         end;
  try catch_run; msimpl.

Ltac inj H := injection H; clear H; intros; subst.

Ltac in_cases :=
  repeat match goal with
         | H : In _ (_ :: _) |- _ => destruct H as [H|H]
         | H : In _ [] |- _ => destruct H
         | H : In _ (_ ++ _) |- _ => apply in_app_or in H; destruct H as [H|H]
         end;
  try discriminate.

(** One pass of the loop body: which calls it makes, and with what. *)
Lemma attempt_calls w l :
  exists b w' l' evs,
    attempt C payload credentials options sh doc (w, l)
      = (Returned b, (w', l'), evs) /\
    Forall (fun ev => isLoopEvent ev = true) evs /\
    (forall k ep r, In (EvCallEndpoint k ep r) evs ->
       ep = endpoint l' /\
       forall ep' r', In (EvCallEndpoint k ep' r') evs -> ep' = ep /\ r' = r) /\
    (forall k ep d msgs res,
       In (EvGenerateApiConfig k ep d msgs res) evs ->
       ep = endpoint l /\ msgs = messages l /\
       match res with
       | Ok g => endpoint l' = Some (config g) /\
                 exists r, In (EvCallEndpoint k (endpoint l') r) evs
       | Raise _ => endpoint l' = endpoint l /\ transportCalls evs = 0
       end) /\
    (gate sh (retryCount l) = false -> endpoint l' = endpoint l) /\
    (b = true ->
     exists resp,
       In (EvCallEndpoint (retryCount l) (endpoint l') (Ok resp)) evs /\
       response l' = Some resp /\ truthy (data resp) = true).
Proof.
  paths l.
  all: eexists _, _, _, _; (split; [reflexivity|]).
  all: cbn [endpoint messages response retryCount success set_endpoint
            set_messages set_response set_success] in *.
  all: repeat match goal with
              | H : endpoint ?x = _ |- _ => rewrite !H; clear H
              | H : response ?x = _ |- _ => rewrite !H; clear H
              | H : success ?x = _ |- _ => rewrite !H; clear H
              | H : retryCount ?x = _ |- _ => clear H
              end.
  all: split; [repeat constructor|].
  all: split; [intros k ep r Hin; in_cases; inj Hin;
               (split; [congruence|]);
               intros ep' r' Hin'; in_cases; inj Hin';
               split; reflexivity|].
  all: split; [intros k ep d msgs res Hin; in_cases; inj Hin;
               (split; [reflexivity|]); (split; [reflexivity|]);
               try (split; [congruence|reflexivity]);
               (split; [congruence|]); eexists; cbn; eauto|].
  all: split; [unfold gate; intros Hg; try congruence|].
  all: intros Hb;
       first [discriminate Hb
             |eexists; split; [cbn; eauto|split; [reflexivity|assumption]]].
Qed.

Local Abbreviation budget := (retryBudget options).

(** The whole loop, started with [success = false]: which calls it makes,
    and with what. *)
Lemma doWhile_calls fuel : forall w l,
  budget - retryCount l <= fuel -> 1 <= fuel -> success l = false ->
  exists w' l' evs,
    doWhile C payload credentials options sh doc fuel (w, l)
      = (Returned tt, (w', l'), evs) /\
    Forall (fun ev => isLoopEvent ev = true) evs /\
    (forall ev k, In ev evs -> attemptOf ev = Some k ->
       retryCount l <= k < Nat.max (retryCount l + 1) budget) /\
    (forall k ep r, In (EvCallEndpoint k ep r) evs ->
       forall ep' r', In (EvCallEndpoint k ep' r') evs -> ep' = ep /\ r' = r) /\
    (forall k ep d msgs g,
       In (EvGenerateApiConfig k ep d msgs (Ok g)) evs ->
       exists r, In (EvCallEndpoint k (Some (config g)) r) evs) /\
    (sh = false ->
     endpoint l' = endpoint l /\
     forall k ep r, In (EvCallEndpoint k ep r) evs -> ep = endpoint l) /\
    (success l' = true ->
     exists k resp,
       In (EvCallEndpoint k (endpoint l') (Ok resp)) evs /\
       response l' = Some resp /\ truthy (data resp) = true /\
       forall k' ep r, In (EvCallEndpoint k' ep r) evs -> k' <= k).
Proof.
  induction fuel as [|fuel IH]; intros w l Hfuel Hpos Hs; [lia|].
  destruct (attempt_spec C payload credentials options sh doc w l)
    as (b & w1 & l1 & evs1 & Hatt & F).
  destruct (attempt_calls w l)
    as (b' & w1' & l1' & evs1' & Hatt' & Gev & Gcall & Ggen & Ggate & Gbreak).
  rewrite Hatt in Hatt'. injection Hatt' as <- <- <- <-.
  cbn [doWhile]. unfold bind at 1. rewrite Hatt.
  destruct F as [Frc Fcalls Fbreak Ffail Findex _ _ _ _].
  assert (Hidx : forall ev k, In ev evs1 -> attemptOf ev = Some k ->
                              k = retryCount l).
  { intros ev k Hin. exact (proj1 (Forall_forall _ _) Findex ev Hin k). }
  assert (Hgen1 : forall k ep d msgs g,
            In (EvGenerateApiConfig k ep d msgs (Ok g)) evs1 ->
            exists r, In (EvCallEndpoint k (Some (config g)) r) evs1).
  { intros k ep d msgs g Hin.
    destruct (Ggen _ _ _ _ _ Hin) as (_ & _ & <- & Hr). exact Hr. }
  assert (Hoff : sh = false ->
            endpoint l1 = endpoint l /\
            forall k ep r, In (EvCallEndpoint k ep r) evs1 -> ep = endpoint l).
  { intros ->. assert (Hg : endpoint l1 = endpoint l).
    { apply Ggate. unfold gate. apply andb_false_r. }
    split; [exact Hg|]. intros k ep r Hin.
    destruct (Gcall _ _ _ Hin) as (-> & _). exact Hg. }
  destruct b.
  - unfold ret. exists w1, l1, (evs1 ++ []). rewrite app_nil_r.
    split; [reflexivity|]. split; [exact Gev|].
    split; [intros ev k Hin Hk; rewrite (Hidx ev k Hin Hk); lia|].
    split; [intros k ep r Hin; exact (proj2 (Gcall k ep r Hin))|].
    split; [exact Hgen1|]. split; [exact Hoff|].
    intros _. destruct (Gbreak eq_refl) as (resp & Hin & Hresp & Hdata).
    exists (retryCount l), resp. repeat split; auto.
    intros k' ep r Hin'. rewrite (Hidx _ k' Hin' eq_refl). lia.
  - unfold bind, assign, local, modify, gets, ret. msimpl.
    destruct (Ffail eq_refl) as (Fsucc & _).
    specialize (Fsucc Hs).
    destruct (S (retryCount l1) <? budget) eqn:Hlt.
    + apply Nat.ltb_lt in Hlt.
      destruct (IH w1 (set_retryCount (S (retryCount l1)) l1))
        as (w2 & l2 & evs2 & Hloop & Lev & Lidx & Lcall & Lgen & Loff & Llast);
        [unfold set_retryCount; cbn [retryCount]; lia | lia | exact Fsucc |].
      rewrite Hloop. msimpl.
      unfold set_retryCount in *; cbn [retryCount endpoint] in *.
      exists w2, l2, (evs1 ++ evs2). split; [reflexivity|].
      split; [apply Forall_app; now split|].
      split.
      { intros ev k Hin Hk. apply in_app_or in Hin. destruct Hin as [Hin|Hin].
        - rewrite (Hidx ev k Hin Hk). lia.
        - specialize (Lidx ev k Hin Hk). lia. }
      split.
      { intros k ep r Hin ep' r' Hin'.
        apply in_app_or in Hin. apply in_app_or in Hin'.
        destruct Hin as [Hin|Hin], Hin' as [Hin'|Hin'].
        - exact (proj2 (Gcall k ep r Hin) ep' r' Hin').
        - pose proof (Hidx _ k Hin eq_refl).
          pose proof (Lidx _ k Hin' eq_refl). lia.
        - pose proof (Hidx _ k Hin' eq_refl).
          pose proof (Lidx _ k Hin eq_refl). lia.
        - exact (Lcall k ep r Hin ep' r' Hin'). }
      split.
      { intros k ep d msgs g Hin. apply in_app_or in Hin.
        destruct Hin as [Hin|Hin].
        - destruct (Hgen1 _ _ _ _ _ Hin) as (r & Hr). exists r.
          apply in_or_app. now left.
        - destruct (Lgen _ _ _ _ _ Hin) as (r & Hr). exists r.
          apply in_or_app. now right. }
      split.
      { intros Hsh. destruct (Hoff Hsh) as (E1 & C1).
        destruct (Loff Hsh) as (E2 & C2).
        split; [congruence|]. intros k ep r Hin. apply in_app_or in Hin.
        destruct Hin as [Hin|Hin]; [eauto|]. rewrite <- E1. eauto. }
      intros Hok. destruct (Llast Hok) as (k & resp & Hin & Hresp & Hdata & Hmax).
      exists k, resp. split; [apply in_or_app; now right|].
      repeat split; auto. intros k' ep r Hin'. apply in_app_or in Hin'.
      destruct Hin' as [Hin'|Hin']; [|eauto].
      pose proof (Hidx _ k' Hin' eq_refl).
      pose proof (Lidx _ k Hin eq_refl). lia.
    + apply Nat.ltb_ge in Hlt. msimpl.
      exists w1, (set_retryCount (S (retryCount l1)) l1), (evs1 ++ []).
      rewrite app_nil_r. split; [reflexivity|].
      unfold set_retryCount; cbn [retryCount endpoint success response].
      split; [exact Gev|].
      split; [intros ev k Hin Hk; rewrite (Hidx ev k Hin Hk); lia|].
      split; [intros k ep r Hin; exact (proj2 (Gcall k ep r Hin))|].
      split; [exact Hgen1|]. split; [exact Hoff|].
      intros Hok. congruence.
Qed.

End Attempt.

Section Run.
Context {W : Type} (C : Collaborators W).
Variables (payload : Json) (credentials : Credentials)
          (options : option RequestOptions) (metadata : Metadata)
          (integration : option Integration) (endpoint0 : option ApiConfig).

Local Abbreviation budget := (retryBudget options).
Local Abbreviation sh := (isSelfHealingEnabled options).

(** The statements before the loop log one line at most. *)
Lemma documentationFor_log (s : W * Locals) :
  integration <> None \/ sh = true ->
  exists d evs,
    documentationFor integration sh s = (Returned d, s, evs) /\
    (evs = [] \/ exists level msg, evs = [EvLog level msg]).
Proof.
  intros H. unfold documentationFor, bind, logMessage, emit, ret, throw.
  destruct integration as [i|]; nsimpl.
  - destruct (documentationPending i); nsimpl.
    + eexists _, _. split; [reflexivity|]. right. eauto.
    + destruct (documentation i) as [d|]; [destruct (truthy_string d)|];
        eexists _, _; (split; [reflexivity|]); now left.
  - destruct H as [H|H]; [congruence|]. rewrite H. nsimpl.
    eexists _, _. split; [reflexivity|]. right. eauto.
Qed.

(** Every run of [executeApiCall] that reaches the loop: which calls it
    makes, with what, and where its result comes from. *)
Lemma executeApiCall_calls w :
  integration <> None \/ sh = true ->
  exists o w' evs,
    executeApiCall C payload credentials options metadata integration
                   endpoint0 w = (o, w', evs) /\
    Forall (fun ev => isExecutorEvent ev = true) evs /\
    (forall ev k, In ev evs -> attemptOf ev = Some k ->
       k < Nat.max 1 budget) /\
    (forall k ep r, In (EvCallEndpoint k ep r) evs ->
       forall ep' r', In (EvCallEndpoint k ep' r') evs -> ep' = ep /\ r' = r) /\
    (forall k ep d msgs g,
       In (EvGenerateApiConfig k ep d msgs (Ok g)) evs ->
       exists r, In (EvCallEndpoint k (Some (config g)) r) evs) /\
    (sh = false ->
     (forall k ep r, In (EvCallEndpoint k ep r) evs -> ep = endpoint0) /\
     forall res, o = Returned res -> resultEndpoint res = endpoint0) /\
    match o with
    | Returned res =>
        captured evs = [] /\
        exists k resp,
          In (EvCallEndpoint k (resultEndpoint res) (Ok resp)) evs /\
          resultData res = data resp /\ truthy (data resp) = true /\
          forall k' ep r, In (EvCallEndpoint k' ep r) evs -> k' <= k
    | Threw e =>
        captured evs = (if telemetryClient C then [message e] else []) /\
        exists error,
          message e = failureText (Nat.max 1 budget)
                        (Some (maskedError C credentials error))
    | OutOfFuel => False
    end.
Proof.
  intros Hreach.
  unfold executeApiCall, with_locals.
  set (l0 := {| endpoint := endpoint0; messages := []; response := None;
                retryCount := 0; lastError := None; success := false |}).
  unfold bind at 1.
  destruct (documentationFor_log (w, l0) Hreach) as (d & evs0 & -> & Hpre).
  unfold bind at 1.
  destruct (doWhile_spec C payload credentials options sh d
              (Nat.max 1 budget) w l0) as (w1 & l1 & evs1 & Hloop & L);
    [subst l0; cbn [retryCount]; lia | lia |].
  destruct (doWhile_calls C payload credentials options sh d
              (Nat.max 1 budget) w l0)
    as (w1' & l1' & evs1' & Hloop' & Lev & Lidx & Lcall & Lgen & Loff & Llast);
    [subst l0; cbn [retryCount]; lia | lia | reflexivity |].
  rewrite Hloop in Hloop'. injection Hloop' as <- <- <-. rewrite Hloop.
  destruct L as [_ Lout _ _ _ _ _].
  subst l0. cbn [retryCount endpoint success Nat.add] in *.
  assert (Hlog0 : Forall (fun ev => isExecutorEvent ev = true) evs0 /\
                  captured evs0 = [] /\
                  forall ev, In ev evs0 -> attemptOf ev = None).
  { destruct Hpre as [->|(level & msg & ->)].
    - repeat split; [constructor|]. intros ev [].
    - repeat split; [repeat constructor|].
      intros ev [<-|[]]. reflexivity. }
  destruct Hlog0 as (Hev0 & Hcap0 & Hno0).
  assert (Hev1 : Forall (fun ev => isExecutorEvent ev = true) evs1).
  { eapply Forall_impl; [|exact Lev]. intros [] H; try discriminate;
      reflexivity. }
  assert (Hcap1 : captured evs1 = []).
  { clear - Lev. induction Lev as [|ev evs Hev _ IH]; [reflexivity|].
    destruct ev; try discriminate; exact IH. }
  assert (Hcommon : forall tail,
    (forall ev, In ev tail -> attemptOf ev = None) ->
    (forall ev k, In ev (evs0 ++ evs1 ++ tail) -> attemptOf ev = Some k ->
       k < Nat.max 1 budget) /\
    (forall k ep r, In (EvCallEndpoint k ep r) (evs0 ++ evs1 ++ tail) ->
       In (EvCallEndpoint k ep r) evs1) /\
    (forall k ep dd msgs g,
       In (EvGenerateApiConfig k ep dd msgs (Ok g)) (evs0 ++ evs1 ++ tail) ->
       In (EvGenerateApiConfig k ep dd msgs (Ok g)) evs1)).
  { intros tail Htail.
    assert (Hin : forall ev k, In ev (evs0 ++ evs1 ++ tail) ->
                               attemptOf ev = Some k -> In ev evs1).
    { intros ev k Hin Hk. apply in_app_or in Hin. destruct Hin as [Hin|Hin].
      - rewrite (Hno0 ev Hin) in Hk. discriminate.
      - apply in_app_or in Hin. destruct Hin as [Hin|Hin]; [exact Hin|].
        rewrite (Htail ev Hin) in Hk. discriminate. }
    split; [|split].
    - intros ev k Hi Hk. specialize (Lidx ev k (Hin ev k Hi Hk) Hk). lia.
    - intros k ep r Hi. exact (Hin _ k Hi eq_refl).
    - intros k ep dd msgs g Hi. exact (Hin _ k Hi eq_refl). }
  assert (Hfacts : forall tail o,
    (forall ev, In ev tail -> attemptOf ev = None) ->
    (forall res, o = Returned res -> resultEndpoint res = endpoint l1) ->
    (forall ev k, In ev (evs0 ++ evs1 ++ tail) -> attemptOf ev = Some k ->
       k < Nat.max 1 budget) /\
    (forall k ep r, In (EvCallEndpoint k ep r) (evs0 ++ evs1 ++ tail) ->
       forall ep' r', In (EvCallEndpoint k ep' r') (evs0 ++ evs1 ++ tail) ->
                      ep' = ep /\ r' = r) /\
    (forall k ep dd msgs g,
       In (EvGenerateApiConfig k ep dd msgs (Ok g)) (evs0 ++ evs1 ++ tail) ->
       exists r, In (EvCallEndpoint k (Some (config g)) r)
                    (evs0 ++ evs1 ++ tail)) /\
    (sh = false ->
     (forall k ep r, In (EvCallEndpoint k ep r) (evs0 ++ evs1 ++ tail) ->
                     ep = endpoint0) /\
     forall res, o = Returned res -> resultEndpoint res = endpoint0)).
  { intros tail o Htail Hres.
    destruct (Hcommon tail Htail) as (Hidx & Hcall & Hgen).
    split; [exact Hidx|]. split; [|split].
    - intros k ep r Hi ep' r' Hi'. eauto.
    - intros k ep dd msgs g Hi.
      destruct (Lgen _ _ _ _ _ (Hgen _ _ _ _ _ Hi)) as (r & Hr).
      exists r. apply in_or_app. right. apply in_or_app. now left.
    - intros Hsh. destruct (Loff Hsh) as (E & Hc). split.
      + intros k ep r Hi. eauto.
      + intros res Ho. rewrite (Hres res Ho). exact E. }
  unfold bind, local, gets, when, emit, throw, ret. msimpl.
  destruct (Lout eq_refl) as [Hs | (Hs & Hrc & error & Herr)];
    rewrite Hs; msimpl.
  - eexists _, _, _. split; [reflexivity|]. rewrite app_nil_r.
    split; [apply Forall_app; split; assumption|].
    destruct (Hfacts [] (Returned {| resultData :=
                                       match response l1 with
                                       | Some r => data r
                                       | None => JUndefined
                                       end;
                                     resultEndpoint := endpoint l1 |}))
      as (F1 & F2 & F3 & F4);
      [intros ev [] | intros res E; injection E as <-; reflexivity |].
    rewrite app_nil_r in *.
    split; [exact F1|]. split; [exact F2|]. split; [exact F3|].
    split; [exact F4|].
    split.
    + unfold captured in *. now rewrite flat_map_app, Hcap0, Hcap1.
    + destruct (Llast Hs) as (k & resp & Hin & Hresp & Hdata & Hmax).
      exists k, resp. cbn [resultEndpoint resultData]. rewrite Hresp.
      split; [apply in_or_app; now right|]. repeat split; auto.
      intros k' ep r Hi.
      destruct (Hcommon [] (fun ev (H : In ev []) => match H with end))
        as (_ & Hcall & _).
      rewrite app_nil_r in Hcall. eauto.
  - rewrite Hrc, Herr.
    destruct (telemetryClient C); msimpl;
      eexists _, _, _; (split; [reflexivity|]).
    + match goal with
      | |- context [evs1 ++ [?ev]] =>
          destruct (Hfacts [ev] (Threw (Error (failureText (Nat.max 1 budget)
                      (Some (maskedError C credentials error))))))
            as (F1 & F2 & F3 & F4);
            [intros ? [<-|[]]; reflexivity | intros res E; discriminate E |]
      end.
      replace (evs0 ++ (evs1 ++ _) ++ []) with
        (evs0 ++ evs1 ++
         [EvCaptureException
            (failureText (Nat.max 1 budget)
               (Some (maskedError C credentials error)))
            (orgId metadata) (endpoint l1) (Nat.max 1 budget)])
        by now rewrite app_nil_r.
      split; [repeat (apply Forall_app; split); try assumption;
              repeat constructor|].
      split; [exact F1|]. split; [exact F2|]. split; [exact F3|].
      split; [exact F4|]. split; [|exists error; reflexivity].
      unfold captured in *. rewrite !flat_map_app, Hcap0, Hcap1. reflexivity.
    + destruct (Hfacts [] (Threw (Error (failureText (Nat.max 1 budget)
                  (Some (maskedError C credentials error))))))
        as (F1 & F2 & F3 & F4);
        [intros ev [] | intros res E; discriminate E |].
      rewrite !app_nil_r in *.
      split; [apply Forall_app; split; assumption|].
      split; [exact F1|]. split; [exact F2|]. split; [exact F3|].
      split; [exact F4|]. split; [|exists error; reflexivity].
      unfold captured in *. now rewrite flat_map_app, Hcap0, Hcap1.
Qed.

End Run.
End ExecutorCalls.

Import Executor ExecutorSpec ExecutorProofs.

(** X8.  A config that works is returned as it is: when the transport call
    made with the supplied config returns a non-empty body, the executor
    returns that body and the supplied config after this one call; the
    synthesizer and the validator are not invoked, with self-healing
    enabled or not, and at most one line is logged before the call. *)
Theorem accepted_config_is_returned_untouched {W : Type}
  (C : Collaborators W) payload credentials options metadata integration
  endpoint0 (w w1 : W) resp :
  integration <> None \/ isSelfHealingEnabled options = true ->
  callEndpoint C endpoint0 payload credentials options w = (Ok resp, w1) ->
  truthy (data resp) = true ->
  exists pre,
    executeApiCall C payload credentials options metadata integration
                   endpoint0 w
    = (Returned {| resultData := data resp; resultEndpoint := endpoint0 |},
       w1, pre ++ [EvCallEndpoint 0 endpoint0 (Ok resp)]) /\
    (pre = [] \/ exists level msg, pre = [EvLog level msg]).
Proof.
  intros Hreach Hcall Hdata.
  unfold executeApiCall, with_locals. unfold bind at 1.
  match goal with
  | |- context [documentationFor ?i ?s ?st] =>
      destruct (ExecutorCalls.documentationFor_log options i st Hreach)
        as (d & evs0 & -> & Hpre)
  end.
  exists evs0. split; [|exact Hpre].
  destruct (Nat.max 1 (retryBudget options)) as [|fuel] eqn:Hfuel; [lia|].
  cbn [doWhile]. munfold. msimpl. cbn [Nat.ltb Nat.leb andb]. msimpl.
  rewrite Hcall. msimpl. rewrite Hdata. msimpl.
  cbn [Nat.ltb Nat.leb andb]. msimpl. now rewrite ?app_nil_r.
Qed.

(** X8, witness: the supplied path is the accepted one. *)
Lemma accepted_config_is_returned_untouched_witness :
  exists res w' evs,
    executeApiCall Scenario.transformFailingWorld JNull Scenario.secrets None
      Scenario.noMetadata None (Some (Scenario.ordersApi "/v1/orders")) 0
    = (Returned res, w', evs) /\
    resultEndpoint res = Some (Scenario.ordersApi "/v1/orders") /\
    transportCalls evs = 1.
Proof.
  destruct (accepted_config_is_returned_untouched
              Scenario.transformFailingWorld JNull Scenario.secrets None
              Scenario.noMetadata None (Some (Scenario.ordersApi "/v1/orders"))
              0 1 {| data := JObj [("orders", JArr [JNum 7])] |})
    as (pre & Hrun & Hpre); [right; reflexivity | reflexivity | reflexivity |].
  eexists _, _, _. split; [exact Hrun|]. split; [reflexivity|].
  destruct Hpre as [->|(level & msg & ->)]; reflexivity.
Defined.

Lemma generatedAt_In k evs :
  generatedAt k evs = true <->
  exists ep d msgs r, In (EvGenerateApiConfig k ep d msgs r) evs.
Proof.
  unfold generatedAt. rewrite existsb_exists. split.
  - intros ([] & Hin & H); try discriminate.
    apply Nat.eqb_eq in H. subst. eauto.
  - intros (ep & d & msgs & r & Hin). eexists. split; [exact Hin|].
    apply Nat.eqb_refl.
Qed.




(** X10.  With self-healing disabled (and an integration supplied), the
    synthesizer and the validator are never invoked, every transport call
    is made with the supplied config, and a result that is returned carries
    the supplied config: the retries repeat the same call. *)
Theorem healing_disabled_repeats_the_call {W : Type} (C : Collaborators W)
  payload credentials options metadata integration endpoint0 (w : W) :
  isSelfHealingEnabled options = false -> integration <> None ->
  exists o w' evs,
    executeApiCall C payload credentials options metadata integration
                   endpoint0 w = (o, w', evs) /\
    (forall k, generatedAt k evs = false /\ evaluatedAt k evs = false) /\
    (forall k ep r, In (EvCallEndpoint k ep r) evs -> ep = endpoint0) /\
    (forall res, o = Returned res -> resultEndpoint res = endpoint0).
Proof.
  intros Hoff Hint.
  destruct (ExecutorCalls.executeApiCall_calls C payload credentials options
              metadata integration endpoint0 w (or_introl Hint))
    as (o & w' & evs & Hrun & _ & _ & _ & _ & Hsame & _).
  destruct (executeApiCall_spec C payload credentials options metadata
              integration endpoint0 w (or_introl Hint))
    as (o' & w'' & evs' & Hrun' & F).
  rewrite Hrun in Hrun'. injection Hrun' as <- <- <-.
  exists o, w', evs. split; [exact Hrun|].
  destruct F as [_ _ Fgen _ _ Feval]. destruct (Hsame Hoff) as (Hcalls & Hres).
  split; [|split; assumption].
  intros k. split.
  - destruct (generatedAt k evs) eqn:Hg; [|reflexivity].
    specialize (Fgen k Hg). unfold gate in Fgen. rewrite Hoff in Fgen.
    now rewrite andb_false_r in Fgen.
  - rewrite Feval. unfold gate. rewrite Hoff. now rewrite andb_false_r.
Qed.

(** X10, witness: self-healing disabled, a documented integration, a budget
    of three and a path that is rejected every time. *)
Lemma healing_disabled_repeats_the_call_witness :
  exists o w' evs,
    executeApiCall Scenario.healingWorld JNull Scenario.secrets
      (Scenario.optionsWith (Some SelfHealingMode.DISABLED) (Some 3) None)
      Scenario.noMetadata (Some Examples.documented)
      (Some (Scenario.ordersApi "/v1/orders")) 0 = (o, w', evs) /\
    transportCalls evs = 3 /\
    generatedAt 1 evs = false.
Proof.
  destruct (healing_disabled_repeats_the_call Scenario.healingWorld JNull
              Scenario.secrets
              (Scenario.optionsWith (Some SelfHealingMode.DISABLED) (Some 3)
                 None)
              Scenario.noMetadata (Some Examples.documented)
              (Some (Scenario.ordersApi "/v1/orders")) 0)
    as (o & w' & evs & Hrun & Hnone & _); [reflexivity | discriminate |].
  exists o, w', evs. split; [exact Hrun|].
  split; [|exact (proj1 (Hnone 1))].
  vm_compute in Hrun. injection Hrun as _ _ <-. reflexivity.
Defined.

(** X11.  A config that the synthesizer returns is put to use at once: the
    synthesizer is only invoked on an attempt of index 1 or more, and the
    one transport call of that attempt is made with the config it
    returned. *)
Theorem synthesized_config_is_called {W : Type} (C : Collaborators W)
  payload credentials options metadata integration endpoint0 (w : W) :
  integration <> None \/ isSelfHealingEnabled options = true ->
  exists o w' evs,
    executeApiCall C payload credentials options metadata integration
                   endpoint0 w = (o, w', evs) /\
    forall k ep d msgs g,
      In (EvGenerateApiConfig k ep d msgs (Ok g)) evs ->
      0 < k /\
      exists r,
        In (EvCallEndpoint k (Some (config g)) r) evs /\
        forall ep' r', In (EvCallEndpoint k ep' r') evs ->
                       ep' = Some (config g) /\ r' = r.
Proof.
  intros Hreach.
  destruct (ExecutorCalls.executeApiCall_calls C payload credentials options
              metadata integration endpoint0 w Hreach)
    as (o & w' & evs & Hrun & _ & _ & Hcall & Hgen & _).
  destruct (executeApiCall_spec C payload credentials options metadata
              integration endpoint0 w Hreach) as (o' & w'' & evs' & Hrun' & F).
  rewrite Hrun in Hrun'. injection Hrun' as <- <- <-.
  exists o, w', evs. split; [exact Hrun|].
  intros k ep d msgs g Hin. split.
  - assert (Hg : generatedAt k evs = true).
    { apply generatedAt_In. eauto. }
    apply (rf_generate _ _ _ _ _ _ _ _ F) in Hg. unfold gate in Hg.
    apply andb_true_iff in Hg. destruct Hg as (Hk & _).
    now apply Nat.ltb_lt in Hk.
  - destruct (Hgen _ _ _ _ _ Hin) as (r & Hr). exists r.
    split; [exact Hr|]. intros ep' r' Hin'. exact (Hcall _ _ _ Hr _ _ Hin').
Qed.

(** X11, witness: the run healed at attempt 1 calls the proposed path. *)
Lemma synthesized_config_is_called_witness :
  exists o w' evs r,
    executeApiCall Scenario.healingWorld JNull Scenario.secrets None
      Scenario.noMetadata None (Some (Scenario.ordersApi "/v1/orders")) 0
    = (o, w', evs) /\
    In (EvCallEndpoint 1 (Some (Scenario.ordersApi "/v2/orders")) r) evs.
Proof.
  destruct (synthesized_config_is_called Scenario.healingWorld JNull
              Scenario.secrets None Scenario.noMetadata None
              (Some (Scenario.ordersApi "/v1/orders")) 0)
    as (o & w' & evs & Hrun & Hgen); [right; reflexivity|].
  destruct (Hgen 1 (Some (Scenario.ordersApi "/v1/orders")) "" []
              {| config := Scenario.ordersApi "/v2/orders";
                 newMessages := [] |}) as (_ & r & Hr & _).
  { vm_compute in Hrun. injection Hrun as _ _ <-.
    repeat first [left; reflexivity | right]. }
  exists o, w', evs, r. split; [exact Hrun | exact Hr].
Defined.

(** X12.  What the executor returns is what its last transport call
    produced: the data is the non-empty body that this call returned, and
    the config is the one the call was made with. *)
Theorem result_comes_from_the_last_call {W : Type} (C : Collaborators W)
  payload credentials options metadata integration endpoint0 (w w' : W)
  res evs :
  integration <> None \/ isSelfHealingEnabled options = true ->
  executeApiCall C payload credentials options metadata integration
                 endpoint0 w = (Returned res, w', evs) ->
  exists k resp,
    In (EvCallEndpoint k (resultEndpoint res) (Ok resp)) evs /\
    resultData res = data resp /\ truthy (data resp) = true /\
    forall k' ep r, In (EvCallEndpoint k' ep r) evs -> k' <= k.
Proof.
  intros Hreach Hrun.
  destruct (ExecutorCalls.executeApiCall_calls C payload credentials options
              metadata integration endpoint0 w Hreach)
    as (o & w'' & evs' & Hrun' & _ & _ & _ & _ & _ & Hout).
  rewrite Hrun in Hrun'. injection Hrun' as <- <- <-.
  exact (proj2 Hout).
Qed.

(** X12, witness: the healed run returns the proposed config. *)
Lemma result_comes_from_the_last_call_witness :
  exists res w' evs resp,
    executeApiCall Scenario.healingWorld JNull Scenario.secrets None
      Scenario.noMetadata None (Some (Scenario.ordersApi "/v1/orders")) 0
    = (Returned res, w', evs) /\
    In (EvCallEndpoint 1 (resultEndpoint res) (Ok resp)) evs /\
    resultEndpoint res = Some (Scenario.ordersApi "/v2/orders").
Proof.
  eexists _, _, _, _. split; [vm_compute; reflexivity|].
  edestruct (result_comes_from_the_last_call Scenario.healingWorld JNull
               Scenario.secrets None Scenario.noMetadata None
               (Some (Scenario.ordersApi "/v1/orders")) 0)
    as (k & resp & _ & _ & _ & _);
    [right; reflexivity | vm_compute; reflexivity |].
  split; [repeat first [left; reflexivity | right] | reflexivity].
Defined.



(* ================================================================== *)
(** * Further properties of the call orchestrator *)
(* ================================================================== *)

Module ResolverRuns.
Import Executor ExecutorSpec ExecutorProofs.

(** The events of the executor are not those of the orchestrator. *)
Lemma executor_events_silent evs :
  Forall (fun ev => isExecutorEvent ev = true) evs ->
  runsCreated evs = [] /\ notifications evs = [] /\ upserts evs = [] /\
  transforms evs = [] /\ lookups evs = [].
Proof.
  induction 1 as [|ev evs Hev _ (? & ? & ? & ? & ?)]; [easy|].
  destruct ev; try discriminate; cbn; auto.
Qed.

Lemma runsCreated_app evs1 evs2 :
  runsCreated (evs1 ++ evs2) = runsCreated evs1 ++ runsCreated evs2.
Proof. apply flat_map_app. Qed.

Lemma notifications_app evs1 evs2 :
  notifications (evs1 ++ evs2) = notifications evs1 ++ notifications evs2.
Proof. apply flat_map_app. Qed.

Lemma upserts_app evs1 evs2 :
  upserts (evs1 ++ evs2) = upserts evs1 ++ upserts evs2.
Proof. apply flat_map_app. Qed.

Lemma transforms_app evs1 evs2 :
  transforms (evs1 ++ evs2) = transforms evs1 ++ transforms evs2.
Proof. apply flat_map_app. Qed.

Lemma lookups_app evs1 evs2 :
  lookups (evs1 ++ evs2) = lookups evs1 ++ lookups evs2.
Proof. apply flat_map_app. Qed.

Section Runs.
Context {W : Type} (C : Collaborators W).
Variables (input : ApiInputRequest) (payload : Json)
          (credentials : Credentials) (options : option RequestOptions)
          (context : Context).

(** Any run of [executeApiCall] without an integration, as the orchestrator
    starts it. *)
Lemma executeApiCall_any metadata endpoint0 w :
  exists o w' evs,
    executeApiCall C payload credentials options metadata None endpoint0 w
    = (o, w', evs) /\
    Forall (fun ev => isExecutorEvent ev = true) evs /\
    o <> OutOfFuel /\
    (isSelfHealingEnabled options = false ->
     o = Threw (TypeError_undefined "documentation") /\ evs = [] /\ w' = w).
Proof.
  destruct (isSelfHealingEnabled options) eqn:Hsh.
  - destruct (ExecutorCalls.executeApiCall_calls C payload credentials options
                metadata None endpoint0 w (or_intror Hsh))
      as (o & w' & evs & Hrun & Hev & _ & _ & _ & _ & Hout).
    exists o, w', evs. split; [exact Hrun|]. split; [exact Hev|].
    split; [|discriminate]. intros ->. exact Hout.
  - eexists _, _, _. split.
    + unfold executeApiCall, with_locals, documentationFor, bind, throw.
      rewrite Hsh. reflexivity.
    + split; [constructor|]. split; [discriminate|]. auto.
Qed.

Ltac resolver_unfold :=
  unfold callResolverTry, bind, when, call, ask, assign, local, invoke,
    modify, gets, emit, throw, ret.

Ltac silent Hev :=
  let H1 := fresh in let H2 := fresh in let H3 := fresh in
  let H4 := fresh in let H5 := fresh in
  destruct (executor_events_silent _ Hev) as (H1 & H2 & H3 & H4 & H5);
  rewrite ?runsCreated_app, ?notifications_app, ?upserts_app, ?transforms_app,
    ?lookups_app, ?H1, ?H2, ?H3, ?H4, ?H5.

(** Every run of the [try] block of the orchestrator. *)
Lemma callResolverTry_run callId started w :
  exists o w' ep' evs,
    callResolverTry C input payload credentials options context callId started
                    (w, None) = (o, (w', ep'), evs) /\
    lookups evs
    = (if truthy_opt (inputId input)
       then [match inputId input with Some i => i | None => "" end]
       else []) /\
    (isSelfHealingEnabled options = false ->
     transportCalls evs = 0 /\ transforms evs = [] /\ exists e, o = Threw e) /\
    match o with
    | Returned res =>
        exists cfg args tr,
          runsCreated evs = [run res] /\
          runResultId (run res) = callId /\
          runSuccess (run res) = true /\ runError (run res) = None /\
          runConfig (run res) = Some cfg /\ startedAt (run res) = started /\
          returnedData res = Some (transformData tr) /\
          transforms evs = [args] /\
          In (EvExecuteTransform args (Ok tr)) evs /\
          fromCache args = readCacheOf options /\
          transformOptions args = options /\
          cfg = spreadConfig (inputEndpoint args) (transformConfig tr) /\
          notifications evs
          = match webhookOf options with
            | Some _ => [(true, Some (transformData tr), None)]
            | None => []
            end /\
          (if writeCacheOf options
           then exists sid,
                  upserts evs = [(sid, cfg)] /\
                  (truthy_opt (inputId input) = true -> inputId input = Some sid)
                  /\
                  (truthy_opt (inputId input) = false ->
                   exists c, inputEndpoint args = Some c /\ sid = id c)
           else upserts evs = [])
    | Threw e =>
        runsCreated evs = [] /\ notifications evs = [] /\ upserts evs = [] /\
        List.length (transforms evs) <= 1
    | OutOfFuel => False
    end.
Proof.
  unfold callResolverTry.
  match goal with
  | |- context [bind ?m ?f (w, None)] => set (first := m); set (rest := f)
  end.
  assert (Hrest : forall w0 ep,
    exists o w' ep' evs,
      rest tt (w0, ep) = (o, (w', ep'), evs) /\
      lookups evs = [] /\
      (isSelfHealingEnabled options = false ->
       transportCalls evs = 0 /\ transforms evs = [] /\ exists e, o = Threw e) /\
      match o with
      | Returned res =>
          exists cfg args tr,
            runsCreated evs = [run res] /\
            runResultId (run res) = callId /\
            runSuccess (run res) = true /\ runError (run res) = None /\
            runConfig (run res) = Some cfg /\ startedAt (run res) = started /\
            returnedData res = Some (transformData tr) /\
            transforms evs = [args] /\
            In (EvExecuteTransform args (Ok tr)) evs /\
            fromCache args = readCacheOf options /\
            transformOptions args = options /\
            cfg = spreadConfig (inputEndpoint args) (transformConfig tr) /\
            notifications evs
            = match webhookOf options with
              | Some _ => [(true, Some (transformData tr), None)]
              | None => []
              end /\
            (if writeCacheOf options
             then exists sid,
                    upserts evs = [(sid, cfg)] /\
                    (truthy_opt (inputId input) = true ->
                     inputId input = Some sid) /\
                    (truthy_opt (inputId input) = false ->
                     exists c, inputEndpoint args = Some c /\ sid = id c)
             else upserts evs = [])
      | Threw e =>
          runsCreated evs = [] /\ notifications evs = [] /\ upserts evs = [] /\
          List.length (transforms evs) <= 1
      | OutOfFuel => False
      end).
  { intros w0 ep. subst rest. cbv beta.
    unfold bind, when, call, ask, assign, local, invoke, modify, gets, emit,
      throw, ret. cbn [fst snd].
    destruct (isZodSchema ep) eqn:Hzod.
    { eexists _, _, _, _. split; [reflexivity|]. split; [reflexivity|].
      split; [intros _; repeat split; eauto|]. repeat split; auto. }
    destruct (executeApiCall_any
                {| runId := Some callId; orgId := contextOrgId context |} ep w0)
      as (o1 & w1 & evs1 & Hrun & Hev & Hfuel & Hoff).
    cbn [fst snd]. rewrite Hrun.
    destruct o1 as [callResult|e|]; [| |congruence].
    2:{ eexists _, _, _, _. split; [reflexivity|]. silent Hev.
        split; [reflexivity|].
        split.
        - intros Hsh. destruct (Hoff Hsh) as (_ & -> & _). repeat split; eauto.
        - repeat split; auto. }
    cbn [fst snd].
    match goal with
    | |- context [executeTransform C ?a w1] =>
        destruct (executeTransform C a w1) as [[tr|e] w2] eqn:Htr
    end; cbn [fst snd].
    2:{ eexists _, _, _, _. split; [reflexivity|]. silent Hev. cbn.
        split; [reflexivity|].
        split.
        - intros Hsh. destruct (Hoff Hsh) as (Habs & _). discriminate Habs.
        - repeat split; auto. }
    destruct (writeCacheOf options) eqn:Hwrite;
      [destruct (truthy_opt (inputId input)) eqn:Hid;
       [|destruct (resultEndpoint callResult) as [c|] eqn:Hep]|];
      cbn [fst snd];
      destruct (webhookOf options) as [url|] eqn:Hhook; cbn [fst snd];
      try (destruct (newDate C w2) as [completed w3] eqn:Hdate; cbn [fst snd]).
    all: eexists _, _, _, _; (split; [reflexivity|]).
    all: cbn [app]; silent Hev;
      cbn [lookups runsCreated notifications upserts transforms flat_map app
           List.length].
    all: split; [reflexivity|].
    all: split; [intros Hsh; destruct (Hoff Hsh) as (Habs & _);
                 discriminate Habs|].
    all: try solve [repeat split; auto].
    all: eexists _, _, _; cbn [run returnedData runResultId runSuccess runError
                               runConfig startedAt].
    all: repeat (split; [reflexivity|]).
    all: (split; [apply in_or_app; right; now left|]).
    all: repeat (split; [reflexivity|]).
    all: rewrite ?Hwrite; try reflexivity.
    - eexists. split; [reflexivity|]. split; [|intros; discriminate].
      intros _. destruct (inputId input); [reflexivity|discriminate].
    - eexists. split; [reflexivity|]. split; [|intros; discriminate].
      intros _. destruct (inputId input); [reflexivity|discriminate].
    - eexists. split; [reflexivity|]. split; [intros; discriminate|].
      intros _. cbn [inputEndpoint]. eauto.
    - eexists. split; [reflexivity|]. split; [intros; discriminate|].
      intros _. cbn [inputEndpoint]. eauto. }
  unfold bind at 1. subst first.
  destruct (truthy_opt (inputId input)) eqn:Hid.
  - unfold bind, call, assign, modify. cbn [fst snd].
    destruct (getApiConfig C _ (contextOrgId context) w) as [[stored|e] w0].
    + cbn [fst snd].
      destruct (Hrest w0 stored) as (o & w' & ep' & evs & -> & Hl & Hoff & Hout).
      eexists _, _, _, _. split; [reflexivity|].
      cbn [app].
      match goal with
      | |- context [?ev :: evs] => change (ev :: evs) with ([ev] ++ evs)
      end.
      rewrite lookups_app, runsCreated_app, notifications_app, upserts_app,
        transforms_app, transportCalls_app.
      unfold transportCalls at 1.
      cbn [lookups runsCreated notifications upserts transforms flat_map app
           filter isTransportCall List.length Nat.add].
      rewrite Hl. split; [reflexivity|]. split; [exact Hoff|].
      destruct o as [res|e|]; [|exact Hout|exact Hout].
      destruct Hout as (cfg & args & tr & Hruns & Hrid & Hs & He & Hc & Hst &
                        Hd & Htr & Hin & Hmore).
      exists cfg, args, tr.
      split; [exact Hruns|]. split; [exact Hrid|]. split; [exact Hs|].
      split; [exact He|]. split; [exact Hc|]. split; [exact Hst|].
      split; [exact Hd|]. split; [exact Htr|].
      split; [right; exact Hin | exact Hmore].
    + eexists _, _, _, _. split; [reflexivity|]. split; [reflexivity|].
      split; [intros _; repeat split; eauto|]. repeat split; auto.
  - unfold assign, modify. cbn [fst snd].
    destruct (Hrest w (endpointInput input))
      as (o & w' & ep' & evs & -> & Hl & Hoff & Hout).
    exists o, w', ep', evs. cbn [app]. split; [reflexivity|].
    split; [exact Hl|]. split; [exact Hoff | exact Hout].
Qed.

(** The record that the [catch] block stores and returns. *)
Lemma callResolver_run w :
  exists started w1 callId w2 o w' ep' evs,
    newDate C w = (started, w1) /\ randomUUID C w1 = (callId, w2) /\
    callResolverTry C input payload credentials options context callId started
                    (w2, None) = (o, (w', ep'), evs) /\
    match o with
    | Returned res =>
        callResolver C input payload credentials options context w
        = (Returned res, w', evs)
    | Threw e =>
        exists completed w3,
          newDate C w' = (completed, w3) /\
          callResolver C input payload credentials options context w
          = (Returned
               {| run := {| runResultId := callId; runSuccess := false;
                            runError := Some (maskCredentials C (message e)
                                                credentials);
                            runConfig := ep'; startedAt := started;
                            completedAt := completed |};
                  returnedData := None |}, w3,
             evs ++
             match webhookOf options with
             | Some url =>
                 [EvNotifyWebhook url callId false None (Some (message e))]
             | None => []
             end ++
             [EvCreateRun
                {| runResultId := callId; runSuccess := false;
                   runError := Some (maskCredentials C (message e)
                                       credentials);
                   runConfig := ep'; startedAt := started;
                   completedAt := completed |}])
    | OutOfFuel => False
    end.
Proof.
  destruct (newDate C w) as [started w1] eqn:Hdate.
  destruct (randomUUID C w1) as [callId w2] eqn:Hid.
  destruct (callResolverTry_run callId started w2)
    as (o & w' & ep' & evs & Htry & _ & _ & Hout).
  exists started, w1, callId, w2, o, w', ep', evs.
  split; [first [reflexivity|assumption]|].
  split; [first [reflexivity|assumption]|]. split; [exact Htry|].
  unfold callResolver, with_locals, bind, ask, try_catch. cbn [fst snd].
  rewrite Hdate. cbn [fst snd]. rewrite Hid. cbn [fst snd]. rewrite Htry.
  destruct o as [res|e|]; [reflexivity| |contradiction].
  destruct (newDate C w') as [completed w3] eqn:Hdone.
  exists completed, w3. split; [reflexivity|].
  unfold callResolverCatch, bind, local, gets, ask, emit, ret.
  destruct (webhookOf options); cbn [fst snd]; rewrite Hdone; reflexivity.
Qed.

End Runs.
End ResolverRuns.


(** X15.  The config is written to the store only by a call that succeeded,
    and only when the cache mode is [ENABLED] or [WRITEONLY]: then it is
    written once, under [input.id] when that is given, and what is written
    is the config of the run record.  A call that failed, or that ran in
    another cache mode or without one, writes nothing. *)
Theorem config_is_stored_only_after_success {W : Type} (C : Collaborators W)
  input payload credentials options context (w : W) :
  exists res w' evs,
    callResolver C input payload credentials options context w
    = (Returned res, w', evs) /\
    if writeCacheOf options && runSuccess (run res)
    then exists sid cfg,
           upserts evs = [(sid, cfg)] /\ runConfig (run res) = Some cfg /\
           (truthy_opt (inputId input) = true -> inputId input = Some sid)
    else upserts evs = [].
Proof.
  destruct (ResolverRuns.callResolver_run C input payload credentials options
              context w)
    as (started & w1 & callId & w2 & o & w' & ep' & evs & _ & _ & Htry & Hrun).
  destruct (ResolverRuns.callResolverTry_run C input payload credentials
              options context callId started w2)
    as (o' & w'' & ep'' & evs' & Htry' & _ & _ & Hout).
  rewrite Htry in Htry'. injection Htry' as <- <- <- <-.
  destruct o as [res|e|]; [| |contradiction].
  - exists res, w', evs. split; [exact Hrun|].
    destruct Hout as (cfg & args & tr & _ & _ & Hs & _ & Hc & _ & _ & _ &
                      _ & _ & _ & _ & _ & Hup).
    rewrite Hs, andb_true_r.
    destruct (writeCacheOf options); [|exact Hup].
    destruct Hup as (sid & Hup & Hid & _). exists sid, cfg. auto.
  - destruct Hrun as (completed & w3 & _ & Hrun).
    destruct Hout as (_ & _ & Hup & _).
    eexists _, _, _. split; [exact Hrun|].
    cbn [run runSuccess]. rewrite andb_false_r.
    rewrite !ResolverRuns.upserts_app, Hup.
    destruct (webhookOf options); reflexivity.
Qed.

(** X16.  With self-healing disabled every call of the orchestrator fails:
    it makes no transport call and no transform call, and returns a record
    with [success = false] and no data.  (The orchestrator passes no
    integration to the executor, which then throws on reading
    [integration.documentation].) *)
Theorem call_with_healing_disabled_fails {W : Type} (C : Collaborators W)
  input payload credentials options context (w : W) :
  isSelfHealingEnabled options = false ->
  exists res w' evs,
    callResolver C input payload credentials options context w
    = (Returned res, w', evs) /\
    runSuccess (run res) = false /\ returnedData res = None /\
    transportCalls evs = 0 /\ transforms evs = [].
Proof.
  intros Hoff.
  destruct (ResolverRuns.callResolver_run C input payload credentials options
              context w)
    as (started & w1 & callId & w2 & o & w' & ep' & evs & _ & _ & Htry & Hrun).
  destruct (ResolverRuns.callResolverTry_run C input payload credentials
              options context callId started w2)
    as (o' & w'' & ep'' & evs' & Htry' & _ & Hdisabled & _).
  rewrite Htry in Htry'. injection Htry' as <- <- <- <-.
  destruct (Hdisabled Hoff) as (Hcalls & Htr & e & ->).
  destruct Hrun as (completed & w3 & _ & Hrun).
  eexists _, _, _. split; [exact Hrun|].
  cbn [run returnedData runSuccess].
  rewrite !transportCalls_app, !ResolverRuns.transforms_app, Hcalls, Htr.
  destruct (webhookOf options); repeat split; reflexivity.
Qed.

(** X16, witness: self-healing disabled in a world where the supplied path
    is the accepted one. *)
Lemma call_with_healing_disabled_fails_witness :
  exists res w' evs,
    callResolver Scenario.transformFailingWorld
      {| inputId := None;
         endpointInput := Some (Scenario.ordersApi "/v1/orders") |}
      JNull Scenario.secrets
      (Scenario.optionsWith (Some SelfHealingMode.DISABLED) None None)
      {| contextOrgId := None |} 0 = (Returned res, w', evs) /\
    runSuccess (run res) = false /\ transportCalls evs = 0.
Proof.
  destruct (call_with_healing_disabled_fails Scenario.transformFailingWorld
              {| inputId := None;
                 endpointInput := Some (Scenario.ordersApi "/v1/orders") |}
              JNull Scenario.secrets
              (Scenario.optionsWith (Some SelfHealingMode.DISABLED) None None)
              {| contextOrgId := None |} 0 eq_refl)
    as (res & w' & evs & Hrun & Hs & _ & Hcalls & _).
  exists res, w', evs. split; [exact Hrun|]. split; [exact Hs | exact Hcalls].
Defined.

(** X17.  A response schema that is a zod object is refused before anything
    is called: for an endpoint given inline, the orchestrator makes no
    lookup, no transport call and no transform call, and returns a failed
    record whose error is the masked refusal and whose config is the
    endpoint as it was given. *)
Theorem zod_schema_is_refused_before_any_call {W : Type}
  (C : Collaborators W) input payload credentials options context (w : W) :
  truthy_opt (inputId input) = false ->
  isZodSchema (endpointInput input) = true ->
  exists res w' evs,
    callResolver C input payload credentials options context w
    = (Returned res, w', evs) /\
    runSuccess (run res) = false /\
    runError (run res)
    = Some (maskCredentials C
              "zod is not supported for response schema. Please use json schema instead. you can use the zod-to-json-schema package to convert zod to json schema."
              credentials) /\
    runConfig (run res) = endpointInput input /\
    lookups evs = [] /\ transportCalls evs = 0 /\ transforms evs = [].
Proof.
  intros Hid Hzod.
  unfold callResolver, with_locals, try_catch, callResolverTry,
    callResolverCatch, bind, ask, assign, local, modify, gets, emit, throw, ret.
  cbn [fst snd].
  destruct (newDate C w) as [started w1]. cbn [fst snd].
  destruct (randomUUID C w1) as [callId w2]. cbn [fst snd].
  rewrite Hid. cbn [fst snd]. rewrite Hzod.
  destruct (webhookOf options); cbn [fst snd];
    destruct (newDate C w2) as [completed w3];
    eexists _, _, _; (split; [reflexivity|]); repeat split; reflexivity.
Qed.

(** X17, witness: an inline endpoint with a zod response schema. *)
Lemma zod_schema_is_refused_before_any_call_witness :
  exists res w' evs,
    callResolver Scenario.transformFailingWorld
      {| inputId := None;
         endpointInput :=
           Some {| id := "orders"; urlHost := "https://api.example.com";
                   urlPath := "/v1/orders"; instruction := "List the orders";
                   responseSchema :=
                     JObj [("_def", JObj [("typeName", JStr "ZodObject")])];
                   responseMapping := None |} |}
      JNull Scenario.secrets None {| contextOrgId := None |} 0
    = (Returned res, w', evs) /\
    runSuccess (run res) = false /\ transportCalls evs = 0.
Proof.
  edestruct (zod_schema_is_refused_before_any_call
               Scenario.transformFailingWorld
               {| inputId := None;
                  endpointInput :=
                    Some {| id := "orders";
                            urlHost := "https://api.example.com";
                            urlPath := "/v1/orders";
                            instruction := "List the orders";
                            responseSchema :=
                              JObj [("_def",
                                     JObj [("typeName", JStr "ZodObject")])];
                            responseMapping := None |} |}
               JNull Scenario.secrets None {| contextOrgId := None |} 0)
    as (res & w' & evs & Hrun & Hs & _ & _ & _ & Hcalls & _);
    [reflexivity | reflexivity |].
  exists res, w', evs. split; [exact Hrun|]. split; [exact Hs | exact Hcalls].
Defined.

(** X18.  The orchestrator looks the config up in the store exactly when
    [input.id] is given, once and under that id, and calls the post-call
    transform at most once; a call that succeeded called it exactly once,
    with [fromCache] set from the cache mode ([true] without a cache mode,
    and for [ENABLED] and [READONLY]) and with the caller's options. *)
Theorem lookups_and_transforms_of_a_call {W : Type} (C : Collaborators W)
  input payload credentials options context (w : W) :
  exists res w' evs,
    callResolver C input payload credentials options context w
    = (Returned res, w', evs) /\
    lookups evs
    = (if truthy_opt (inputId input)
       then [match inputId input with Some i => i | None => "" end]
       else []) /\
    List.length (transforms evs) <= 1 /\
    (runSuccess (run res) = true ->
     exists args,
       transforms evs = [args] /\ fromCache args = readCacheOf options /\
       transformOptions args = options /\
       runConfig (run res) <> None).
Proof.
  destruct (ResolverRuns.callResolver_run C input payload credentials options
              context w)
    as (started & w1 & callId & w2 & o & w' & ep' & evs & _ & _ & Htry & Hrun).
  destruct (ResolverRuns.callResolverTry_run C input payload credentials
              options context callId started w2)
    as (o' & w'' & ep'' & evs' & Htry' & Hlook & _ & Hout).
  rewrite Htry in Htry'. injection Htry' as <- <- <- <-.
  destruct o as [res|e|]; [| |contradiction].
  - exists res, w', evs. split; [exact Hrun|]. split; [exact Hlook|].
    destruct Hout as (cfg & args & tr & _ & _ & _ & _ & Hc & _ & _ & Htr &
                      _ & Hfrom & Hopt & _).
    rewrite Htr. split; [cbn; lia|]. intros _. exists args.
    rewrite Hc. repeat split; auto. discriminate.
  - destruct Hrun as (completed & w3 & _ & Hrun).
    destruct Hout as (_ & _ & _ & Hlen).
    eexists _, _, _. split; [exact Hrun|].
    cbn [run runSuccess].
    rewrite !ResolverRuns.lookups_app, !ResolverRuns.transforms_app, Hlook.
    destruct (webhookOf options);
      cbn [lookups transforms flat_map app]; rewrite !app_nil_r;
      (split; [reflexivity|]); (split; [exact Hlen|]); intros; discriminate.
Qed.

(* ================================================================== *)
(** * Properties of the token extraction and of the middleware *)
(* ================================================================== *)

Module AuthFacts.
Import Text Auth.

Lemma noWhiteSpace_app a b :
  noWhiteSpace (a ++ b) = noWhiteSpace a && noWhiteSpace b.
Proof.
  induction a as [|c a IH]; cbn; [reflexivity|].
  now rewrite IH, andb_assoc.
Qed.

(** The separator [" "] begins a text exactly when its first character is
    a space. *)
Lemma prefix_space c s :
  prefix " " (String c s) = Ascii.eqb c " ".
Proof.
  change (prefix " " (String c s))
    with (if ascii_dec " " c then prefix "" s else false).
  destruct (ascii_dec " " c) as [<-|H].
  - now destruct s.
  - symmetry. apply Ascii.eqb_neq. congruence.
Qed.

Lemma space_is_white c : Ascii.eqb c " " = true -> isWhiteSpace c = true.
Proof. intros H. apply Ascii.eqb_eq in H. now subst. Qed.


(** The first space ends the first segment. *)
Lemma split_at_space cur a b :
  noWhiteSpace a = true ->
  splitFrom 0 " " cur (a ++ " " ++ b)
  = (cur ++ a)%string :: splitFrom 0 " " "" b.
Proof.
  revert cur. induction a as [|c a IH]; intros cur H.
  - cbn [append splitFrom]. rewrite prefix_space. cbn.
    f_equal. induction cur; cbn; congruence.
  - cbn [noWhiteSpace] in H. apply andb_true_iff in H. destruct H as (Hc & Ha).
    cbn [append splitFrom]. rewrite prefix_space.
    destruct (Ascii.eqb c " ") eqn:E.
    + rewrite (space_is_white _ E) in Hc. discriminate.
    + rewrite IH by exact Ha. now rewrite Facts.append_assoc.
Qed.





Lemma bearer_starts tok :
  startsWith "Bearer " ("Bearer" ++ " " ++ tok) = true.
Proof. apply (Facts.prefix_self_app "Bearer " tok). Qed.

Lemma truthy_token tok : tok <> "" -> truthy (JStr tok) = true.
Proof. destruct tok; [congruence|reflexivity]. Qed.

End AuthFacts.



Module AuthMore.
Import Text Auth.

Lemma trimStart_white s : allWhiteSpace s = true -> trimStart s = "".
Proof.
  induction s as [|c s IH]; [reflexivity|]. cbn. intros H.
  apply andb_true_iff in H. destruct H as (-> & Hs). auto.
Qed.

Lemma allWhiteSpace_snoc cur c :
  allWhiteSpace cur = true -> isWhiteSpace c = true ->
  allWhiteSpace (cur ++ String c "") = true.
Proof.
  induction cur as [|d cur IH]; cbn; intros H Hc.
  - now rewrite Hc.
  - apply andb_true_iff in H. destruct H as (-> & H). cbn. auto.
Qed.

(** The first segment of a text of white space is white space. *)
Lemma split_white rest : forall cur,
  allWhiteSpace cur = true -> allWhiteSpace rest = true ->
  exists seg more,
    splitFrom 0 " " cur rest = seg :: more /\ allWhiteSpace seg = true.
Proof.
  induction rest as [|c rest IH]; intros cur Hcur Hrest.
  - exists cur, []. now split.
  - cbn [allWhiteSpace] in Hrest. apply andb_true_iff in Hrest.
    destruct Hrest as (Hc & Hrest).
    cbn [splitFrom]. rewrite AuthFacts.prefix_space.
    destruct (Ascii.eqb c " ").
    + eexists _, _. split; [reflexivity|exact Hcur].
    + apply IH; [now apply allWhiteSpace_snoc|exact Hrest].
Qed.

(** The second word of [Bearer] followed by white space only is empty. *)
Lemma blank_second_word rest :
  allWhiteSpace rest = true ->
  exists seg, nth_error (split " " ("Bearer" ++ " " ++ rest)) 1 = Some seg /\
              trim seg = "".
Proof.
  intros H. unfold split.
  rewrite (AuthFacts.split_at_space "" "Bearer" rest eq_refl).
  destruct (split_white rest "" eq_refl H) as (seg & more & -> & Hseg).
  exists seg. split; [reflexivity|].
  unfold trim. now rewrite (trimStart_white _ Hseg).
Qed.

Lemma get_field_other k k' v fields :
  String.eqb k k' = false ->
  get_field k (set_field k' v fields) = get_field k fields.
Proof.
  intros H. induction fields as [|[k0 v0] rest IH]; cbn.
  - now rewrite H.
  - destruct (String.eqb k' k0) eqn:E; cbn.
    + apply String.eqb_eq in E. subst k0. now rewrite H.
    + now rewrite IH.
Qed.

End AuthMore.

(** X20.  A bearer header with nothing but white space for a token: the
    Express extractor falls back to the query token; the Fastify extractor
    returns the empty string and does not look at the query; and the empty
    string is refused as "No token provided" without a key manager being
    asked or created. *)
Theorem blank_bearer_token {W Manager : Type}
  (C : Auth.Collaborators W Manager) (req : list (string * Json))
  (rest : string) (s : W * option Manager) :
  opt_get "authorization" (get_field "headers" req)
  = JStr ("Bearer" ++ " " ++ rest) ->
  Text.allWhiteSpace rest = true ->
  Auth.extractTokenFromExpressRequest req
  = Ok (opt_get "token" (get_field "query" req)) /\
  Auth.extractTokenFromFastifyRequest req = Ok (JStr "") /\
  Auth.validateToken C (JStr "") s
  = (Returned {| Auth.valid := false; Auth.validOrgId := None;
                 Auth.validMessage := "No token provided" |}, s, []).
Proof.
  intros Hauth Hrest.
  assert (Hkey : Auth.hasKey "headers" req = true /\
                 exists fields, get_field "headers" req = JObj fields).
  { destruct (get_field "headers" req) as [| | | | | |fields] eqn:Hh;
      try discriminate Hauth.
    split; [|eauto]. clear - Hh. unfold Auth.hasKey.
    induction req as [|[k v] req IH]; [discriminate Hh|].
    cbn [existsb get_field fst] in *. rewrite String.eqb_sym.
    destruct (String.eqb "headers" k); [reflexivity|exact (IH Hh)]. }
  destruct Hkey as (Hkey & fields & Hfields).
  destruct (AuthMore.blank_second_word rest Hrest) as (seg & Hseg & Htrim).
  split; [|split; [|reflexivity]].
  - unfold Auth.extractTokenFromExpressRequest, Auth.secondWord, Auth.orElse.
    now rewrite Hkey, Hauth, Hseg, Htrim.
  - unfold Auth.extractTokenFromFastifyRequest, Auth.readOf.
    rewrite Hfields, <- Hfields, Hauth.
    rewrite AuthFacts.truthy_token by discriminate.
    now rewrite AuthFacts.bearer_starts, Hseg, Htrim.
Qed.

(** X20, witness: [Bearer] and a space, with a query token. *)
Lemma blank_bearer_token_witness :
  Auth.extractTokenFromFastifyRequest
    [("headers", JObj [("authorization", JStr "Bearer ")]);
     ("query", JObj [("token", JStr "sk-123")])]
  = Ok (JStr "") /\
  Auth.extractTokenFromExpressRequest
    [("headers", JObj [("authorization", JStr "Bearer ")]);
     ("query", JObj [("token", JStr "sk-123")])]
  = Ok (JStr "sk-123").
Proof.
  destruct (blank_bearer_token Examples.keyManager
              [("headers", JObj [("authorization", JStr "Bearer ")]);
               ("query", JObj [("token", JStr "sk-123")])]
              "" (0, None) eq_refl eq_refl) as (Hexpress & Hfastify & _).
  split; [exact Hfastify | exact Hexpress].
Defined.

(** X21.  The middleware answers the health check with 200 and never
    authenticates it.  Any other request whose token can be read is passed
    on only when a key manager accepted that token: the request then
    carries the organisation of the key under [orgId] and the token under
    [authInfo].  Otherwise it is answered with 401 and the rejected token
    is written to the log.  A request without a token is refused without
    any key manager being asked. *)
Theorem middleware_passes_only_accepted_tokens {W Manager : Type}
  (C : Auth.Collaborators W Manager) (req : list (string * Json))
  (s : W * option Manager) :
  if Auth.isHealthCheck req
  then Auth.authMiddleware C req s = (Returned (Auth.Sent 200 "OK"), s, [])
  else
    forall token,
      Auth.extractTokenFromExpressRequest req = Ok token ->
      exists o s' evs,
        Auth.authMiddleware C req s = (o, s', evs) /\
        Auth.authenticated evs = (if truthy token then [token] else []) /\
        match o with
        | Returned (Auth.Sent status body) =>
            status = 401 /\ body = Auth.getAuthErrorHTML token /\
            In (Auth.EvLog "warn"
                  ("Authentication failed for token: " ++ Text.toString token))
               evs /\
            (truthy token = true ->
             exists r, In (Auth.EvAuthenticate token (Ok r)) evs /\
                       Auth.authSuccess r = false)
        | Returned (Auth.Passed req') =>
            truthy token = true /\
            exists r,
              In (Auth.EvAuthenticate token (Ok r)) evs /\
              Auth.authSuccess r = true /\
              get_field "orgId" req' = Auth.ofOption (Auth.authOrgId r) /\
              get_field "authInfo" req'
              = JObj [("token", token);
                      ("clientId", Auth.ofOption (Auth.authOrgId r))]
        | Threw e =>
            truthy token = true /\
            (In (Auth.EvAuthenticate token (Raise e)) evs \/
             exists r, In (Auth.EvAuthenticate token (Ok r)) evs /\
                       Auth.authSuccess r = true)
        | OutOfFuel => False
        end.
Proof.
  unfold Auth.authMiddleware.
  destruct (Auth.isHealthCheck req); [reflexivity|].
  intros token ->.
  unfold Auth.validateToken, Auth.getAuthManager, bind, ret, emit, throw.
  destruct (truthy token) eqn:Htok; cbn [negb fst snd].
  - set (m := match snd s with
              | Some m0 => m0
              | None => if truthy_opt (Auth.supabaseUrl C (fst s))
                        then Auth.newSupabaseKeyManager C
                        else Auth.newLocalKeyManager C
              end).
    assert (Hm : exists s1, (match snd s with
                 | Some m0 => (Returned m0, s, @nil Auth.Event)
                 | None => (Returned
                              (if truthy_opt (Auth.supabaseUrl C (fst s))
                               then Auth.newSupabaseKeyManager C
                               else Auth.newLocalKeyManager C),
                            (fst s,
                             Some (if truthy_opt (Auth.supabaseUrl C (fst s))
                                   then Auth.newSupabaseKeyManager C
                                   else Auth.newLocalKeyManager C)), [])
                 end) = (Returned m, s1, []) /\ fst s1 = fst s).
    { subst m. destruct (snd s); eexists; split; reflexivity. }
    destruct Hm as (s1 & -> & Hfst). rewrite Hfst.
    destruct (Auth.authenticate C m token (fst s)) as [[r|e] w1];
      cbn [fst snd app].
    + destruct (Auth.authSuccess r) eqn:Hr; cbn [negb Auth.valid Auth.validOrgId].
      * destruct (Auth.setHeader "orgId" (Auth.ofOption (Auth.authOrgId r))
                    (set_field "orgId" (Auth.ofOption (Auth.authOrgId r)) req))
          as [req2|e] eqn:Hset.
        -- eexists _, _, _. split; [reflexivity|]. split; [reflexivity|].
           split; [reflexivity|]. exists r. split; [now left|].
           split; [exact Hr|]. split; [|apply get_field_set_field].
           rewrite AuthMore.get_field_other by reflexivity.
           unfold Auth.setHeader in Hset.
           destruct (get_field "headers" (set_field "orgId" _ req))
             eqn:Hh; try discriminate Hset; injection Hset as <-;
             rewrite ?AuthMore.get_field_other by reflexivity;
             apply get_field_set_field.
        -- eexists _, _, _. split; [reflexivity|]. split; [reflexivity|].
           split; [reflexivity|]. right. exists r. split; [now left|exact Hr].
      * eexists _, _, _. split; [reflexivity|]. split; [reflexivity|].
        split; [reflexivity|]. split; [reflexivity|].
        split; [right; now left|]. intros _. exists r. split; [now left|exact Hr].
    + eexists _, _, _. split; [reflexivity|]. split; [reflexivity|].
      split; [reflexivity|]. left. now left.
  - eexists _, _, _. split; [reflexivity|]. split; [reflexivity|].
    split; [reflexivity|]. split; [reflexivity|].
    split; [now left|]. intros; discriminate.
Qed.

(** X21, witness: a request with the key that the manager knows. *)
Lemma middleware_passes_only_accepted_tokens_witness :
  exists req' s' evs,
    Auth.authMiddleware Examples.keyManager (Examples.bearerRequest "sk-123")
      (0, None) = (Returned (Auth.Passed req'), s', evs) /\
    get_field "orgId" req' = JStr "acme" /\
    Auth.authenticated evs = [JStr "sk-123"].
Proof.
  pose proof (middleware_passes_only_accepted_tokens Examples.keyManager
                (Examples.bearerRequest "sk-123") (0, None)) as H.
  change (Auth.isHealthCheck (Examples.bearerRequest "sk-123")) with false in H.
  destruct (H (JStr "sk-123") eq_refl) as (o & s' & evs & Hrun & Hauth & _).
  vm_compute in Hrun. injection Hrun as <- <- <-.
  eexists _, _, _. split; [reflexivity|]. split; reflexivity.
Defined.

(* ================================================================== *)
(** * Properties of the helpers of the testing framework *)
(* ================================================================== *)

Module FrameworkFacts.
Import Framework.

(** Induction on values, with the elements of arrays and the values of
    objects. *)
Lemma Json_induction (P : Json -> Prop) :
  P JUndefined -> P JNull -> (forall b, P (JBool b)) ->
  (forall n, P (JNum n)) -> (forall s, P (JStr s)) ->
  (forall items, Forall P items -> P (JArr items)) ->
  (forall fields, Forall (fun kv => P (snd kv)) fields -> P (JObj fields)) ->
  forall j, P j.
Proof.
  intros Hu Hn Hb Hz Hs Ha Ho.
  fix IH 1.
  intros [| |b|n|s|items|fields];
    [exact Hu | exact Hn | apply Hb | apply Hz | apply Hs | |].
  - apply Ha. induction items as [|x rest IHr]; constructor;
      [apply IH | exact IHr].
  - apply Ho. induction fields as [|[k v] rest IHr]; constructor;
      [apply IH | exact IHr].
Qed.

(** The two inner functions of [truncateData], as [map] after [firstn]. *)
Lemma slice_map_spec n (items : list Json) : forall k,
  (fix slice_map (k : nat) (xs : list Json) {struct xs} : list Json :=
     match k, xs with
     | S k', x :: rest => truncateData n x :: slice_map k' rest
     | _, _ => []
     end) k items
  = map (truncateData n) (firstn k items).
Proof.
  induction items as [|x rest IH]; intros [|k]; cbn; try reflexivity.
  now rewrite IH.
Qed.

Lemma slice_each_spec n (fields : list (string * Json)) : forall k,
  (fix slice_each (k : nat) (fs : list (string * Json)) {struct fs}
     : list (string * Json) :=
     match k, fs with
     | S k', (key, v) :: rest => (key, truncateData n v) :: slice_each k' rest
     | _, _ => []
     end) k fields
  = map (fun kv => (fst kv, truncateData n (snd kv))) (firstn k fields).
Proof.
  induction fields as [|[key v] rest IH]; intros [|k]; cbn; try reflexivity.
  now rewrite IH.
Qed.

Lemma within_items n (items : list Json) :
  (fix all (xs : list Json) : bool :=
     match xs with
     | [] => true
     | x :: rest => within n x && all rest
     end) items
  = forallb (within n) items.
Proof. induction items as [|x rest IH]; cbn; [reflexivity|now rewrite IH]. Qed.

Lemma within_fields n (fields : list (string * Json)) :
  (fix all (fs : list (string * Json)) : bool :=
     match fs with
     | [] => true
     | (_, v) :: rest => within n v && all rest
     end) fields
  = forallb (fun kv => within n (snd kv)) fields.
Proof.
  induction fields as [|[k v] rest IH]; cbn; [reflexivity|now rewrite IH].
Qed.

Lemma truncateData_array n items :
  truncateData n (JArr items)
  = JArr (if n <? List.length items
          then map (truncateData n) (firstn n items) ++
               [itemsMarker (List.length items - n)]
          else map (truncateData n) (firstn n items)).
Proof. cbn [truncateData]. now rewrite slice_map_spec. Qed.

Lemma truncateData_object n fields :
  truncateData n (JObj fields)
  = JObj (if n <? List.length fields
          then set_field "_truncated" (keysMarker (List.length fields - n))
                 (map (fun kv => (fst kv, truncateData n (snd kv)))
                      (firstn n fields))
          else map (fun kv => (fst kv, truncateData n (snd kv)))
                   (firstn n fields)).
Proof. cbn [truncateData]. now rewrite slice_each_spec. Qed.

Lemma within_array n items :
  within n (JArr items)
  = (List.length items <=? n) && forallb (within n) items.
Proof. cbn [within]. now rewrite within_items. Qed.

Lemma within_object n fields :
  within n (JObj fields)
  = (List.length fields <=? n) &&
    forallb (fun kv => within n (snd kv)) fields.
Proof. cbn [within]. now rewrite within_fields. Qed.

Lemma set_field_length k v fields :
  List.length (set_field k v fields) <= S (List.length fields).
Proof.
  induction fields as [|[k' v'] rest IH]; cbn; [lia|].
  destruct (String.eqb k k'); cbn; lia.
Qed.

Lemma set_field_forallb (f : string * Json -> bool) k v fields :
  f (k, v) = true -> forallb f fields = true ->
  forallb f (set_field k v fields) = true.
Proof.
  intros Hv. induction fields as [|[k' v'] rest IH]; cbn.
  - now rewrite Hv.
  - intros H. apply andb_true_iff in H. destruct H as (H1 & H2).
    destruct (String.eqb k k'); cbn.
    + now rewrite Hv, H2.
    + now rewrite H1, IH.
Qed.

Lemma filter_all {A} (f : A -> bool) l :
  List.length (filter f l) = List.length l <-> forallb f l = true.
Proof.
  induction l as [|x l IH]; cbn; [tauto|].
  pose proof (filter_length_le f l).
  destruct (f x); cbn.
  - rewrite <- IH. split; lia.
  - split; [lia|discriminate].
Qed.

Lemma filter_some {A} (f : A -> bool) l :
  0 < List.length (filter f l) <-> existsb f l = true.
Proof.
  induction l as [|x l IH]; cbn; [split; [lia|discriminate]|].
  destruct (f x); cbn; [split; [reflexivity|lia]|exact IH].
Qed.

Lemma firstn_In {A} (x : A) n l : In x (firstn n l) -> In x l.
Proof.
  revert n. induction l as [|y l IH]; intros [|n]; cbn; try tauto.
  intros [->|H]; [now left|right; eauto].
Qed.

Lemma length_append (a b : string) :
  String.length (a ++ b) = String.length a + String.length b.
Proof. induction a as [|c a IH]; cbn; [reflexivity|now rewrite IH]. Qed.

End FrameworkFacts.

(** X22.  The data quality of a successful result with data, against a
    non-empty list of expected keys: [pass] exactly when every expected key
    is a top-level key of the data, [fail] exactly when none is, and
    [unknown] exactly when some are and some are not. *)
Theorem data_quality_counts_expected_keys
  (result : Framework.WorkflowResult) (expected : list string) :
  Framework.success result = true ->
  truthy (Framework.data result) = true ->
  expected <> [] ->
  let present :=
    Framework.includesKey
      (Framework.extractOutputKeys (Framework.data result)) in
  (Framework.evaluateDataQuality result (Some expected) = Framework.pass <->
   forall k, In k expected -> present k = true) /\
  (Framework.evaluateDataQuality result (Some expected) = Framework.fail <->
   forall k, In k expected -> present k = false) /\
  (Framework.evaluateDataQuality result (Some expected) = Framework.unknown <->
   (exists k, In k expected /\ present k = true) /\
   (exists k, In k expected /\ present k = false)).
Proof.
  intros Hs Hd Hne present.
  unfold Framework.evaluateDataQuality. rewrite Hs, Hd. cbn [negb orb].
  destruct expected as [|k0 rest]; [congruence|].
  set (expected := k0 :: rest). fold present.
  pose proof (FrameworkFacts.filter_all present expected) as Hall.
  pose proof (FrameworkFacts.filter_some present expected) as Hsome.
  rewrite forallb_forall in Hall. rewrite existsb_exists in Hsome.
  assert (Hnone : (forall k, In k expected -> present k = false) <->
                  ~ (exists k, In k expected /\ present k = true)).
  { split.
    - intros H (k & Hin & Hk). rewrite (H k Hin) in Hk. discriminate.
    - intros H k Hin. destruct (present k) eqn:E; [|reflexivity].
      exfalso. apply H. eauto. }
  assert (Hpart : ~ (forall k, In k expected -> present k = true) <->
                  exists k, In k expected /\ present k = false).
  { rewrite <- forallb_forall. split.
    - intros H. destruct (forallb present expected) eqn:E; [congruence|].
      clear - E. induction expected as [|k l IH]; [discriminate|].
      cbn in E. apply andb_false_iff in E. destruct E as [E|E].
      + exists k. split; [now left|exact E].
      + destruct (IH E) as (k' & Hin & Hk). exists k'. split; [now right|exact Hk].
    - intros (k & Hin & Hk) H. rewrite forallb_forall in H.
      rewrite (H k Hin) in Hk. discriminate. }
  destruct (Nat.eqb_spec (List.length (filter present expected))
              (List.length expected)) as [E|E].
  - pose proof (proj1 Hall E) as Hyes.
    split; [tauto|]. split.
    + split; [discriminate|]. intros H. specialize (H k0 (or_introl eq_refl)).
      rewrite (Hyes k0 (or_introl eq_refl)) in H. discriminate.
    + split; [discriminate|]. intros (_ & Hno). apply Hpart in Hno. tauto.
  - assert (Hnot : ~ (forall k, In k expected -> present k = true)) by tauto.
    destruct (Nat.ltb_spec 0 (List.length (filter present expected)))
      as [Hpos|Hzero].
    + pose proof (proj1 Hsome Hpos) as Hex.
      split; [split; [discriminate|tauto]|]. split.
      * split; [discriminate|]. intros H. apply Hnone in H. tauto.
      * split; [|reflexivity]. intros _. split; [exact Hex|now apply Hpart].
    + assert (Hno : ~ (exists k, In k expected /\ present k = true)).
      { intros H. apply Hsome in H. lia. }
      split; [split; [discriminate|tauto]|]. split.
      * split; [|reflexivity]. intros _. now apply Hnone.
      * split; [discriminate|]. tauto.
Qed.

(** X22, witness: one of two expected keys is there. *)
Lemma data_quality_counts_expected_keys_witness :
  Framework.evaluateDataQuality
    {| Framework.success := true;
       Framework.data := JObj [("orders", JArr []); ("total", JNum 0)] |}
    (Some ["orders"; "customers"])
  = Framework.unknown.
Proof.
  apply (data_quality_counts_expected_keys
           {| Framework.success := true;
              Framework.data := JObj [("orders", JArr []); ("total", JNum 0)] |}
           ["orders"; "customers"] eq_refl eq_refl ltac:(discriminate)).
  split.
  - exists "orders". split; [now left|reflexivity].
  - exists "customers". split; [right; now left|reflexivity].
Defined.

(** X23.  What [truncateData] returns is bounded in width at every level:
    no array and no object of it has more than [maxEntries + 1] entries
    (the kept ones and the marker). *)
Theorem truncated_data_is_bounded (maxEntries : nat) (data : Json) :
  Framework.within (S maxEntries) (Framework.truncateData maxEntries data)
  = true.
Proof.
  induction data as [| | | | |items IH|fields IH]
    using FrameworkFacts.Json_induction; try reflexivity.
  - rewrite FrameworkFacts.truncateData_array, FrameworkFacts.within_array.
    assert (Hkept : forallb (Framework.within (S maxEntries))
                      (map (Framework.truncateData maxEntries)
                           (firstn maxEntries items)) = true).
    { apply forallb_forall. intros x Hin. apply in_map_iff in Hin.
      destruct Hin as (y & <- & Hy). apply FrameworkFacts.firstn_In in Hy.
      exact (proj1 (Forall_forall _ _) IH y Hy). }
    pose proof (length_firstn maxEntries items) as Hlen.
    destruct (maxEntries <? List.length items).
    + rewrite length_app, length_map, forallb_app, Hkept. cbn.
      rewrite andb_true_r. apply Nat.leb_le. lia.
    + rewrite length_map, Hkept, andb_true_r. apply Nat.leb_le. lia.
  - rewrite FrameworkFacts.truncateData_object, FrameworkFacts.within_object.
    set (kept := map (fun kv => (fst kv,
                                 Framework.truncateData maxEntries (snd kv)))
                     (firstn maxEntries fields)).
    assert (Hkept : forallb (fun kv => Framework.within (S maxEntries) (snd kv))
                      kept = true).
    { apply forallb_forall. intros x Hin. apply in_map_iff in Hin.
      destruct Hin as (y & <- & Hy). apply FrameworkFacts.firstn_In in Hy.
      exact (proj1 (Forall_forall _ _) IH y Hy). }
    assert (Hlen : List.length kept <= maxEntries).
    { subst kept. rewrite length_map, length_firstn. lia. }
    destruct (maxEntries <? List.length fields).
    + rewrite FrameworkFacts.set_field_forallb by (reflexivity || exact Hkept).
      rewrite andb_true_r. apply Nat.leb_le.
      pose proof (FrameworkFacts.set_field_length "_truncated"
                    (Framework.keysMarker (List.length fields - maxEntries))
                    kept). lia.
    + rewrite Hkept, andb_true_r. apply Nat.leb_le. lia.
Qed.



(** X25.  A data preview has 1003 characters at most; it is the whole
    rendering of the data when that has 1000 characters at most, and
    otherwise its first 1000 characters followed by three dots. *)
Theorem data_preview_is_bounded (stringify : Json -> Completion string)
  (data : Json) :
  String.length (Framework.generateDataPreview stringify data) <= 1003 /\
  forall s, nullish data = false -> stringify data = Ok s ->
    Framework.generateDataPreview stringify data
    = if String.length s <=? 1000 then s
      else (slice0 1000 s ++ "...")%string.
Proof.
  unfold Framework.generateDataPreview. split.
  - destruct (nullish data); [cbn; lia|].
    destruct (stringify data) as [s|e];
      match goal with
      | |- context [String.length ?t <=? 1000] =>
          destruct (Nat.leb_spec (String.length t) 1000) as [H|H]; [lia|];
          rewrite FrameworkFacts.length_append;
          pose proof (Facts.slice0_length 1000 t) as Hcut;
          unfold slice0 in Hcut; cbn [String.length]; lia
      end.
  - intros s -> ->. reflexivity.
Qed.

(* ================================================================== *)
(** * The Redis datastore: keys, stored configs, listings *)
(* ================================================================== *)

Module DatastoreFacts.
Import Text Datastore DatastoreSpec.

Lemma prefix_colon c s :
  prefix ":" (String c s) = Ascii.eqb c ":".
Proof.
  change (prefix ":" (String c s))
    with (if ascii_dec ":" c then prefix "" s else false).
  destruct (ascii_dec ":" c) as [<-|Hne].
  - now destruct s.
  - symmetry. apply Ascii.eqb_neq. congruence.
Qed.

Lemma append_nil_r (a : string) : (a ++ "")%string = a.
Proof. induction a as [|x a IH]; cbn; [reflexivity|now rewrite IH]. Qed.

Lemma append_inj_l (a b b' : string) :
  (a ++ b)%string = (a ++ b')%string -> b = b'.
Proof. induction a as [|x a IH]; cbn; [auto|]. intros H. inversion H. auto. Qed.

Lemma without_app c a b :
  without c (a ++ b) = without c a && without c b.
Proof.
  induction a as [|x a IH]; cbn; [reflexivity|].
  now rewrite IH, andb_assoc.
Qed.

Lemma without_colon_cons c s :
  without ":" (String c s) = true ->
  Ascii.eqb c ":" = false /\ without ":" s = true.
Proof.
  cbn [without]. intros H. apply andb_true_iff in H as [H1 H2].
  split; [now apply negb_true_iff in H1 | exact H2].
Qed.

(** A text without a colon is one segment. *)
Lemma segment_without_colon cur s :
  without ":" s = true -> splitFrom 0 ":" cur s = [(cur ++ s)%string].
Proof.
  revert cur. induction s as [|c s IH]; intros cur H.
  - cbn. now rewrite append_nil_r.
  - apply without_colon_cons in H as [Hc Hs].
    cbn [splitFrom]. rewrite prefix_colon, Hc, IH by exact Hs.
    now rewrite Facts.append_assoc.
Qed.

Lemma splitFrom_nonempty skip sep cur s : splitFrom skip sep cur s <> [].
Proof.
  revert skip cur. induction s as [|c s IH]; intros skip cur; cbn [splitFrom].
  - discriminate.
  - destruct skip; [|apply IH].
    destruct (prefix sep (String c s)); [discriminate | apply IH].
Qed.

Lemma last_cons {A} (x : A) l d : l <> [] -> last (x :: l) d = last l d.
Proof. destruct l; [congruence | reflexivity]. Qed.

(** The last segment of a text is what follows its last colon. *)
Lemma last_segment cur a b d :
  without ":" b = true ->
  last (splitFrom 0 ":" cur (a ++ ":" ++ b)) d = b.
Proof.
  intros Hb. revert cur. induction a as [|c a IH]; intros cur.
  - change ("" ++ ":" ++ b)%string with (String ":" b).
    cbn [splitFrom]. rewrite prefix_colon. cbn [Ascii.eqb Bool.eqb String.length Nat.sub].
    rewrite segment_without_colon by exact Hb. reflexivity.
  - change (String c a ++ ":" ++ b)%string with (String c (a ++ ":" ++ b)).
    cbn [splitFrom]. rewrite prefix_colon.
    destruct (Ascii.eqb c ":").
    + cbn [String.length Nat.sub].
      rewrite last_cons by apply splitFrom_nonempty. apply IH.
    + apply IH.
Qed.

(** A text that starts with [name ++ ":"] has a colon. *)
Lemma prefix_has_colon name s :
  prefix (name ++ ":") s = true -> without ":" s = false.
Proof.
  revert s. induction name as [|c name IH]; intros [|d s] H;
    try (cbn in H; discriminate).
  - change ("" ++ ":")%string with ":" in H. rewrite prefix_colon in H.
    cbn [without]. now rewrite H.
  - change (String c name ++ ":")%string with (String c (name ++ ":")) in H.
    cbn [prefix] in H. destruct (ascii_dec c d); [|discriminate].
    cbn [without]. rewrite (IH _ H). apply andb_false_r.
Qed.

(** Nothing is replaced in a text without a colon. *)
Lemma replaceFirst_none name r s :
  without ":" s = true -> replaceFirst (name ++ ":") r s = s.
Proof.
  induction s as [|c s IH]; intros H.
  - cbn [replaceFirst]. destruct (prefix (name ++ ":") "") eqn:Hp;
      [|reflexivity].
    apply prefix_has_colon in Hp. cbn in Hp. discriminate.
  - cbn [replaceFirst]. destruct (prefix (name ++ ":") (String c s)) eqn:Hp.
    + apply prefix_has_colon in Hp. congruence.
    + apply without_colon_cons in H as [_ Hs]. now rewrite IH.
Qed.

Lemma orgPart_colon org :
  orgPart org = "" \/ exists o, orgPart org = (o ++ ":")%string /\
                                truthy_string o = true /\ org = Some o.
Proof.
  destruct org as [o|]; [|now left]. cbn.
  destruct (truthy_string o) eqn:Ho; [right; eauto | now left].
Qed.

(** Two texts cut at their first colon. *)
Lemma first_colon_inj a a' b b' :
  without ":" a = true -> without ":" a' = true ->
  (a ++ ":" ++ b)%string = (a' ++ ":" ++ b')%string -> a = a' /\ b = b'.
Proof.
  revert a'. induction a as [|c a IH]; intros [|c' a'] Ha Ha' H.
  - cbn in H. inversion H. auto.
  - cbn in H. inversion H. subst c'.
    apply without_colon_cons in Ha' as [Hc _]. cbn in Hc. discriminate.
  - cbn in H. inversion H. subst c.
    apply without_colon_cons in Ha as [Hc _]. cbn in Hc. discriminate.
  - cbn in H. inversion H. subst c'.
    apply without_colon_cons in Ha as [_ Ha].
    apply without_colon_cons in Ha' as [_ Ha'].
    destruct (IH a' Ha Ha' H2) as [-> ->]. auto.
Qed.

(** Keys of one kind are equal only for the same id and organisation. *)
Lemma getKey_inj name id id' org org' :
  without ":" name = true ->
  without ":" id = true -> without ":" id' = true ->
  orgFree org = true -> orgFree org' = true ->
  getKey (name ++ ":") id org = getKey (name ++ ":") id' org' ->
  id = id' /\ orgText org = orgText org'.
Proof.
  intros Hn Hi Hi' Ho Ho'. unfold getKey. rewrite !Facts.append_assoc.
  destruct (orgPart_colon org) as [E|(o & E & To & ->)];
    destruct (orgPart_colon org') as [E'|(o' & E' & To' & ->)];
    rewrite E, E'; cbn [append orgText]; rewrite ?Facts.append_assoc; intros H.
  - apply first_colon_inj in H as [_ ->]; [|assumption..]. split; [reflexivity|].
    destruct org as [[|]|], org' as [[|]|]; cbn in E, E' |- *;
      try reflexivity; discriminate.
  - exfalso. apply first_colon_inj in H as [_ H]; [|assumption..].
    subst id. rewrite !without_app in Hi. cbn in Hi.
    rewrite andb_false_r in Hi. discriminate.
  - exfalso. apply first_colon_inj in H as [_ H]; [|assumption..].
    subst id'. rewrite !without_app in Hi'. cbn in Hi'.
    rewrite andb_false_r in Hi'. discriminate.
  - apply first_colon_inj in H as [-> H]; [|assumption..].
    apply first_colon_inj in H as [_ ->]; [|assumption..]. auto.
Qed.

(** The store. *)

Lemma redisGet_set key value store :
  redisGet key (redisSet key value store) = Some value.
Proof.
  induction store as [|[k v] store IH]; cbn.
  - now rewrite String.eqb_refl.
  - destruct (String.eqb key k) eqn:E; cbn; rewrite ?String.eqb_refl, ?E; auto.
Qed.

Lemma redisGet_set_other key key' value store :
  key' <> key ->
  redisGet key' (redisSet key value store) = redisGet key' store.
Proof.
  intros Hne. apply String.eqb_neq in Hne.
  induction store as [|[k v] store IH]; cbn.
  - now rewrite Hne.
  - destruct (String.eqb key k) eqn:E; cbn.
    + apply String.eqb_eq in E. subst k. now rewrite Hne.
    + now rewrite IH.
Qed.

Lemma redisGet_del key store :
  redisGet key (snd (redisDel key store)) = None.
Proof.
  cbn. induction store as [|[k v] store IH]; cbn; [reflexivity|].
  destruct (String.eqb key k) eqn:E; cbn; [exact IH | now rewrite E].
Qed.

Lemma redisGet_del_other key key' store :
  key' <> key ->
  redisGet key' (snd (redisDel key store)) = redisGet key' store.
Proof.
  intros Hne. cbn. induction store as [|[k v] store IH]; cbn; [reflexivity|].
  destruct (String.eqb key k) eqn:E; cbn.
  - apply String.eqb_eq in E. subst k.
    apply String.eqb_neq in Hne. now rewrite Hne.
  - now rewrite IH.
Qed.

(** The parsed object. *)

Lemma get_field_set_other k k' v fields :
  k <> k' -> get_field k (set_field k' v fields) = get_field k fields.
Proof.
  intros Hne. apply String.eqb_neq in Hne.
  induction fields as [|[k0 v0] fields IH]; cbn.
  - now rewrite Hne.
  - destruct (String.eqb k' k0) eqn:E; cbn.
    + apply String.eqb_eq in E. subst k0. now rewrite Hne.
    + now rewrite IH.
Qed.

Lemma get_field_set_same k v fields :
  get_field k (set_field k v fields) = v.
Proof.
  induction fields as [|[k0 v0] fields IH]; cbn.
  - now rewrite String.eqb_refl.
  - destruct (String.eqb k k0) eqn:E; cbn; rewrite ?String.eqb_refl, ?E; auto.
Qed.

Lemma withDate_other C parsed d k fields :
  k <> d -> get_field k (withDate C parsed d fields) = get_field k fields.
Proof.
  intros Hne. unfold withDate. destruct (truthy _); [|reflexivity].
  now apply get_field_set_other.
Qed.

Lemma parseObject_eq C parsed id :
  parseObject C parsed id =
  match nestedConfig parsed with
  | Some config =>
      JObj (set_field "config" (parseObject C config (opt_get "id" config))
              (withDatesAndId C parsed id))
  | None => JObj (withDatesAndId C parsed id)
  end.
Proof.
  destruct parsed as [| |b|n|s|items|fields]; try reflexivity.
  unfold nestedConfig. cbn [opt_get parseObject].
  generalize (withDatesAndId C (JObj fields) id). intros result.
  induction fields as [|[k v] fields IH].
  - reflexivity.
  - cbn [get_field]. destruct (String.eqb "config" k) eqn:E.
    + destruct (truthy v && truthy (opt_get "id" v)); reflexivity.
    + exact IH.
Qed.

Lemma parseObject_fields C parsed id :
  exists fields,
    parseObject C parsed id = JObj fields /\
    get_field "id" fields = id /\
    (forall k, ~ In k ("id" :: "config" :: dates) ->
       get_field k fields = get_field k (spread parsed)) /\
    (forall d, In d dates ->
       get_field d fields =
       if truthy (opt_get d parsed) then newDate C (opt_get d parsed)
       else get_field d (spread parsed)) /\
    get_field "config" fields =
      match nestedConfig parsed with
      | Some config => parseObject C config (opt_get "id" config)
      | None => get_field "config" (spread parsed)
      end.
Proof.
  assert (Hid : get_field "id" (withDatesAndId C parsed id) = id)
    by apply get_field_set_same.
  assert (Hother : forall k, ~ In k ("id" :: dates) ->
            get_field k (withDatesAndId C parsed id)
            = get_field k (spread parsed)).
  { intros k Hk. unfold withDatesAndId.
    rewrite get_field_set_other by (intros ->; apply Hk; cbn; tauto).
    rewrite !withDate_other by (intros ->; apply Hk; cbn; tauto).
    reflexivity. }
  assert (Hdate : forall d, In d dates ->
            get_field d (withDatesAndId C parsed id)
            = if truthy (opt_get d parsed) then newDate C (opt_get d parsed)
              else get_field d (spread parsed)).
  { intros d Hd. unfold withDatesAndId.
    cbn in Hd. destruct Hd as [<-|[<-|[<-|[<-|[]]]]];
      rewrite get_field_set_other by discriminate;
      rewrite ?withDate_other by discriminate;
      (unfold withDate at 1; destruct (truthy _);
       [apply get_field_set_same
       | rewrite ?withDate_other by discriminate; reflexivity]). }
  rewrite parseObject_eq. destruct (nestedConfig parsed) as [config|].
  - eexists. split; [reflexivity|]. split; [|split; [|split]].
    + now rewrite get_field_set_other by discriminate.
    + intros k Hk. rewrite get_field_set_other
        by (intros ->; apply Hk; cbn; tauto).
      apply Hother. intros Hin. apply Hk. cbn in Hin |- *. tauto.
    + intros d Hd. rewrite get_field_set_other.
      * now apply Hdate.
      * intros ->. cbn in Hd. intuition discriminate.
    + apply get_field_set_same.
  - eexists. split; [reflexivity|]. split; [|split; [|split]].
    + exact Hid.
    + intros k Hk. apply Hother. intros Hin. apply Hk. cbn in Hin |- *. tauto.
    + exact Hdate.
    + apply Hother. cbn. intuition discriminate.
Qed.

(** The entries of a listing. *)
Lemma listedAll_items C p store keys configs :
  listedAll C p store keys = Ok configs ->
  List.length configs = List.length keys /\
  forall item, In item configs ->
    item = JNull \/
    exists key text parsed,
      In key keys /\ redisGet key store = Some text /\
      JSON_parse C text = Ok parsed /\
      item = parseObject C parsed (JStr (idOfKey p key)).
Proof.
  revert configs. induction keys as [|key keys IH]; intros configs H.
  - cbn in H. inversion H. split; [reflexivity | intros ? []].
  - cbn [listedAll] in H.
    destruct (listed C p store key) as [item|e] eqn:Hitem; [|discriminate].
    destruct (listedAll C p store keys) as [items|e] eqn:Hrest; [|discriminate].
    inversion H. subst configs. destruct (IH items eq_refl) as [Hlen Hin].
    split; [cbn; now rewrite Hlen|].
    intros item' [<-|Hi].
    + unfold listed in Hitem.
      destruct (redisGet key store) as [text|] eqn:Hget;
        [|inversion Hitem; now left].
      destruct (negb (truthy_string text)) eqn:Ht;
        [inversion Hitem; now left|].
      unfold parseWithId in Hitem. rewrite Ht in Hitem.
      destruct (JSON_parse C text) as [parsed|e] eqn:Hp; [|discriminate].
      assert (Hobj : item = parseObject C parsed (JStr (idOfKey p key)))
        by (destruct parsed; try discriminate; now inversion Hitem).
      right. exists key, text, parsed.
      split; [now left | split; [assumption | split; assumption]].
    + destruct (Hin item' Hi) as [->|(k & t & q & Hk & Hrest')];
        [now left|].
      right. exists k, t, q. split; [now right | exact Hrest'].
Qed.

Lemma filter_length_le {A} (f : A -> bool) l :
  List.length (filter f l) <= List.length l.
Proof. induction l as [|x l IH]; cbn; [lia|]. destruct (f x); cbn; lia. Qed.

Lemma slice_length {A} offset limit (xs : list A) :
  List.length (slice offset limit xs) <= limit.
Proof. unfold slice. rewrite length_firstn. lia. Qed.

Lemma slice_In {A} offset limit (xs : list A) x :
  In x (slice offset limit xs) -> In x xs.
Proof.
  unfold slice. intros H. apply FrameworkFacts.firstn_In in H.
  revert xs H. induction offset as [|n IH]; intros [|y xs] H; cbn in H;
    try tauto; try exact H.
  right. now apply IH.
Qed.

End DatastoreFacts.

(** X26.  The id that a listing reads off a key is the id the key was made
    from, for every kind of config and every organisation, when the id has
    no colon; of an id with a colon only the part after the last colon is
    read back. *)
Theorem key_gives_back_the_id (name id : string) (org : option string) :
  Datastore.without ":" id = true ->
  Datastore.idOfKey (name ++ ":") (Datastore.getKey (name ++ ":") id org) = id
  /\ forall head,
       Datastore.idOfKey (name ++ ":")
         (Datastore.getKey (name ++ ":") (head ++ ":" ++ id) org) = id.
Proof.
  intros Hid. unfold Datastore.idOfKey, Datastore.getKey, Text.split. split.
  - replace (Datastore.orgPart org ++ (name ++ ":") ++ id)%string
      with ((Datastore.orgPart org ++ name) ++ ":" ++ id)%string
      by now rewrite !Facts.append_assoc.
    rewrite DatastoreFacts.last_segment by exact Hid.
    now apply DatastoreFacts.replaceFirst_none.
  - intros head.
    replace (Datastore.orgPart org ++ (name ++ ":") ++ head ++ ":" ++ id)%string
      with ((Datastore.orgPart org ++ name ++ ":" ++ head) ++ ":" ++ id)%string
      by now rewrite !Facts.append_assoc.
    rewrite DatastoreFacts.last_segment by exact Hid.
    now apply DatastoreFacts.replaceFirst_none.
Qed.

Lemma key_gives_back_the_id_witness :
  Datastore.idOfKey Datastore.API_PREFIX
    (Datastore.getKey Datastore.API_PREFIX "orders" (Some "acme")) = "orders".
Proof.
  apply (key_gives_back_the_id "api" "orders" (Some "acme")). reflexivity.
Defined.

(** X27.  A config stored under a non-empty id is returned unchanged by the
    upsert, and the next read with that id and organisation parses the
    stored text and returns the object with the id of the read; after a
    delete, which reports whether a value was stored, the read returns
    null. *)
Theorem stored_config_is_read_back (C : Datastore.Collaborators)
  (p id : string) (config parsed : Json) (org : option string)
  (store : Datastore.Store) :
  truthy_string id = true ->
  truthy config = true ->
  truthy_string (Datastore.JSON_stringify C config) = true ->
  Datastore.JSON_parse C (Datastore.JSON_stringify C config) = Ok parsed ->
  nullish parsed = false ->
  let stored := Datastore.upsertConfig C p id config org store in
  let deleted := Datastore.deleteConfig p id org (snd stored) in
  fst stored = config /\
  Datastore.getConfig C p id org (snd stored)
    = Ok (Datastore.parseObject C parsed (JStr id)) /\
  opt_get "id" (Datastore.parseObject C parsed (JStr id)) = JStr id /\
  fst deleted = true /\
  Datastore.getConfig C p id org (snd deleted) = Ok JNull.
Proof.
  intros Hid Hconfig Htext Hparse Hnull stored deleted.
  subst deleted stored.
  unfold Datastore.upsertConfig, Datastore.deleteConfig.
  rewrite Hid, Hconfig. cbn [negb orb fst snd].
  split; [reflexivity|].
  split.
  { unfold Datastore.getConfig. rewrite Hid. cbn [negb].
    rewrite DatastoreFacts.redisGet_set.
    unfold Datastore.parseWithId. rewrite Htext, Hparse. cbn [negb].
    destruct parsed; try discriminate; reflexivity. }
  split.
  { destruct (DatastoreFacts.parseObject_fields C parsed (JStr id))
      as (fields & -> & Hfield & _). exact Hfield. }
  match goal with
  | |- context [Datastore.redisDel ?k ?s] =>
      pose proof (DatastoreFacts.redisGet_del k s) as Hdel;
      destruct (Datastore.redisDel k s) as [n store'] eqn:Hd
  end.
  cbn [fst snd] in *. split.
  - unfold Datastore.redisDel in Hd.
    rewrite DatastoreFacts.redisGet_set in Hd. now inversion Hd.
  - unfold Datastore.getConfig. rewrite Hid, Hdel. reflexivity.
Qed.

Lemma stored_config_is_read_back_witness :
  Datastore.getConfig Examples.emptyObjects Datastore.API_PREFIX "orders"
    (Some "acme")
    (snd (Datastore.upsertConfig Examples.emptyObjects Datastore.API_PREFIX
            "orders" (JObj [("id", JStr "stale")]) (Some "acme") []))
  = Ok (JObj [("id", JStr "orders")]).
Proof.
  exact (proj1 (proj2
    (stored_config_is_read_back Examples.emptyObjects Datastore.API_PREFIX
       "orders" (JObj [("id", JStr "stale")]) (JObj []) (Some "acme") []
       eq_refl eq_refl eq_refl eq_refl eq_refl))).
Defined.

(** X28.  Configs of one kind are kept apart: when ids, organisations and
    the name of the kind have no colon, storing or deleting the config of
    one id and organisation changes no read of another id or
    organisation. *)
Theorem configs_are_kept_apart (C : Datastore.Collaborators)
  (name id id' : string) (config : Json) (org org' : option string)
  (store : Datastore.Store) :
  Datastore.without ":" name = true ->
  Datastore.without ":" id = true ->
  Datastore.without ":" id' = true ->
  DatastoreSpec.orgFree org = true ->
  DatastoreSpec.orgFree org' = true ->
  id <> id' \/ DatastoreSpec.orgText org <> DatastoreSpec.orgText org' ->
  Datastore.getConfig C (name ++ ":") id' org'
    (snd (Datastore.upsertConfig C (name ++ ":") id config org store))
  = Datastore.getConfig C (name ++ ":") id' org' store
  /\
  Datastore.getConfig C (name ++ ":") id' org'
    (snd (Datastore.deleteConfig (name ++ ":") id org store))
  = Datastore.getConfig C (name ++ ":") id' org' store.
Proof.
  intros Hn Hi Hi' Ho Ho' Hne.
  assert (Hkey : Datastore.getKey (name ++ ":") id' org'
                 <> Datastore.getKey (name ++ ":") id org).
  { intros E. apply DatastoreFacts.getKey_inj in E as [E1 E2];
      try assumption.
    destruct Hne as [Hne|Hne]; apply Hne; congruence. }
  unfold Datastore.getConfig, Datastore.upsertConfig, Datastore.deleteConfig.
  split.
  - destruct (negb (truthy_string id) || negb (truthy config));
      cbn [snd]; [reflexivity|].
    now rewrite DatastoreFacts.redisGet_set_other.
  - destruct (negb (truthy_string id)); cbn [snd]; [reflexivity|].
    pose proof (DatastoreFacts.redisGet_del_other
                  (Datastore.getKey (name ++ ":") id org)
                  (Datastore.getKey (name ++ ":") id' org') store Hkey) as E.
    destruct (Datastore.redisDel _ store) as [n store']. cbn [snd] in *.
    now rewrite E.
Qed.

Lemma configs_are_kept_apart_witness :
  Datastore.getConfig Examples.emptyObjects Datastore.API_PREFIX "orders"
    (Some "acme")
    (snd (Datastore.upsertConfig Examples.emptyObjects Datastore.API_PREFIX
            "orders" (JObj []) (Some "umbrella") []))
  = Datastore.getConfig Examples.emptyObjects Datastore.API_PREFIX "orders"
      (Some "acme") [].
Proof.
  refine (proj1 (configs_are_kept_apart Examples.emptyObjects "api"
            "orders" "orders" (JObj []) (Some "umbrella") (Some "acme") []
            eq_refl eq_refl eq_refl eq_refl eq_refl _)).
  right. cbn. discriminate.
Defined.

(** X29.  The object that [parseWithId] builds from a parsed value has the
    id it was given, whatever id was stored; each of the four date
    properties is turned into a date when it is truthy and left as stored
    otherwise; a nested config with a truthy id of its own is parsed with
    that id; every other property is the stored one. *)
Theorem parsed_object_takes_the_given_id (C : Datastore.Collaborators)
  (parsed id : Json) :
  exists fields,
    Datastore.parseObject C parsed id = JObj fields /\
    get_field "id" fields = id /\
    (forall d, In d DatastoreSpec.dates ->
       get_field d fields =
       if truthy (opt_get d parsed)
       then Datastore.newDate C (opt_get d parsed)
       else get_field d (spread parsed)) /\
    get_field "config" fields =
      (if truthy (opt_get "config" parsed)
          && truthy (opt_get "id" (opt_get "config" parsed))
       then Datastore.parseObject C (opt_get "config" parsed)
              (opt_get "id" (opt_get "config" parsed))
       else get_field "config" (spread parsed)) /\
    (forall k, ~ In k ("id" :: "config" :: DatastoreSpec.dates) ->
       get_field k fields = get_field k (spread parsed)).
Proof.
  destruct (DatastoreFacts.parseObject_fields C parsed id)
    as (fields & E & Hid & Hother & Hdate & Hconfig).
  exists fields. repeat split; try assumption.
  rewrite Hconfig. unfold DatastoreSpec.nestedConfig.
  now destruct (truthy (opt_get "config" parsed)
                && truthy (opt_get "id" (opt_get "config" parsed))).
Qed.

(** X30.  A listing of configs that returns gives as total the number of
    keys that match the pattern of the kind and the organisation, and at
    most [limit] items (10 when no limit is given); every item is the
    parsed value of a matching key that holds data, with the id read off
    that key. *)
Theorem listing_is_bounded_and_carries_key_ids (C : Datastore.Collaborators)
  (p : string) (limit offset : option nat) (org : option string)
  (store : Datastore.Store) (items : list Json) (total : nat) :
  Datastore.listConfigs C p limit offset org store = Ok (items, total) ->
  let keys := Datastore.redisKeys C (Datastore.getPattern p org) store in
  total = List.length keys /\
  List.length items <= match limit with Some n => n | None => 10 end /\
  forall item, In item items ->
    exists key text parsed,
      In key keys /\
      Datastore.redisGet key store = Some text /\
      Datastore.JSON_parse C text = Ok parsed /\
      item = Datastore.parseObject C parsed (JStr (Datastore.idOfKey p key)).
Proof.
  intros H keys. unfold Datastore.listConfigs in H. fold keys in H.
  destruct (Datastore.listedAll C p store _) as [configs|e] eqn:Hall;
    [|discriminate].
  inversion H. subst total.
  apply DatastoreFacts.listedAll_items in Hall as [Hlen Hitems].
  split; [reflexivity|]. split.
  - eapply Nat.le_trans; [apply DatastoreFacts.filter_length_le|].
    rewrite Hlen. apply DatastoreFacts.slice_length.
  - intros item Hin. apply filter_In in Hin as [Hin Hnot].
    destruct (Hitems item Hin) as [->|(key & text & parsed & Hk & Hrest)];
      [discriminate|].
    exists key, text, parsed. split; [|exact Hrest].
    eapply DatastoreFacts.slice_In. exact Hk.
Qed.

Lemma listing_is_bounded_and_carries_key_ids_witness :
  1 = List.length
        (Datastore.redisKeys Examples.emptyObjects
           (Datastore.getPattern Datastore.API_PREFIX (Some "acme"))
           [("acme:api:orders", "{}"); ("acme:extract:files", "{}")]) /\
  List.length [JObj [("id", JStr "orders")]] <= 10.
Proof.
  pose proof
    (listing_is_bounded_and_carries_key_ids Examples.emptyObjects
       Datastore.API_PREFIX None None (Some "acme")
       [("acme:api:orders", "{}"); ("acme:extract:files", "{}")]
       [JObj [("id", JStr "orders")]] 1 eq_refl) as H.
  exact (conj (proj1 H) (proj1 (proj2 H))).
Defined.
